(** * kstate: the transactional shared-state engine, embedded in Rocq

    The C library keeps every handle in a malloc'ed struct and talks to
    the operating system through shm_open, ftruncate, mmap, munmap,
    mprotect, close and shm_unlink.  The embedding threads one [world]
    through every call: the process memory (heap blocks and mappings,
    keyed by base address), the descriptor table, the POSIX shared-memory
    name space and objects, errno, the two static id counters, and a
    script that decides which of the fallible system calls fail.

    Diagnostic output (fprintf/printf) has no effect on any of this and
    is left out. *)

From Stdlib Require Import ZArith List String Ascii Bool Lia.
From Stdlib Require Import Strings.Byte.
From stdpp Require Import base gmap strings list fin_maps.

Open Scope Z_scope.

(** ** Constants *)

Definition NULL : Z := 0.
Definition MAP_FAILED : Z := -1.

(** kstate.h *)
Definition KSTATE_READ : Z := 1.
Definition KSTATE_WRITE : Z := 2.
Definition NAME_MAX : Z := 255.
Definition KSTATE_MAX_NAME_LEN : Z := NAME_MAX - 1.

(** Modelled from the spec: the macro KSTATE_NAME_PREFIX_LEN is used by the
    accessors but its definition is not among the sources; the canonical
    name is "/kstate." followed by the user name, so the prefix has 8
    characters. *)
Definition KSTATE_NAME_PREFIX_LEN : Z := 8.

(** errno.h, fcntl.h, sys/mman.h (Linux values) *)
Definition EPERM : Z := 1.
Definition ENOENT : Z := 2.
Definition EBADF : Z := 9.
Definition ENOMEM : Z := 12.
Definition EACCES : Z := 13.
Definition EINVAL : Z := 22.

Definition O_RDONLY : Z := 0.
Definition O_RDWR : Z := 2.
Definition O_CREAT : Z := 64.
Definition S_IRWXU : Z := 448.
Definition S_IRWXG : Z := 56.
Definition S_IRWXO : Z := 7.

Definition PROT_READ : Z := 1.
Definition PROT_WRITE : Z := 2.
Definition MAP_SHARED : Z := 1.
Definition MAP_PRIVATE : Z := 2.
Definition MAP_ANONYMOUS : Z := 32.

Definition UINT32_MOD : Z := 2 ^ 32.
Definition SIZE_MOD : Z := 2 ^ 64.

(** ** The two handle structs *)

Record kstate_state := mk_state {
  st_name : Z;          (* char *name *)
  st_permissions : Z;   (* uint32_t *)
  st_id : Z;            (* uint32_t *)
  st_map_addr : Z;      (* void * *)
  st_map_length : Z     (* size_t *)
}.

Record kstate_transaction := mk_transaction {
  tr_name : Z;            (* char *name *)
  tr_id : Z;              (* uint32_t *)
  tr_permissions : Z;     (* uint32_t *)
  tr_state_map_addr : Z;  (* void *: the shared region *)
  tr_state_map_copy : Z;  (* uint8_t *: the snapshot *)
  tr_map_addr : Z;        (* void *: the working buffer *)
  tr_map_length : Z       (* size_t *)
}.

Definition sizeof_state : Z := 32.
Definition sizeof_transaction : Z := 48.

(** memset (p, 0, sizeof ( *p)) leaves these. *)
Definition zero_state : kstate_state := mk_state 0 0 0 0 0.
Definition zero_transaction : kstate_transaction := mk_transaction 0 0 0 0 0 0 0.

Definition set_st_name v s := mk_state v (st_permissions s) (st_id s) (st_map_addr s) (st_map_length s).
Definition set_st_permissions v s := mk_state (st_name s) v (st_id s) (st_map_addr s) (st_map_length s).
Definition set_st_id v s := mk_state (st_name s) (st_permissions s) v (st_map_addr s) (st_map_length s).
Definition set_st_map_addr v s := mk_state (st_name s) (st_permissions s) (st_id s) v (st_map_length s).
Definition set_st_map_length v s := mk_state (st_name s) (st_permissions s) (st_id s) (st_map_addr s) v.

Definition set_tr_name v t :=
  mk_transaction v (tr_id t) (tr_permissions t) (tr_state_map_addr t)
                 (tr_state_map_copy t) (tr_map_addr t) (tr_map_length t).
Definition set_tr_id v t :=
  mk_transaction (tr_name t) v (tr_permissions t) (tr_state_map_addr t)
                 (tr_state_map_copy t) (tr_map_addr t) (tr_map_length t).
Definition set_tr_permissions v t :=
  mk_transaction (tr_name t) (tr_id t) v (tr_state_map_addr t)
                 (tr_state_map_copy t) (tr_map_addr t) (tr_map_length t).
Definition set_tr_state_map_addr v t :=
  mk_transaction (tr_name t) (tr_id t) (tr_permissions t) v
                 (tr_state_map_copy t) (tr_map_addr t) (tr_map_length t).
Definition set_tr_state_map_copy v t :=
  mk_transaction (tr_name t) (tr_id t) (tr_permissions t) (tr_state_map_addr t)
                 v (tr_map_addr t) (tr_map_length t).
Definition set_tr_map_addr v t :=
  mk_transaction (tr_name t) (tr_id t) (tr_permissions t) (tr_state_map_addr t)
                 (tr_state_map_copy t) v (tr_map_length t).
Definition set_tr_map_length v t :=
  mk_transaction (tr_name t) (tr_id t) (tr_permissions t) (tr_state_map_addr t)
                 (tr_state_map_copy t) (tr_map_addr t) v.

(** ** Process memory and the operating system *)

(** What lives at a base address.  A malloc'ed block is raw until the
    library initialises it (memset of a struct, sprintf or strcpy of a
    name, memcpy of a snapshot). *)
Inductive region :=
  | RRaw (size : Z)
  | RName (s : string)
  | RBuf (bytes : list byte)
  | RState (s : kstate_state)
  | RTrans (t : kstate_transaction)
  | RShared (obj : Z) (prot : Z) (len : Z)
  | RAnon (prot : Z) (bytes : list byte).

Record world := mk_world {
  mem : gmap Z region;               (* heap blocks and mappings *)
  brk : Z;                           (* next unused address *)
  fds : gmap Z (Z * Z);              (* descriptor |-> (object, open flags) *)
  next_fd : Z;
  shm_names : gmap string Z;         (* POSIX shm name space *)
  shm_objs : gmap Z (list byte);     (* contents of the shm objects *)
  next_obj : Z;
  shm_writes : list (Z * list byte); (* stores made through shared mappings *)
  page_size : Z;                     (* sysconf (_SC_PAGESIZE) *)
  errno : Z;
  faults : list (option positive);   (* outcome of the next fallible calls *)
  next_state_id : Z;                 (* static in kstate_new_state *)
  next_transaction_id : Z            (* static in kstate_new_transaction *)
}.

Definition set_mem v w :=
  mk_world v (brk w) (fds w) (next_fd w) (shm_names w) (shm_objs w) (next_obj w)
           (shm_writes w) (page_size w) (errno w) (faults w)
           (next_state_id w) (next_transaction_id w).
Definition set_brk v w :=
  mk_world (mem w) v (fds w) (next_fd w) (shm_names w) (shm_objs w) (next_obj w)
           (shm_writes w) (page_size w) (errno w) (faults w)
           (next_state_id w) (next_transaction_id w).
Definition set_fds v w :=
  mk_world (mem w) (brk w) v (next_fd w) (shm_names w) (shm_objs w) (next_obj w)
           (shm_writes w) (page_size w) (errno w) (faults w)
           (next_state_id w) (next_transaction_id w).
Definition set_next_fd v w :=
  mk_world (mem w) (brk w) (fds w) v (shm_names w) (shm_objs w) (next_obj w)
           (shm_writes w) (page_size w) (errno w) (faults w)
           (next_state_id w) (next_transaction_id w).
Definition set_shm_names v w :=
  mk_world (mem w) (brk w) (fds w) (next_fd w) v (shm_objs w) (next_obj w)
           (shm_writes w) (page_size w) (errno w) (faults w)
           (next_state_id w) (next_transaction_id w).
Definition set_shm_objs v w :=
  mk_world (mem w) (brk w) (fds w) (next_fd w) (shm_names w) v (next_obj w)
           (shm_writes w) (page_size w) (errno w) (faults w)
           (next_state_id w) (next_transaction_id w).
Definition set_next_obj v w :=
  mk_world (mem w) (brk w) (fds w) (next_fd w) (shm_names w) (shm_objs w) v
           (shm_writes w) (page_size w) (errno w) (faults w)
           (next_state_id w) (next_transaction_id w).
Definition set_shm_writes v w :=
  mk_world (mem w) (brk w) (fds w) (next_fd w) (shm_names w) (shm_objs w) (next_obj w)
           v (page_size w) (errno w) (faults w)
           (next_state_id w) (next_transaction_id w).
Definition set_errno v w :=
  mk_world (mem w) (brk w) (fds w) (next_fd w) (shm_names w) (shm_objs w) (next_obj w)
           (shm_writes w) (page_size w) v (faults w)
           (next_state_id w) (next_transaction_id w).
Definition set_faults v w :=
  mk_world (mem w) (brk w) (fds w) (next_fd w) (shm_names w) (shm_objs w) (next_obj w)
           (shm_writes w) (page_size w) (errno w) v
           (next_state_id w) (next_transaction_id w).
Definition set_next_state_id v w :=
  mk_world (mem w) (brk w) (fds w) (next_fd w) (shm_names w) (shm_objs w) (next_obj w)
           (shm_writes w) (page_size w) (errno w) (faults w)
           v (next_transaction_id w).
Definition set_next_transaction_id v w :=
  mk_world (mem w) (brk w) (fds w) (next_fd w) (shm_names w) (shm_objs w) (next_obj w)
           (shm_writes w) (page_size w) (errno w) (faults w)
           (next_state_id w) v.

(** ** The monad of the embedding

    A call either returns a value and a new world, or it is undefined
    behaviour in C (a NULL or dangling dereference, a store through a
    read-only mapping, a read beyond a shared object): [Crash]. *)

Inductive outcome (A : Type) : Type :=
  | Done (a : A) (w : world)
  | Crash.
Arguments Done {A} a w.
Arguments Crash {A}.

Definition M (A : Type) : Type := world -> outcome A.

Definition ret {A} (a : A) : M A := fun w => Done a w.
Definition bind {A B} (m : M A) (k : A -> M B) : M B :=
  fun w => match m w with
           | Done a w' => k a w'
           | Crash => Crash
           end.
Definition crash {A} : M A := fun _ => Crash.
Definition get_world : M world := fun w => Done w w.
Definition update (f : world -> world) : M unit := fun w => Done tt (f w).

Notation "x <- c1 ;; c2" := (bind c1 (fun x => c2))
  (at level 100, c1 at next level, right associativity).
Notation "c1 ;;; c2" := (bind c1 (fun _ => c2))
  (at level 100, right associativity).

(** ** libc *)

(** Each fallible call consumes one entry of the script: [None] lets the
    call proceed, [Some e] makes it fail with errno [e] (always positive).
    An exhausted script lets every call proceed. *)
Definition next_fault : M (option positive) :=
  fun w => Done (hd None (faults w)) (set_faults (tl (faults w)) w).

Definition fail_with {A} (e : Z) (r : A) : M A :=
  update (set_errno e) ;;; ret r.

Definition get_errno : M Z := fun w => Done (errno w) w.

(** A new region at the next unused address. *)
Definition alloc (size : Z) (r : region) : M Z :=
  fun w => Done (brk w)
                (set_brk (brk w + Z.max 1 size) (set_mem (<[brk w := r]> (mem w)) w)).

Definition malloc (size : Z) : M Z :=
  f <- next_fault ;;
  match f with
  | Some _ => fail_with ENOMEM NULL
  | None => alloc size (RRaw size)
  end.

Definition is_heap (r : region) : bool :=
  match r with
  | RShared _ _ _ | RAnon _ _ => false
  | _ => true
  end.

Definition free (p : Z) : M unit :=
  if p =? NULL then ret tt
  else fun w => match mem w !! p with
                | Some r => if is_heap r then Done tt (set_mem (delete p (mem w)) w)
                            else Crash
                | None => Crash
                end.

(** Struct access through a handle. *)
Definition load_state (p : Z) : M kstate_state :=
  fun w => match mem w !! p with
           | Some (RState s) => Done s w
           | _ => Crash
           end.

Definition store_state (p : Z) (s : kstate_state) : M unit :=
  fun w => match mem w !! p with
           | Some (RState _) => Done tt (set_mem (<[p := RState s]> (mem w)) w)
           | _ => Crash
           end.

Definition load_transaction (p : Z) : M kstate_transaction :=
  fun w => match mem w !! p with
           | Some (RTrans t) => Done t w
           | _ => Crash
           end.

Definition store_transaction (p : Z) (t : kstate_transaction) : M unit :=
  fun w => match mem w !! p with
           | Some (RTrans _) => Done tt (set_mem (<[p := RTrans t]> (mem w)) w)
           | _ => Crash
           end.

(** p->field = v *)
Definition assign_state (p : Z) (f : kstate_state -> kstate_state) : M unit :=
  s <- load_state p ;; store_state p (f s).
Definition assign_transaction (p : Z) (f : kstate_transaction -> kstate_transaction) : M unit :=
  t <- load_transaction p ;; store_transaction p (f t).

(** memset (new, 0, sizeof ( *new)) on a block fresh from malloc; a store
    through NULL is undefined. *)
Definition memset_state (p : Z) : M unit :=
  if p =? NULL then crash else
  fun w => match mem w !! p with
           | Some (RRaw n) =>
               if sizeof_state <=? n
               then Done tt (set_mem (<[p := RState zero_state]> (mem w)) w)
               else Crash
           | _ => Crash
           end.

Definition memset_transaction (p : Z) : M unit :=
  if p =? NULL then crash else
  fun w => match mem w !! p with
           | Some (RRaw n) =>
               if sizeof_transaction <=? n
               then Done tt (set_mem (<[p := RTrans zero_transaction]> (mem w)) w)
               else Crash
           | _ => Crash
           end.

(** A [string] stands for the characters before the terminating NUL. *)
Definition strlen (s : string) : Z := Z.of_nat (String.length s).

Definition load_string (p : Z) : M string :=
  fun w => match mem w !! p with
           | Some (RName s) => Done s w
           | _ => Crash
           end.

(** sprintf and strcpy into a block fresh from malloc. *)
Definition store_string (p : Z) (s : string) : M unit :=
  fun w => match mem w !! p with
           | Some (RRaw n) =>
               if strlen s + 1 <=? n
               then Done tt (set_mem (<[p := RName s]> (mem w)) w)
               else Crash
           | _ => Crash
           end.

Definition blen (b : list byte) : Z := Z.of_nat (length b).
Definition zeros (n : Z) : list byte := replicate (Z.to_nat n) x00.
Definition has (flags bit : Z) : bool := negb (Z.land flags bit =? 0).
Definition overwrite (new old : list byte) : list byte :=
  new ++ drop (length new) old.

(** Reading [n] bytes at a base address.  A shared mapping reads the shm
    object itself; reading beyond the object's end is SIGBUS. *)
Definition mem_read (p n : Z) : M (list byte) :=
  fun w => match mem w !! p with
           | Some (RBuf b) =>
               if n <=? blen b then Done (take (Z.to_nat n) b) w else Crash
           | Some (RAnon prot b) =>
               if has prot PROT_READ && (n <=? blen b)
               then Done (take (Z.to_nat n) b) w else Crash
           | Some (RShared obj prot len) =>
               match shm_objs w !! obj with
               | Some c =>
                   if has prot PROT_READ && (n <=? len) && (n <=? blen c)
                   then Done (take (Z.to_nat n) c) w else Crash
               | None => Crash
               end
           | _ => Crash
           end.

(** Storing bytes at a base address.  A store through a mapping without
    PROT_WRITE is SIGSEGV.  A store through a shared mapping changes the
    shm object and is logged. *)
Definition mem_write (p : Z) (bs : list byte) : M unit :=
  fun w => match mem w !! p with
           | Some (RRaw n) =>
               if blen bs =? n
               then Done tt (set_mem (<[p := RBuf bs]> (mem w)) w) else Crash
           | Some (RBuf b) =>
               if blen bs <=? blen b
               then Done tt (set_mem (<[p := RBuf (overwrite bs b)]> (mem w)) w)
               else Crash
           | Some (RAnon prot b) =>
               if has prot PROT_WRITE && (blen bs <=? blen b)
               then Done tt (set_mem (<[p := RAnon prot (overwrite bs b)]> (mem w)) w)
               else Crash
           | Some (RShared obj prot len) =>
               match shm_objs w !! obj with
               | Some c =>
                   if has prot PROT_WRITE && (blen bs <=? len) && (blen bs <=? blen c)
                   then Done tt (set_shm_writes (shm_writes w ++ [(obj, bs)])
                                   (set_shm_objs (<[obj := overwrite bs c]> (shm_objs w)) w))
                   else Crash
               | None => Crash
               end
           | _ => Crash
           end.

Fixpoint memcmp_bytes (a b : list byte) : Z :=
  match a, b with
  | x :: a', y :: b' =>
      let d := Z.of_N (Byte.to_N x) - Z.of_N (Byte.to_N y) in
      if d =? 0 then memcmp_bytes a' b' else d
  | _, _ => 0
  end.

Definition memcmp (p q n : Z) : M Z :=
  a <- mem_read p n ;;
  b <- mem_read q n ;;
  ret (memcmp_bytes a b).

Definition memcpy (dst src n : Z) : M unit :=
  bs <- mem_read src n ;;
  mem_write dst bs.

(** ** System calls *)

Definition sysconf_PAGESIZE : M Z := fun w => Done (page_size w) w.

Definition open_fd (obj oflag : Z) : M Z :=
  fun w => Done (next_fd w)
                (set_next_fd (next_fd w + 1)
                   (set_fds (<[next_fd w := (obj, oflag)]> (fds w)) w)).

Definition create_obj (s : string) : M Z :=
  fun w => Done (next_obj w)
                (set_next_obj (next_obj w + 1)
                   (set_shm_objs (<[next_obj w := []]> (shm_objs w))
                      (set_shm_names (<[s := next_obj w]> (shm_names w)) w))).

Definition shm_open (name oflag mode : Z) : M Z :=
  f <- next_fault ;;
  match f with
  | Some e => fail_with (Z.pos e) (-1)
  | None =>
      s <- load_string name ;;
      w <- get_world ;;
      match shm_names w !! s with
      | Some obj => open_fd obj oflag
      | None =>
          if has oflag O_CREAT
          then obj <- create_obj s ;; open_fd obj oflag
          else fail_with ENOENT (-1)
      end
  end.

Definition ftruncate (fd len : Z) : M Z :=
  f <- next_fault ;;
  match f with
  | Some e => fail_with (Z.pos e) (-1)
  | None =>
      w <- get_world ;;
      match fds w !! fd with
      | None => fail_with EBADF (-1)
      | Some (obj, oflag) =>
          if (Z.land oflag 3 =? O_RDONLY) || (len <? 0)
          then fail_with EINVAL (-1)
          else match shm_objs w !! obj with
               | Some c =>
                   update (set_shm_objs
                             (<[obj := resize (Z.to_nat len) x00 c]> (shm_objs w))) ;;;
                   ret 0
               | None => fail_with EBADF (-1)
               end
      end
  end.

(** The library always passes addr = NULL and off = 0. *)
Definition mmap (addr len prot flags fd off : Z) : M Z :=
  f <- next_fault ;;
  match f with
  | Some e => fail_with (Z.pos e) MAP_FAILED
  | None =>
      if len <=? 0 then fail_with EINVAL MAP_FAILED
      else if has flags MAP_ANONYMOUS
      then alloc len (RAnon prot (zeros len))
      else
        w <- get_world ;;
        match fds w !! fd with
        | None => fail_with EBADF MAP_FAILED
        | Some (obj, oflag) =>
            if has prot PROT_WRITE && negb (Z.land oflag 3 =? O_RDWR)
            then fail_with EACCES MAP_FAILED
            else alloc len (RShared obj prot len)
        end
  end.

(** POSIX munmap: EINVAL for a zero length; a range that holds no
    mapping is not an error.  Unmapping heap memory is undefined. *)
Definition munmap (addr len : Z) : M Z :=
  if len <=? 0 then fail_with EINVAL (-1)
  else fun w => match mem w !! addr with
                | Some (RShared _ _ _) | Some (RAnon _ _) =>
                    Done 0 (set_mem (delete addr (mem w)) w)
                | None => Done 0 w
                | Some _ => Crash
                end.

Definition mprotect (addr len prot : Z) : M Z :=
  f <- next_fault ;;
  match f with
  | Some e => fail_with (Z.pos e) (-1)
  | None =>
      fun w => match mem w !! addr with
               | Some (RAnon _ b) =>
                   Done 0 (set_mem (<[addr := RAnon prot b]> (mem w)) w)
               | Some (RShared obj _ l) =>
                   Done 0 (set_mem (<[addr := RShared obj prot l]> (mem w)) w)
               | _ => fail_with ENOMEM (-1) w
               end
  end.

Definition close (fd : Z) : M Z :=
  fun w => match fds w !! fd with
           | Some _ => Done 0 (set_fds (delete fd (fds w)) w)
           | None => fail_with EBADF (-1) w
           end.

Definition shm_unlink (name : Z) : M Z :=
  s <- load_string name ;;
  fun w => match shm_names w !! s with
           | Some _ => Done 0 (set_shm_names (delete s (shm_names w)) w)
           | None => fail_with ENOENT (-1) w
           end.

(** ** kstate.c: names and permissions *)

(** isalnum in the C locale. *)
Definition isalnum (c : ascii) : bool :=
  let n := Z.of_N (N_of_ascii c) in
  ((48 <=? n) && (n <=? 57)) || ((65 <=? n) && (n <=? 90)) || ((97 <=? n) && (n <=? 122)).

Definition is_dot (c : ascii) : bool := Ascii.eqb c "."%char.

Definition char_at (s : string) (i : Z) : ascii :=
  match String.get (Z.to_nat i) s with
  | Some c => c
  | None => Ascii.zero
  end.

(** The for loop of check_state_name over name[ii..]: [ii] is a size_t,
    [dot_at] an int, and the comparison [dot_at == ii - 1] is made in
    size_t. *)
Fixpoint check_state_name_loop (name : list ascii) (ii dot_at : Z) : bool :=
  match name with
  | [] => true
  | c :: rest =>
      if is_dot c then
        if dot_at mod SIZE_MOD =? (ii - 1) mod SIZE_MOD then false
        else check_state_name_loop rest (ii + 1) ii
      else if negb (isalnum c) then false
      else check_state_name_loop rest (ii + 1) dot_at
  end.

(** Returns the name length if it's OK, 0 if it's naughty. *)
Definition check_state_name (name : option string) : Z :=
  match name with
  | None => 0
  | Some s =>
      let name_len := strlen s in
      if name_len =? 0 then 0
      else if name_len >? KSTATE_MAX_NAME_LEN then 0
      else if is_dot (char_at s 0) || is_dot (char_at s (name_len - 1)) then 0
      else if check_state_name_loop (list_ascii_of_string s) 0 1 then name_len
      else 0
  end.

(** The out parameter is always &state->name. *)
Definition new_state_name (name : option string) (state : Z) : M Z :=
  match name with
  | None => ret (- EINVAL)
  | Some s =>
      let name_len := check_state_name name in
      if name_len =? 0 then ret (- EINVAL)
      else
        new <- malloc (1 + 6 + 1 + name_len + 1) ;;
        if new =? NULL then ret (- ENOMEM)
        else
          store_string new ("/kstate." ++ s)%string ;;;
          assign_state state (set_st_name new) ;;;
          ret 0
  end.

Definition state_permissions_are_bad (permissions : Z) : bool :=
  if permissions =? 0 then true
  else if negb (Z.land permissions (Z.lnot (Z.lor KSTATE_READ KSTATE_WRITE)) =? 0) then true
  else false.

Definition transaction_permissions_are_bad (permissions : Z) : bool :=
  if permissions =? 0 then true
  else if negb (Z.land permissions (Z.lnot (Z.lor KSTATE_READ KSTATE_WRITE)) =? 0) then true
  else false.

(** ** kstate.c: observers *)

Definition kstate_state_is_subscribed (state : Z) : M bool :=
  if state =? NULL then ret false
  else s <- load_state state ;; ret (negb (st_name s =? NULL)).

Definition kstate_transaction_is_active (transaction : Z) : M bool :=
  if transaction =? NULL then ret false
  else t <- load_transaction transaction ;; ret (negb (tr_name t =? NULL)).

Definition kstate_get_state_name (state : Z) : M Z :=
  sub <- kstate_state_is_subscribed state ;;
  if sub then s <- load_state state ;; ret (st_name s + KSTATE_NAME_PREFIX_LEN)
  else ret NULL.

Definition kstate_get_transaction_name (transaction : Z) : M Z :=
  act <- kstate_transaction_is_active transaction ;;
  if act then t <- load_transaction transaction ;; ret (tr_name t + KSTATE_NAME_PREFIX_LEN)
  else ret NULL.

Definition kstate_get_state_permissions (state : Z) : M Z :=
  sub <- kstate_state_is_subscribed state ;;
  if sub then s <- load_state state ;; ret (st_permissions s)
  else ret 0.

Definition kstate_get_transaction_permissions (transaction : Z) : M Z :=
  act <- kstate_transaction_is_active transaction ;;
  if act then t <- load_transaction transaction ;; ret (tr_permissions t)
  else ret 0.

Definition kstate_get_state_id (state : Z) : M Z :=
  sub <- kstate_state_is_subscribed state ;;
  if sub then s <- load_state state ;; ret (st_id s)
  else ret 0.

Definition kstate_get_transaction_id (transaction : Z) : M Z :=
  act <- kstate_transaction_is_active transaction ;;
  if act then t <- load_transaction transaction ;; ret (tr_id t)
  else ret 0.

Definition kstate_get_state_ptr (state : Z) : M Z :=
  sub <- kstate_state_is_subscribed state ;;
  if sub then s <- load_state state ;; ret (st_map_addr s)
  else ret NULL.

Definition kstate_get_transaction_ptr (transaction : Z) : M Z :=
  act <- kstate_transaction_is_active transaction ;;
  if act then t <- load_transaction transaction ;; ret (tr_map_addr t)
  else ret NULL.

(** ** kstate.c: state handles *)

(** There is no check of malloc's result before the memset. *)
Definition kstate_new_state : M Z :=
  new <- malloc sizeof_state ;;
  memset_state new ;;;
  w <- get_world ;;
  assign_state new (set_st_id (next_state_id w)) ;;;
  update (set_next_state_id ((next_state_id w + 1) mod UINT32_MOD)) ;;;
  w <- get_world ;;
  (if next_state_id w =? 0 then update (set_next_state_id 1) else ret tt) ;;;
  ret new.

Definition kstate_unsubscribe_state (state : Z) : M unit :=
  if state =? NULL then ret tt
  else
    s <- load_state state ;;
    (if negb (st_map_addr s =? NULL) && negb (st_map_addr s =? MAP_FAILED) then
       munmap (st_map_addr s) (st_map_length s) ;;;
       assign_state state (set_st_map_addr 0) ;;;
       assign_state state (set_st_map_length 0)
     else ret tt) ;;;
    s <- load_state state ;;
    (if negb (st_name s =? NULL) then
       shm_unlink (st_name s) ;;;
       free (st_name s) ;;;
       assign_state state (set_st_name NULL)
     else ret tt) ;;;
    assign_state state (set_st_permissions 0).

(** The argument is a kstate_state_p *: [None] is a NULL argument,
    [Some p] a variable holding [p]; the result is the variable's new
    value. *)
Definition kstate_free_state (state : option Z) : M (option Z) :=
  match state with
  | Some p =>
      if negb (p =? NULL) then
        sub <- kstate_state_is_subscribed p ;;
        (if sub then kstate_unsubscribe_state p else ret tt) ;;;
        free p ;;;
        ret (Some NULL)
      else ret state
  | None => ret None
  end.

Definition kstate_subscribe_state (state : Z) (name : option string) (permissions : Z) : M Z :=
  if state =? NULL then ret (- EINVAL)
  else
    sub <- kstate_state_is_subscribed state ;;
    if sub then ret (- EINVAL)
    else if state_permissions_are_bad permissions then ret (- EINVAL)
    else
      rv <- new_state_name name state ;;
      if negb (rv =? 0) then ret rv
      else
        let permissions :=
          if negb (has permissions KSTATE_READ)
          then Z.lor permissions KSTATE_READ else permissions in
        assign_state state (set_st_permissions permissions) ;;;
        let creating := has permissions KSTATE_WRITE in
        let shm_flag := if creating then Z.lor O_RDWR O_CREAT else O_RDONLY in
        let shm_mode := if creating then Z.lor (Z.lor S_IRWXU S_IRWXG) S_IRWXO else 0 in
        s <- load_state state ;;
        shm_fd <- shm_open (st_name s) shm_flag shm_mode ;;
        if shm_fd <? 0 then
          rv <- get_errno ;;
          s <- load_state state ;;
          free (st_name s) ;;;
          assign_state state (set_st_name NULL) ;;;
          assign_state state (set_st_permissions 0) ;;;
          ret (- rv)
        else
          page_size <- sysconf_PAGESIZE ;;
          rv <- (if creating then ftruncate shm_fd page_size else ret 0) ;;
          if negb (rv =? 0) then
            rv <- get_errno ;;
            s <- load_state state ;;
            free (st_name s) ;;;
            assign_state state (set_st_name NULL) ;;;
            assign_state state (set_st_permissions 0) ;;;
            ret (- rv)
          else
            assign_state state (set_st_map_length page_size) ;;;
            s <- load_state state ;;
            addr <- mmap NULL (st_map_length s) PROT_READ MAP_SHARED shm_fd 0 ;;
            assign_state state (set_st_map_addr addr) ;;;
            if addr =? MAP_FAILED then
              rv <- get_errno ;;
              s <- load_state state ;;
              free (st_name s) ;;;
              assign_state state (set_st_name NULL) ;;;
              assign_state state (set_st_permissions 0) ;;;
              assign_state state (set_st_map_addr 0) ;;;
              assign_state state (set_st_map_length 0) ;;;
              ret (- rv)
            else
              close shm_fd ;;;
              ret 0.

(** ** kstate.c: transactions *)

(** There is no check of malloc's result before the memset. *)
Definition kstate_new_transaction : M Z :=
  new <- malloc sizeof_transaction ;;
  memset_transaction new ;;;
  w <- get_world ;;
  assign_transaction new (set_tr_id (next_transaction_id w)) ;;;
  update (set_next_transaction_id ((next_transaction_id w + 1) mod UINT32_MOD)) ;;;
  w <- get_world ;;
  (if next_transaction_id w =? 0 then update (set_next_transaction_id 1) else ret tt) ;;;
  ret new.

(** [Some rv] is the early return of a failed munmap. *)
Definition clear_transaction (transaction : Z) : M Z :=
  t <- load_transaction transaction ;;
  (if negb (tr_state_map_copy t =? NULL) then
     free (tr_state_map_copy t) ;;;
     assign_transaction transaction (set_tr_state_map_copy NULL)
   else ret tt) ;;;
  t <- load_transaction transaction ;;
  r <- (if negb (tr_state_map_addr t =? NULL) && negb (tr_state_map_addr t =? MAP_FAILED) then
          rv <- munmap (tr_state_map_addr t) (tr_map_length t) ;;
          if negb (rv =? 0) then
            rv <- get_errno ;; ret (Some (- rv))
          else
            assign_transaction transaction (set_tr_state_map_addr 0) ;;; ret None
        else ret None) ;;
  match r with
  | Some rv => ret rv
  | None =>
      t <- load_transaction transaction ;;
      r <- (if negb (tr_map_addr t =? NULL) && negb (tr_map_addr t =? MAP_FAILED) then
              rv <- munmap (tr_map_addr t) (tr_map_length t) ;;
              if negb (rv =? 0) then
                rv <- get_errno ;; ret (Some (- rv))
              else
                assign_transaction transaction (set_tr_map_addr 0) ;;; ret None
            else ret None) ;;
      match r with
      | Some rv => ret rv
      | None =>
          assign_transaction transaction (set_tr_map_length 0) ;;;
          t <- load_transaction transaction ;;
          (if negb (tr_name t =? NULL) then
             free (tr_name t) ;;;
             assign_transaction transaction (set_tr_name NULL)
           else ret tt) ;;;
          assign_transaction transaction (set_tr_permissions 0) ;;;
          ret 0
      end
  end.

Definition kstate_abort_transaction (transaction : Z) : M Z :=
  if transaction =? NULL then ret (- EINVAL)
  else
    act <- kstate_transaction_is_active transaction ;;
    if negb act then ret (- EINVAL)
    else clear_transaction transaction.

(** The argument is a kstate_transaction_p *, as for kstate_free_state. *)
Definition kstate_free_transaction (transaction : option Z) : M (option Z) :=
  match transaction with
  | Some p =>
      if negb (p =? NULL) then
        act <- kstate_transaction_is_active p ;;
        (if act then kstate_abort_transaction p ;;; ret tt else ret tt) ;;;
        free p ;;;
        ret (Some NULL)
      else ret transaction
  | None => ret None
  end.

Definition kstate_start_transaction (transaction state permissions : Z) : M Z :=
  if transaction =? NULL then ret (- EINVAL)
  else if state =? NULL then ret (- EINVAL)
  else
    act <- kstate_transaction_is_active transaction ;;
    if act then ret (- EINVAL)
    else
      sub <- kstate_state_is_subscribed state ;;
      if negb sub then ret (- EINVAL)
      else if transaction_permissions_are_bad permissions then ret (- EINVAL)
      else
        let permissions :=
          if negb (has permissions KSTATE_READ)
          then Z.lor permissions KSTATE_READ else permissions in
        s <- load_state state ;;
        if has permissions KSTATE_WRITE && negb (has (st_permissions s) KSTATE_WRITE)
        then ret (- EINVAL)
        else
          assign_transaction transaction (set_tr_permissions permissions) ;;;
          sname <- load_string (st_name s) ;;
          let name_len := strlen sname in
          new <- malloc (name_len + 1) ;;
          assign_transaction transaction (set_tr_name new) ;;;
          if new =? NULL then ret (- ENOMEM)
          else
            store_string new sname ;;;
            s <- load_state state ;;
            assign_transaction transaction (set_tr_map_length (st_map_length s)) ;;;
            let writable := has permissions KSTATE_WRITE in
            let map_prot := if writable then Z.lor PROT_READ PROT_WRITE else PROT_READ in
            let shm_flag := if writable then O_RDWR else O_RDONLY in
            let shm_mode := 0 in
            t <- load_transaction transaction ;;
            shm_fd <- shm_open (tr_name t) shm_flag shm_mode ;;
            if shm_fd <? 0 then
              rv <- get_errno ;;
              t <- load_transaction transaction ;;
              free (tr_name t) ;;;
              assign_transaction transaction (set_tr_name NULL) ;;;
              assign_transaction transaction (set_tr_permissions 0) ;;;
              ret (- rv)
            else
              t <- load_transaction transaction ;;
              addr <- mmap NULL (tr_map_length t) map_prot MAP_SHARED shm_fd 0 ;;
              assign_transaction transaction (set_tr_state_map_addr addr) ;;;
              if addr =? MAP_FAILED then
                rv <- get_errno ;;
                clear_transaction transaction ;;;
                close shm_fd ;;;
                ret (- rv)
              else
                close shm_fd ;;;
                t <- load_transaction transaction ;;
                r <- (if has (tr_permissions t) KSTATE_WRITE then
                        copy <- malloc (tr_map_length t) ;;
                        assign_transaction transaction (set_tr_state_map_copy copy) ;;;
                        if copy =? NULL then
                          clear_transaction transaction ;;;
                          ret (Some (- ENOMEM))
                        else
                          memcpy copy (tr_state_map_addr t) (tr_map_length t) ;;;
                          ret None
                      else ret None) ;;
                match r with
                | Some rv => ret rv
                | None =>
                    t <- load_transaction transaction ;;
                    addr <- mmap NULL (tr_map_length t) (Z.lor PROT_READ PROT_WRITE)
                                 (Z.lor MAP_PRIVATE MAP_ANONYMOUS) (-1) 0 ;;
                    assign_transaction transaction (set_tr_map_addr addr) ;;;
                    if addr =? MAP_FAILED then
                      rv <- get_errno ;;
                      clear_transaction transaction ;;;
                      ret (- rv)
                    else
                      memcpy addr (tr_state_map_addr t) (tr_map_length t) ;;;
                      if negb writable then
                        rv <- mprotect addr (tr_map_length t) PROT_READ ;;
                        if negb (rv =? 0) then
                          rv <- get_errno ;;
                          clear_transaction transaction ;;;
                          ret (- rv)
                        else ret 0
                      else ret 0
                end.

Definition kstate_commit_transaction (transaction : Z) : M Z :=
  if transaction =? NULL then ret (- EINVAL)
  else
    act <- kstate_transaction_is_active transaction ;;
    if negb act then ret (- EINVAL)
    else
      t <- load_transaction transaction ;;
      if negb (has (tr_permissions t) KSTATE_WRITE) then ret (- EPERM)
      else
        changed <- memcmp (tr_state_map_addr t) (tr_state_map_copy t) (tr_map_length t) ;;
        retcode <-
          (if negb (changed =? 0) then ret (- EPERM)
           else
             differs <- memcmp (tr_state_map_addr t) (tr_map_addr t) (tr_map_length t) ;;
             if negb (differs =? 0) then
               memcpy (tr_state_map_addr t) (tr_map_addr t) (tr_map_length t) ;;;
               ret 0
             else ret 0) ;;
        rv <- clear_transaction transaction ;;
        if negb (retcode =? 0) then ret retcode else ret rv.
(** ** kstate.c: unique names *)

(** Conversion to int of a value of a wider or of an unsigned type (two's
    complement, as gcc and clang define it). *)
Definition to_int (v : Z) : Z :=
  let r := v mod UINT32_MOD in
  if r <? 2 ^ 31 then r else r - UINT32_MOD.

(** do { ++count; value /= 10; } while (value);  the division of C
    truncates towards zero.  A nonzero value loses at least one bit at
    each division, so log2 |value| + 1 rounds are enough. *)
Fixpoint num_digits_loop (fuel : nat) (count value : Z) : option Z :=
  match fuel with
  | O => None
  | S fuel' =>
      let count := count + 1 in
      let value := Z.quot value 10 in
      if negb (value =? 0) then num_digits_loop fuel' count value
      else Some count
  end.

Definition num_digits (value : Z) : option Z :=
  num_digits_loop (S (Z.to_nat (Z.log2 (Z.abs value)))) 0 value.

(** The result of a loop; [None] stands for a loop that has not ended. *)
Definition loop_result (r : option Z) : M Z :=
  match r with
  | Some n => ret n
  | None => crash
  end.

(** printf: the decimal digits of a number that is not negative, most
    significant first. *)
Definition digit_char (d : Z) : ascii := ascii_of_N (48 + Z.to_N d).

Fixpoint decimal_loop (fuel : nat) (n : Z) : string :=
  match fuel with
  | O => ""
  | S fuel' =>
      let high := if n / 10 =? 0 then EmptyString else decimal_loop fuel' (n / 10) in
      (high ++ String (digit_char (n mod 10)) "")%string
  end.

Definition decimal (n : Z) : string :=
  decimal_loop (S (Z.to_nat (Z.log2 n))) n.

Definition zero_pad (width : Z) (s : string) : string :=
  (string_of_list_ascii (repeat "0"%char (Z.to_nat (width - strlen s))) ++ s)%string.

(** The conversions %u (of a uint32_t), %ld and %06ld. *)
Definition fmt_u (v : Z) : string := decimal (v mod UINT32_MOD).

Definition fmt_ld (v : Z) : string :=
  if v <? 0 then ("-" ++ decimal (- v))%string else decimal v.

Definition fmt_06ld (v : Z) : string :=
  if v <? 0 then ("-" ++ zero_pad 5 (decimal (- v)))%string
  else zero_pad 6 (decimal v).

(** sprintf (name, "%s.%ld%06ld.%u.%u", prefix, tv.tv_sec, tv.tv_usec,
    (uint32_t) pid, extra) *)
Definition unique_name_text (prefix : string) (tv_sec tv_usec pid extra : Z) : string :=
  (prefix ++ "." ++ fmt_ld tv_sec ++ fmt_06ld tv_usec
   ++ "." ++ fmt_u pid ++ "." ++ fmt_u extra)%string.

(** The clock and the process id are inputs: [now] is the (tv_sec, tv_usec)
    that gettimeofday stores, or [None] when gettimeofday fails.  The
    function's static counter [extra] is passed in, and its new value is
    returned beside the result. *)
Definition kstate_get_unique_name (prefix : option string) (now : option (Z * Z))
    (pid extra : Z) : M (Z * Z) :=
  match prefix with
  | None => ret (NULL, extra)
  | Some prefix =>
      let prefix_len := strlen prefix in
      match now with
      | None => ret (NULL, extra)
      | Some (tv_sec, tv_usec) =>
          d_sec <- loop_result (num_digits (to_int tv_sec)) ;;
          d_pid <- loop_result (num_digits pid) ;;
          d_extra <- loop_result (num_digits (to_int extra)) ;;
          name <- malloc (prefix_len + 1 + d_sec + 6 + 1 + d_pid + 1 + d_extra + 1) ;;
          if name =? NULL then ret (NULL, extra)
          else
            store_string name (unique_name_text prefix tv_sec tv_usec pid extra) ;;;
            ret (name, (extra + 1) mod UINT32_MOD)
      end
  end.

(** ** Names as the specification describes them *)

(** "contain only ASCII alphanumerics and the dot character
    (0-9, A-Z, a-z, .)" *)
Definition spec_name_char (c : ascii) : bool :=
  let n := N_of_ascii c in
  ((48 <=? n) && (n <=? 57) || (65 <=? n) && (n <=? 90)
   || (97 <=? n) && (n <=? 122) || (n =? 46))%N.

Definition begins_with_dot (l : list ascii) : bool :=
  match l with
  | c :: _ => is_dot c
  | [] => false
  end.

Fixpoint ends_with_dot (l : list ascii) : bool :=
  match l with
  | [] => false
  | [c] => is_dot c
  | _ :: rest => ends_with_dot rest
  end.

Fixpoint adjacent_dots (l : list ascii) : bool :=
  match l with
  | c :: rest =>
      (is_dot c && begins_with_dot rest) || adjacent_dots rest
  | [] => false
  end.

(** The four rules of the specification's section 4.1. *)
Definition spec_valid_name (s : string) : bool :=
  let l := list_ascii_of_string s in
  negb (strlen s =? 0) && (strlen s <=? 254)
  && forallb spec_name_char l
  && negb (begins_with_dot l) && negb (ends_with_dot l)
  && negb (adjacent_dots l).

(** Is the first dot of [l] at index [k]? *)
Fixpoint first_dot_at (l : list ascii) (k : Z) : bool :=
  match l with
  | [] => false
  | c :: rest => if is_dot c then k =? 0 else first_dot_at rest (k - 1)
  end.

Definition nth_char (l : list ascii) (n : nat) : ascii :=
  match nth_error l n with
  | Some c => c
  | None => Ascii.zero
  end.

(** ** Properties of calls *)

(** A call that returns leaves the world (every handle, the memory, the
    shared objects) as it found it. *)
Definition side_effect_free {A} (m : M A) : Prop :=
  forall w a w', m w = Done a w' -> w' = w.

Definition twice {A} (m : M A) : M (A * A) :=
  a <- m ;; b <- m ;; ret (a, b).

(** Two consecutive calls return equal results. *)
Definition repeatable {A} (m : M A) : Prop :=
  forall w a b w', twice m w = Done (a, b) w' -> a = b.

Definition observer {A} (m : M A) : Prop :=
  side_effect_free m /\ repeatable m.

(** ** Transactions and their resources *)

Definition PROT_RW : Z := Z.lor PROT_READ PROT_WRITE.

(** What kstate_clear_transaction leaves in the struct. *)
Definition cleared (t : kstate_transaction) : kstate_transaction :=
  mk_transaction NULL (tr_id t) 0 0 NULL 0 0.

(** The shared mapping, the working buffer and the name of the active
    transaction behind handle [p], as kstate_start_transaction sets them
    up: [nm] is the canonical name, [obj] the shm object with contents
    [c], [work] the contents of the working buffer and [prot] the
    protection of the shared mapping. *)
Definition active_transaction (w : world) (p : Z) (t : kstate_transaction)
    (nm : string) (obj : Z) (c work : list byte) (prot wprot : Z) : Prop :=
  p <> NULL
  /\ mem w !! p = Some (RTrans t)
  /\ tr_name t <> NULL
  /\ mem w !! tr_name t = Some (RName nm)
  /\ tr_state_map_addr t <> NULL /\ tr_state_map_addr t <> MAP_FAILED
  /\ mem w !! tr_state_map_addr t = Some (RShared obj prot (tr_map_length t))
  /\ shm_objs w !! obj = Some c
  /\ tr_map_length t <= blen c
  /\ tr_map_addr t <> NULL /\ tr_map_addr t <> MAP_FAILED
  /\ mem w !! tr_map_addr t = Some (RAnon wprot work)
  /\ blen work = tr_map_length t
  /\ 0 < tr_map_length t.

(** A writable one also holds the snapshot [snap]. *)
Definition writable_transaction (w : world) (p : Z) (t : kstate_transaction)
    (nm : string) (obj : Z) (c snap work : list byte) : Prop :=
  active_transaction w p t nm obj c work PROT_RW PROT_RW
  /\ has (tr_permissions t) KSTATE_WRITE = true
  /\ tr_state_map_copy t <> NULL
  /\ mem w !! tr_state_map_copy t = Some (RBuf snap)
  /\ blen snap = tr_map_length t.

(** A read-only one has no snapshot, and its working buffer is
    protected. *)
Definition readonly_transaction (w : world) (p : Z) (t : kstate_transaction)
    (nm : string) (obj : Z) (c work : list byte) : Prop :=
  active_transaction w p t nm obj c work PROT_READ PROT_READ
  /\ has (tr_permissions t) KSTATE_WRITE = false
  /\ tr_state_map_copy t = NULL.

(** A handle on which commit and abort are in the wrong state: NULL, or
    a transaction that is not active. *)
Definition not_active (w : world) (p : Z) : Prop :=
  p = NULL \/ exists t, mem w !! p = Some (RTrans t) /\ tr_name t = NULL.

(** [w] is where a commit or an abort of the active transaction [p] of
    some world [w0] returned. *)
Definition just_ended (w : world) (p : Z) : Prop :=
  exists w0 t nm obj c work r,
    (exists snap, writable_transaction w0 p t nm obj c snap work
                  /\ (kstate_commit_transaction p w0 = Done r w
                      \/ kstate_abort_transaction p w0 = Done r w))
    \/ (readonly_transaction w0 p t nm obj c work
        /\ kstate_abort_transaction p w0 = Done r w).

(** The bytes of the shared region a mapping of length [n] sees. *)
Definition live_bytes (c : list byte) (n : Z) : list byte := take (Z.to_nat n) c.

(** [m'] is [m] without the regions at the addresses in [gone] and with
    [r] at [p]. *)
Definition torn_down (m m' : gmap Z region) (p : Z) (r : region) (gone : list Z) : Prop :=
  m' !! p = Some r
  /\ (forall a, In a gone -> m' !! a = None)
  /\ (forall a, a <> p -> ~ In a gone -> m' !! a = m !! a).

(** ** The handle invariant *)

(** A subscribed state has a name, a mapping and permissions. *)
Definition state_ok (s : kstate_state) : Prop :=
  st_name s <> NULL ->
  0 < st_name s /\ st_map_addr s <> NULL /\ st_permissions s <> 0.

(** An active transaction has a name, a working buffer and
    permissions. *)
Definition trans_ok (t : kstate_transaction) : Prop :=
  tr_name t <> NULL ->
  0 < tr_name t /\ tr_map_addr t <> NULL /\ tr_permissions t <> 0.

Definition is_struct (r : region) : bool :=
  match r with
  | RState _ | RTrans _ => true
  | _ => false
  end.

Definition region_ok (r : region) : Prop :=
  match r with
  | RState s => state_ok s
  | RTrans t => trans_ok t
  | _ => True
  end.

(** Every handle struct in memory satisfies [phi]. *)
Definition structs (phi : Z -> region -> Prop) (w : world) : Prop :=
  forall a r, is_struct r = true -> mem w !! a = Some r -> phi a r.

(** The invariant of the library: addresses handed out are positive and
    every handle in memory is consistent. *)
Definition handles_ok (w : world) : Prop :=
  0 < brk w /\ structs (fun _ r => region_ok r) w.

(** From [w] to [w'] no handle struct was created or changed. *)
Definition no_new_structs (w w' : world) : Prop :=
  brk w <= brk w'
  /\ forall a r, is_struct r = true -> mem w' !! a = Some r -> mem w !! a = Some r.

(** From [w] to [w'] no handle struct other than the one at [p] was
    created or changed. *)
Definition no_new_structs_except (p : Z) (w w' : world) : Prop :=
  brk w <= brk w'
  /\ forall a r, a <> p -> is_struct r = true ->
                 mem w' !! a = Some r -> mem w !! a = Some r.

(** If [p] holds a handle struct in [w], it is [r0]. *)
Definition cur (p : Z) (r0 : region) (w : world) : Prop :=
  forall r, is_struct r = true -> mem w !! p = Some r -> r = r0.

(** [w'] is [w] after a store of [r'] at [p]. *)
Definition stored (p : Z) (r' : region) (w w' : world) : Prop :=
  w' = set_mem (<[p := r']> (mem w)) w.

(** ** Worlds *)

(** A process that has not called the library yet: no memory in use,
    descriptors 0-2 taken, both id counters at 1. *)
Definition init_world (ps : Z) (script : list (option positive)) : world :=
  mk_world ∅ 1 ∅ 3 ∅ ∅ 1 [] ps 0 script 1 1.

(** ** Starting a transaction *)

(** READ is added to permissions that lack it. *)
Definition with_read (permissions : Z) : Z :=
  if negb (has permissions KSTATE_READ)
  then Z.lor permissions KSTATE_READ else permissions.

(** None of the next [n] fallible calls is scheduled to fail. *)
Fixpoint no_fault (n : nat) (script : list (option positive)) : Prop :=
  match n with
  | O => True
  | S n' => hd None script = None /\ no_fault n' (tl script)
  end.

(** Nothing lives at or above the next unused address. *)
Definition fresh_above (w : world) : Prop :=
  0 < brk w /\ forall a, brk w <= a -> mem w !! a = None.

(** A subscribed state: the handle [p] holds [s], whose name block holds
    [nm] and whose read-only mapping maps the shm object [sobj]. *)
Definition subscribed_state (w : world) (p : Z) (s : kstate_state)
    (nm : string) (sobj : Z) : Prop :=
  p <> NULL
  /\ mem w !! p = Some (RState s)
  /\ st_name s <> NULL
  /\ mem w !! st_name s = Some (RName nm)
  /\ st_map_addr s <> NULL /\ st_map_addr s <> MAP_FAILED
  /\ mem w !! st_map_addr s = Some (RShared sobj PROT_READ (st_map_length s))
  /\ 0 < st_map_length s.

(** The circumstances in which kstate_start_transaction succeeds for
    writing: a subscribed state with write permission, an inactive
    transaction, the state's name still bound to an object that is at
    least as long as the mapping, and no failure scheduled for the two
    mallocs, the shm_open and the two mmaps. *)
Definition ready_to_start (w : world) (st : Z) (s : kstate_state) (tp : Z)
    (t : kstate_transaction) (nm : string) (sobj obj : Z) (c : list byte)
    (permissions : Z) : Prop :=
  subscribed_state w st s nm sobj
  /\ has (st_permissions s) KSTATE_WRITE = true
  /\ tp <> NULL
  /\ mem w !! tp = Some (RTrans t)
  /\ tr_name t = NULL
  /\ shm_names w !! nm = Some obj
  /\ shm_objs w !! obj = Some c
  /\ st_map_length s <= blen c
  /\ transaction_permissions_are_bad permissions = false
  /\ has (with_read permissions) KSTATE_WRITE = true
  /\ no_fault 5 (faults w)
  /\ 0 <= next_fd w
  /\ fresh_above w.

(** What is assumed of the world in which a transaction is started on a
    subscribed state: the transaction handle is a transaction struct,
    descriptors are not negative, the allocator hands out unused
    addresses, and while the state's name is bound, it is bound to an
    object at least as long as the state's mapping. *)
Definition start_setting (w : world) (st : Z) (s : kstate_state) (tp : Z)
    (t : kstate_transaction) (nm : string) (sobj : Z) : Prop :=
  subscribed_state w st s nm sobj
  /\ mem w !! tp = Some (RTrans t)
  /\ 0 <= next_fd w
  /\ fresh_above w
  /\ (forall obj, shm_names w !! nm = Some obj ->
      exists c, shm_objs w !! obj = Some c /\ st_map_length s <= blen c).

(** The struct kstate_start_transaction leaves: the name copy, the shared
    mapping, the snapshot and the working buffer are allocated one after
    the other. *)
Definition started (w : world) (nm : string) (len id permissions : Z)
  : kstate_transaction :=
  let a_name := brk w in
  let a_live := a_name + Z.max 1 (strlen nm + 1) in
  let a_copy := a_live + Z.max 1 len in
  let a_work := a_copy + Z.max 1 len in
  mk_transaction a_name id (with_read permissions) a_live a_copy a_work len.

(** Tearing a state down, as the documentation has it: unsubscribe, then
    free. *)
Definition tear_down_state_handle (st : Z) : M (option Z) :=
  kstate_unsubscribe_state st ;;; kstate_free_state (Some st).

(** A world in which a state (handle at address 1) is subscribed to
    "Fred" for read and write on a machine with 4-byte pages, and a new
    transaction handle (at address 50) has not been started. *)
Definition demo_subscribed : world :=
  match (s <- kstate_new_state ;;
         kstate_subscribe_state s (Some "Fred"%string) (Z.lor KSTATE_READ KSTATE_WRITE) ;;;
         kstate_new_transaction) (init_world 4 [])
  with
  | Done _ w => w
  | Crash => init_world 4 []
  end.

(** The two structs in that world. *)
Definition demo_state : kstate_state := mk_state 33 3 1 46 4.
Definition demo_inactive : kstate_transaction := mk_transaction 0 1 0 0 0 0 0.

(** That world after a transaction for write has been started on the
    state. *)
Definition demo_started : world :=
  match kstate_start_transaction 50 1 KSTATE_WRITE demo_subscribed with
  | Done _ w => w
  | Crash => demo_subscribed
  end.

(** ** Identifiers *)

(** The id counter after one allocation: it skips 0 on wrap. *)
Definition bump (n : Z) : Z :=
  if (n + 1) mod UINT32_MOD =? 0 then 1 else (n + 1) mod UINT32_MOD.

(** Two successive calls of kstate_new_state, and what kstate_get_state_id
    then reports for the two handles. *)
Definition two_new_states : M (Z * Z) :=
  h1 <- kstate_new_state ;;
  h2 <- kstate_new_state ;;
  i1 <- kstate_get_state_id h1 ;;
  i2 <- kstate_get_state_id h2 ;;
  ret (i1, i2).

(** A handle that was subscribed and unsubscribed again, but not freed. *)
Definition subscribed_then_unsubscribed : M (Z * Z) :=
  h <- kstate_new_state ;;
  kstate_subscribe_state h (Some "Fred"%string) (Z.lor KSTATE_READ KSTATE_WRITE) ;;;
  during <- kstate_get_state_id h ;;
  kstate_unsubscribe_state h ;;;
  after <- kstate_get_state_id h ;;
  ret (during, after).

(** ** Reachable worlds *)

(** What the process and its environment can do. *)
Inductive api_call :=
  | NewState
  | FreeState (state : option Z)
  | Subscribe (state : Z) (name : option string) (permissions : Z)
  | Unsubscribe (state : Z)
  | NewTransaction
  | FreeTransaction (transaction : option Z)
  | Start (transaction state permissions : Z)
  | Abort (transaction : Z)
  | Commit (transaction : Z)
  | UserWrite (transaction : Z) (bytes : list byte).

(** The caller stores [bytes] through kstate_get_transaction_ptr. *)
Definition user_write (transaction : Z) (bytes : list byte) : M unit :=
  p <- kstate_get_transaction_ptr transaction ;;
  if p =? NULL then ret tt else mem_write p bytes.

Definition run_call (c : api_call) : M unit :=
  match c with
  | NewState => kstate_new_state ;;; ret tt
  | FreeState state => kstate_free_state state ;;; ret tt
  | Subscribe state name permissions =>
      kstate_subscribe_state state name permissions ;;; ret tt
  | Unsubscribe state => kstate_unsubscribe_state state
  | NewTransaction => kstate_new_transaction ;;; ret tt
  | FreeTransaction transaction => kstate_free_transaction transaction ;;; ret tt
  | Start transaction state permissions =>
      kstate_start_transaction transaction state permissions ;;; ret tt
  | Abort transaction => kstate_abort_transaction transaction ;;; ret tt
  | Commit transaction => kstate_commit_transaction transaction ;;; ret tt
  | UserWrite transaction bytes => user_write transaction bytes
  end.

(** A process before its first call: nothing allocated; the shared name
    space, the page size and the failure script are arbitrary. *)
Definition initial (w : world) : Prop := mem w = ∅ /\ 0 < brk w.

(** Worlds reached by calls of the library, stores through transaction
    pointers, and other processes changing the shared objects. *)
Inductive reachable : world -> Prop :=
  | reach_init w : initial w -> reachable w
  | reach_call w c u w' : reachable w -> run_call c w = Done u w' -> reachable w'
  | reach_env w names objs :
      reachable w -> reachable (set_shm_names names (set_shm_objs objs w)).

(** The four observations of a state handle agree. *)
Definition state_observations_agree (w : world) (p : Z) : Prop :=
  exists b n q m,
    kstate_state_is_subscribed p w = Done b w
    /\ kstate_get_state_name p w = Done n w
    /\ kstate_get_state_ptr p w = Done q w
    /\ kstate_get_state_permissions p w = Done m w
    /\ (b = true <-> n <> NULL) /\ (n <> NULL <-> q <> NULL) /\ (q <> NULL <-> m <> 0).

Definition transaction_observations_agree (w : world) (p : Z) : Prop :=
  exists b n q m,
    kstate_transaction_is_active p w = Done b w
    /\ kstate_get_transaction_name p w = Done n w
    /\ kstate_get_transaction_ptr p w = Done q w
    /\ kstate_get_transaction_permissions p w = Done m w
    /\ (b = true <-> n <> NULL) /\ (n <> NULL <-> q <> NULL) /\ (q <> NULL <-> m <> 0).

(** For every handle of the world, and for NULL. *)
Definition observations_agree (w : world) : Prop :=
  (forall p, p = NULL \/ (exists s, mem w !! p = Some (RState s)) ->
             state_observations_agree w p)
  /\ (forall p, p = NULL \/ (exists t, mem w !! p = Some (RTrans t)) ->
                transaction_observations_agree w p).

(** A world in which a writable transaction is under way: a state
    subscribed to "Fred" for read and write on a machine with 4-byte
    pages, a transaction started on it for write, and four bytes stored
    through the transaction's pointer.  The state handle is at address 1,
    the transaction handle at 50. *)
Definition demo_writable : world :=
  match (s <- kstate_new_state ;;
         kstate_subscribe_state s (Some "Fred"%string) (Z.lor KSTATE_READ KSTATE_WRITE) ;;;
         t <- kstate_new_transaction ;;
         kstate_start_transaction t s KSTATE_WRITE ;;;
         p <- kstate_get_transaction_ptr t ;;
         mem_write p [x12; x34; x56; x78]) (init_world 4 [])
  with
  | Done _ w => w
  | Crash => init_world 4 []
  end.

(** The same with a read-only transaction and no store. *)
Definition demo_readonly : world :=
  match (s <- kstate_new_state ;;
         kstate_subscribe_state s (Some "Fred"%string) (Z.lor KSTATE_READ KSTATE_WRITE) ;;;
         t <- kstate_new_transaction ;;
         kstate_start_transaction t s KSTATE_READ) (init_world 4 [])
  with
  | Done _ w => w
  | Crash => init_world 4 []
  end.

Definition demo_handle : Z := 50.
Definition demo_transaction (perms copy : Z) : kstate_transaction :=
  mk_transaction 98 1 perms 111 copy (if copy =? 0 then 115 else 119) 4.

(** The world in which the commit of that writable transaction returns. *)
Definition demo_committed : world :=
  match kstate_commit_transaction demo_handle demo_writable with
  | Done _ w => w
  | Crash => demo_writable
  end.

(** A process that is out of memory at its next malloc. *)
Definition out_of_memory : world := init_world 4096 [Some 12%positive].

(** A fresh state handle (at address 1) in a world where the two mallocs
    and shm_open succeed and the ftruncate that follows fails with ENOSPC;
    and one where ftruncate succeeds and the mmap fails with ENOMEM. *)
Definition ftruncate_fails : world :=
  match kstate_new_state (init_world 4096 [None; None; None; Some 28%positive]) with
  | Done _ w => w
  | Crash => init_world 4096 []
  end.

Definition mmap_fails : world :=
  match kstate_new_state (init_world 4096 [None; None; None; None; Some 12%positive]) with
  | Done _ w => w
  | Crash => init_world 4096 []
  end.

(** A fresh state handle (at address 1) and no failures. *)
Definition fresh_state : world :=
  match kstate_new_state (init_world 4096 []) with
  | Done _ w => w
  | Crash => init_world 4096 []
  end.

Definition two_fresh_states : world :=
  match kstate_new_state fresh_state with
  | Done _ w => w
  | Crash => fresh_state
  end.
(** ** Decimal text *)

Definition is_digit (c : ascii) : bool :=
  let n := Z.of_N (N_of_ascii c) in (48 <=? n) && (n <=? 57).

Definition digit_value (c : ascii) : Z := Z.of_N (N_of_ascii c) - 48.

(** The number a string of digits denotes. *)
Fixpoint undecimal_loop (acc : Z) (s : string) : Z :=
  match s with
  | EmptyString => acc
  | String c rest => undecimal_loop (10 * acc + digit_value c) rest
  end.

Definition undecimal (s : string) : Z := undecimal_loop 0 s.

(** The part of a text after its last dot. *)
Fixpoint after_last_dot_loop (l : list ascii) (acc : list ascii) : list ascii :=
  match l with
  | [] => acc
  | c :: rest => after_last_dot_loop rest (if is_dot c then [] else acc ++ [c])
  end.

Definition after_last_dot (s : string) : string :=
  string_of_list_ascii (after_last_dot_loop (list_ascii_of_string s) []).

(** [l] can follow a dot in a name, and a dot may follow it. *)
Definition component (l : list ascii) : Prop :=
  l <> [] /\ forallb spec_name_char l = true /\ begins_with_dot l = false
  /\ ends_with_dot l = false /\ adjacent_dots l = false.

(** A process that has asked for one unique name with the prefix "Fred",
    and for a second one at the same time of day. *)
Definition demo_named : world :=
  match kstate_get_unique_name (Some "Fred"%string) (Some (1359111111, 42)) 1234 7
          (init_world 4096 [])
  with
  | Done _ w => w
  | Crash => init_world 4096 []
  end.

Definition demo_named_twice : world :=
  match kstate_get_unique_name (Some "Fred"%string) (Some (1359111111, 42)) 1234 8
          demo_named
  with
  | Done _ w => w
  | Crash => demo_named
  end.
(** ** Subscribing *)

(** The name of the shm object for a state name. *)
Definition canonical (name : string) : string := ("/kstate." ++ name)%string.

(** An unsubscribed state handle, as kstate_new_state and
    kstate_unsubscribe_state leave it. *)
Definition unsubscribed_state (w : world) (p : Z) (s : kstate_state) : Prop :=
  p <> NULL /\ mem w !! p = Some (RState s) /\ st_name s = NULL.

(** The circumstances in which kstate_subscribe_state gets as far as
    opening the shm object: an unsubscribed handle, a name that
    check_state_name accepts, good permissions, and a malloc that
    succeeds. *)
Definition ready_to_subscribe (w : world) (st : Z) (s : kstate_state)
    (name : string) (permissions : Z) : Prop :=
  unsubscribed_state w st s
  /\ check_state_name (Some name) <> 0
  /\ state_permissions_are_bad permissions = false
  /\ hd None (faults w) = None
  /\ 0 <= next_fd w
  /\ 0 < page_size w
  /\ fresh_above w.

(** The struct kstate_subscribe_state leaves: the name block and the
    mapping are allocated one after the other. *)
Definition subscribed (w : world) (s : kstate_state) (name : string)
    (permissions : Z) : kstate_state :=
  mk_state (brk w) (with_read permissions) (st_id s)
           (brk w + (strlen (canonical name) + 1)) (page_size w).

(** Reading and writing the shared region through the pointer of a state. *)
Definition read_state (st : Z) (n : Z) : M (list byte) :=
  p <- kstate_get_state_ptr st ;; mem_read p n.

Definition write_state (st : Z) (bytes : list byte) : M unit :=
  p <- kstate_get_state_ptr st ;; mem_write p bytes.

(** The name a state reports: the text after the prefix in the block that
    kstate_get_state_name points into. *)
Definition reported_name (block : string) : string :=
  String.substring (Z.to_nat KSTATE_NAME_PREFIX_LEN)
                   (String.length block - Z.to_nat KSTATE_NAME_PREFIX_LEN) block.

(** ** Starting a transaction: what can go wrong *)

(** An idle transaction handle, as kstate_new_transaction, a commit, an
    abort and a failed start leave it: no name, and no pointer that
    clear_transaction would release. *)
Definition idle_transaction (w : world) (p : Z) (t : kstate_transaction) : Prop :=
  p <> NULL
  /\ mem w !! p = Some (RTrans t)
  /\ tr_name t = NULL
  /\ (tr_state_map_addr t = NULL \/ tr_state_map_addr t = MAP_FAILED)
  /\ tr_state_map_copy t = NULL
  /\ (tr_map_addr t = NULL \/ tr_map_addr t = MAP_FAILED).

(** A start that gets past its checks of the arguments. *)
Definition start_attempt (w : world) (st : Z) (s : kstate_state) (tp : Z)
    (t : kstate_transaction) (nm : string) (sobj : Z) (permissions : Z) : Prop :=
  subscribed_state w st s nm sobj
  /\ idle_transaction w tp t
  /\ transaction_permissions_are_bad permissions = false
  /\ (has (with_read permissions) KSTATE_WRITE = true ->
      has (st_permissions s) KSTATE_WRITE = true)
  /\ 0 <= next_fd w
  /\ fds w !! next_fd w = None
  /\ fresh_above w.

(** Nothing but the struct at [p] differs between [w] and [w']: no block,
    mapping or descriptor has come or gone, and the shm objects and their
    names are as they were. *)
Definition untouched_but (w w' : world) (p : Z) : Prop :=
  (forall a, a <> p -> mem w' !! a = mem w !! a)
  /\ fds w' = fds w
  /\ shm_names w' = shm_names w
  /\ shm_objs w' = shm_objs w
  /\ shm_writes w' = shm_writes w.

(** ** Transactions side by side *)

(** Reading the working buffer through the pointer of a transaction. *)
Definition read_transaction (tp : Z) (n : Z) : M (list byte) :=
  p <- kstate_get_transaction_ptr tp ;; mem_read p n.

(** Two transactions that share no block and no mapping. *)
Definition separate_transactions (p1 : Z) (t1 : kstate_transaction)
    (p2 : Z) (t2 : kstate_transaction) : Prop :=
  p1 <> p2
  /\ tr_name t1 <> tr_name t2
  /\ tr_state_map_addr t1 <> tr_state_map_addr t2
  /\ tr_state_map_copy t1 <> tr_state_map_copy t2
  /\ tr_map_addr t1 <> tr_map_addr t2.

(** The four regions of a writable transaction. *)
Definition resources (t : kstate_transaction) : list Z :=
  [tr_name t; tr_state_map_addr t; tr_map_addr t; tr_state_map_copy t].

(** ** Worlds with several handles *)

(** Two states (handles at 1 and 50) subscribed to "Fred" for read and
    write on a machine with 4-byte pages, a third handle that is not
    subscribed, and a new transaction handle. *)
Definition demo_peers : world :=
  match (s1 <- kstate_new_state ;;
         kstate_subscribe_state s1 (Some "Fred"%string) (Z.lor KSTATE_READ KSTATE_WRITE) ;;;
         s2 <- kstate_new_state ;;
         kstate_subscribe_state s2 (Some "Fred"%string) (Z.lor KSTATE_READ KSTATE_WRITE) ;;;
         kstate_new_state ;;;
         kstate_new_transaction) (init_world 4 [])
  with
  | Done _ w => w
  | Crash => init_world 4 []
  end.

(** Two writable transactions on one state, each with four bytes stored
    through its pointer. *)
Definition demo_two_writers : world :=
  match (s <- kstate_new_state ;;
         kstate_subscribe_state s (Some "Fred"%string) (Z.lor KSTATE_READ KSTATE_WRITE) ;;;
         t1 <- kstate_new_transaction ;;
         kstate_start_transaction t1 s KSTATE_WRITE ;;;
         t2 <- kstate_new_transaction ;;
         kstate_start_transaction t2 s KSTATE_WRITE ;;;
         p1 <- kstate_get_transaction_ptr t1 ;;
         mem_write p1 [x12; x34; x56; x78] ;;;
         p2 <- kstate_get_transaction_ptr t2 ;;
         mem_write p2 [x9a; xbc; xde; xf0]) (init_world 4 [])
  with
  | Done _ w => w
  | Crash => init_world 4 []
  end.

(** [demo_subscribed] in a process whose third fallible call from now
    fails with ENOMEM. *)
Definition demo_failing : world :=
  set_faults [None; None; Some 12%positive] demo_subscribed.

(** * Proofs *)

(** ** Name validation *)

Lemma strlen_list (s : string) : strlen s = Z.of_nat (length (list_ascii_of_string s)).
Proof.
  unfold strlen. f_equal. induction s as [|c s IH]; simpl; [reflexivity | now rewrite IH].
Qed.

Lemma get_list (s : string) (n : nat) :
  String.get n s = nth_error (list_ascii_of_string s) n.
Proof.
  revert n. induction s as [|c s IH]; intros [|n]; simpl; auto.
Qed.

Lemma is_dot_spec_name_char c : is_dot c = true -> spec_name_char c = true.
Proof.
  unfold is_dot. intros H. apply Ascii.eqb_eq in H. subst c. reflexivity.
Qed.

Lemma isalnum_spec_name_char c :
  is_dot c = false -> spec_name_char c = isalnum c.
Proof.
  intros Hd. unfold spec_name_char, isalnum.
  assert (Hn : (N_of_ascii c =? 46)%N = false).
  { apply N.eqb_neq. intros E. unfold is_dot in Hd.
    apply Ascii.eqb_neq in Hd. apply Hd.
    rewrite <- (ascii_N_embedding c), E. reflexivity. }
  rewrite Hn, orb_false_r.
  set (n := N_of_ascii c).
  assert (forall a, (Z.of_N a <=? Z.of_N n) = (a <=? n)%N) as E1.
  { intros a. destruct (N.leb_spec a n); [apply Z.leb_le | apply Z.leb_gt]; lia. }
  assert (forall a, (Z.of_N n <=? Z.of_N a) = (n <=? a)%N) as E2.
  { intros a. destruct (N.leb_spec n a); [apply Z.leb_le | apply Z.leb_gt]; lia. }
  rewrite <- (E1 48%N), <- (E1 65%N), <- (E1 97%N).
  rewrite <- (E2 57%N), <- (E2 90%N), <- (E2 122%N). reflexivity.
Qed.

Lemma first_dot_at_neg (l : list ascii) :
  forall k, k < 0 -> first_dot_at l k = false.
Proof.
  induction l as [|c rest IH]; intros k Hk; cbn; [reflexivity|].
  destruct (is_dot c); [apply Z.eqb_neq; lia | apply IH; lia].
Qed.

(** What the loop computes: the characters are legal, no two dots are
    adjacent, and the first dot met is not at index [dot_at + 1]. *)
Lemma check_state_name_loop_spec (l : list ascii) :
  forall ii dot_at,
    0 <= ii -> 0 <= dot_at < SIZE_MOD - 1 -> ii + Z.of_nat (length l) < SIZE_MOD ->
    check_state_name_loop l ii dot_at
    = forallb spec_name_char l && negb (adjacent_dots l)
      && negb (first_dot_at l (dot_at + 1 - ii)).
Proof.
  induction l as [|c rest IH]; intros ii d Hii Hd Hlen; [reflexivity|].
  cbn [check_state_name_loop forallb adjacent_dots first_dot_at length] in *.
  destruct (is_dot c) eqn:Hc.
  - rewrite (is_dot_spec_name_char c Hc). cbn [andb orb].
    assert (Hcmp : (d mod SIZE_MOD =? (ii - 1) mod SIZE_MOD) = (d + 1 - ii =? 0)).
    { unfold SIZE_MOD in *. rewrite (Z.mod_small d) by lia.
      destruct (Z.eq_dec ii 0) as [->|Hne].
      - change ((0 - 1) mod 2 ^ 64) with (2 ^ 64 - 1).
        transitivity false; [apply Z.eqb_neq | symmetry; apply Z.eqb_neq]; lia.
      - rewrite (Z.mod_small (ii - 1)) by lia.
        destruct (Z.eqb_spec d (ii - 1)); [symmetry; apply Z.eqb_eq | symmetry; apply Z.eqb_neq]; lia. }
    rewrite Hcmp. destruct (d + 1 - ii =? 0) eqn:E.
    + cbn. now rewrite andb_false_r.
    + rewrite IH by (unfold SIZE_MOD in *; lia).
      replace (ii + 1 - (ii + 1)) with 0 by lia.
      assert (Hf : first_dot_at rest 0 = begins_with_dot rest).
      { destruct rest as [|b r]; [reflexivity|]. cbn.
        destruct (is_dot b); [reflexivity | now apply first_dot_at_neg]. }
      rewrite Hf. cbn [negb andb].
      destruct (forallb spec_name_char rest), (begins_with_dot rest), (adjacent_dots rest); reflexivity.
  - rewrite (isalnum_spec_name_char c Hc). cbn [andb orb].
    destruct (isalnum c); cbn [negb andb]; [|reflexivity].
    rewrite IH by (unfold SIZE_MOD in *; lia).
    replace (d + 1 - (ii + 1)) with (d + 1 - ii - 1) by lia. reflexivity.
Qed.

Lemma char_at_list (s : string) (i : Z) :
  char_at s i = nth_char (list_ascii_of_string s) (Z.to_nat i).
Proof. unfold char_at, nth_char. now rewrite get_list. Qed.

Lemma first_char_dot (l : list ascii) :
  is_dot (nth_char l 0) = begins_with_dot l.
Proof. destruct l; reflexivity. Qed.

Lemma last_char_dot (l : list ascii) :
  l <> [] -> is_dot (nth_char l (length l - 1)) = ends_with_dot l.
Proof.
  induction l as [|a [|b r] IH]; intros Hne; [congruence | reflexivity |].
  replace (length (a :: b :: r) - 1)%nat with (S (length (b :: r) - 1)) by (cbn; lia).
  transitivity (ends_with_dot (b :: r)); [|reflexivity].
  rewrite <- IH by discriminate. reflexivity.
Qed.

Lemma first_dot_at_0 (l : list ascii) : first_dot_at l 0 = begins_with_dot l.
Proof.
  destruct l as [|b r]; [reflexivity|]. cbn.
  destruct (is_dot b); [reflexivity | now apply first_dot_at_neg].
Qed.

Lemma first_dot_at_2 (l : list ascii) :
  begins_with_dot l = false -> adjacent_dots l = false ->
  first_dot_at l 2 = is_dot (nth_char l 2).
Proof.
  destruct l as [|a [|b r]]; cbn; intros Ha Hadj; try reflexivity.
  - now rewrite Ha.
  - rewrite Ha in *. cbn in Hadj. change (2 - 1) with 1.
    destruct (is_dot b); cbn in *.
    + apply orb_false_iff in Hadj as [Hr _].
      change (nth_char (a :: b :: r) 2) with (nth_char r 0).
      now rewrite first_char_dot, Hr.
    + change (1 - 1) with 0. rewrite first_dot_at_0.
      change (nth_char (a :: b :: r) 2) with (nth_char r 0).
      now rewrite first_char_dot.
Qed.

(** check_state_name returns the length of the names it accepts. *)
Lemma check_state_name_value (s : string) :
  check_state_name (Some s) = 0 \/ check_state_name (Some s) = strlen s.
Proof.
  unfold check_state_name.
  repeat match goal with |- context [if ?b then _ else _] => destruct b end; auto.
Qed.

(** The names check_state_name accepts are the names the specification
    allows whose third character is not a dot: [dot_at] starts at 1, so a
    first dot at index 2 is taken for the second of two adjacent dots. *)
Lemma check_state_name_accepts_iff (s : string) :
  check_state_name (Some s) <> 0
  <-> spec_valid_name s = true /\ is_dot (char_at s 2) = false.
Proof.
  unfold check_state_name, spec_valid_name, KSTATE_MAX_NAME_LEN, NAME_MAX.
  rewrite !char_at_list. change (Z.to_nat 0) with 0%nat. change (Z.to_nat 2) with 2%nat.
  rewrite first_char_dot.
  pose proof (strlen_list s) as Hlen.
  set (l := list_ascii_of_string s) in *.
  destruct (strlen s =? 0) eqn:H0; cbn [negb andb].
  { split; [congruence | intros [? _]; discriminate]. }
  apply Z.eqb_neq in H0.
  destruct (strlen s >? 255 - 1) eqn:Hmax.
  { assert ((strlen s <=? 254) = false) as -> by (apply Z.leb_gt; lia).
    split; [congruence | intros [? _]; discriminate]. }
  assert ((strlen s <=? 254) = true) as -> by (apply Z.leb_le; lia).
  assert (Hl : l <> []) by (intros E; rewrite E in Hlen; cbn in Hlen; lia).
  replace (Z.to_nat (strlen s - 1)) with (length l - 1)%nat by lia.
  rewrite (last_char_dot l Hl).
  rewrite check_state_name_loop_spec by (unfold SIZE_MOD; lia).
  change (1 + 1 - 0) with 2. cbn [andb].
  destruct (begins_with_dot l) eqn:Hb; cbn [orb negb andb].
  { rewrite andb_false_r. cbn. split; [congruence | intros [? _]; discriminate]. }
  destruct (ends_with_dot l) eqn:He; cbn [orb negb andb].
  { rewrite andb_false_r. cbn. split; [congruence | intros [? _]; discriminate]. }
  rewrite !andb_true_r.
  destruct (forallb spec_name_char l); cbn [andb].
  2: { split; [congruence | intros [? _]; discriminate]. }
  destruct (adjacent_dots l) eqn:Ha; cbn [negb andb].
  { split; [congruence | intros [? _]; discriminate]. }
  rewrite (first_dot_at_2 l Hb Ha).
  destruct (is_dot (nth_char l 2)); cbn [negb]; split; try congruence; try tauto.
  intros [_ ?]; discriminate.
Qed.

(** ** Symbolic execution of the monadic code *)

(** The libc and system-call layer. *)
Ltac kprim :=
  unfold memcmp, memcpy, mem_read, mem_write,
    shm_open, ftruncate, mmap, munmap, mprotect, close, shm_unlink,
    open_fd, create_obj, sysconf_PAGESIZE,
    malloc, free, alloc, memset_state, memset_transaction,
    load_string, store_string,
    assign_state, assign_transaction, load_state, store_state,
    load_transaction, store_transaction,
    fail_with, get_errno, next_fault, update, get_world, crash, bind, ret,
    NULL, MAP_FAILED in *.

Ltac kprimg :=
  unfold memcmp, memcpy, mem_read, mem_write,
    shm_open, ftruncate, mmap, munmap, mprotect, close, shm_unlink,
    open_fd, create_obj, sysconf_PAGESIZE,
    malloc, free, alloc, memset_state, memset_transaction,
    load_string, store_string,
    assign_state, assign_transaction, load_state, store_state,
    load_transaction, store_transaction,
    fail_with, get_errno, next_fault, update, get_world, crash, bind, ret,
    NULL, MAP_FAILED.

Ltac kunfold :=
  unfold kstate_commit_transaction, kstate_abort_transaction, clear_transaction,
    kstate_start_transaction, kstate_free_transaction, kstate_new_transaction,
    kstate_subscribe_state, kstate_unsubscribe_state, kstate_free_state,
    kstate_new_state, new_state_name,
    kstate_get_state_name, kstate_get_state_permissions, kstate_get_state_id,
    kstate_get_state_ptr, kstate_get_transaction_name,
    kstate_get_transaction_permissions, kstate_get_transaction_id,
    kstate_get_transaction_ptr,
    kstate_state_is_subscribed, kstate_transaction_is_active in *;
  kprim.

Ltac ksimpl :=
  cbn [mem brk fds next_fd shm_names shm_objs next_obj shm_writes page_size
       errno faults next_state_id next_transaction_id
       set_mem set_brk set_fds set_next_fd set_shm_names set_shm_objs
       set_next_obj set_shm_writes set_errno set_faults set_next_state_id
       set_next_transaction_id
       st_name st_permissions st_id st_map_addr st_map_length
       set_st_name set_st_permissions set_st_id set_st_map_addr set_st_map_length
       tr_name tr_id tr_permissions tr_state_map_addr tr_state_map_copy
       tr_map_addr tr_map_length
       set_tr_name set_tr_id set_tr_permissions set_tr_state_map_addr
       set_tr_state_map_copy set_tr_map_addr set_tr_map_length
       is_heap negb andb orb fst snd] in *.

Ltac ksimplg :=
  cbn [mem brk fds next_fd shm_names shm_objs next_obj shm_writes page_size
       errno faults next_state_id next_transaction_id
       set_mem set_brk set_fds set_next_fd set_shm_names set_shm_objs
       set_next_obj set_shm_writes set_errno set_faults set_next_state_id
       set_next_transaction_id
       st_name st_permissions st_id st_map_addr st_map_length
       set_st_name set_st_permissions set_st_id set_st_map_addr set_st_map_length
       tr_name tr_id tr_permissions tr_state_map_addr tr_state_map_copy
       tr_map_addr tr_map_length
       set_tr_name set_tr_id set_tr_permissions set_tr_state_map_addr
       set_tr_state_map_copy set_tr_map_addr set_tr_map_length
       is_heap negb andb orb fst snd].

(** Side conditions: equalities and disequalities of addresses by
    congruence, orders by lia (without the disequalities, on which lia
    would split). *)
Ltac klia :=
  repeat match goal with H : _ <> _ |- _ => clear H end; lia.
Ltac kside := first [ assumption | congruence | klia ].

(** Lookups in updated maps, by cases on whether the keys coincide. *)
Ltac kmap :=
  repeat first
    [ rewrite lookup_insert_eq in *
    | rewrite lookup_delete_eq in *
    | rewrite lookup_insert_ne in * by kside
    | rewrite lookup_delete_ne in * by kside ].

Ltac kmapg :=
  repeat first
    [ rewrite lookup_insert_eq
    | rewrite lookup_delete_eq
    | rewrite lookup_insert_ne by kside
    | rewrite lookup_delete_ne by kside ].

Ltac kcase_key :=
  match goal with
  | |- context [<[?a := _]> _ !! ?b] =>
      destruct (decide (a = b)); [subst | ]; kmap
  | H : context [<[?a := _]> _ !! ?b] |- _ =>
      destruct (decide (a = b)); [subst | ]; kmap
  | |- context [delete ?a _ !! ?b] =>
      destruct (decide (a = b)); [subst | ]; kmap
  | H : context [delete ?a _ !! ?b] |- _ =>
      destruct (decide (a = b)); [subst | ]; kmap
  end.

Lemma set_mem_set_mem m m' w : set_mem m (set_mem m' w) = set_mem m w.
Proof. reflexivity. Qed.

Lemma has_rw_read : has PROT_RW PROT_READ = true.
Proof. reflexivity. Qed.
Lemma has_rw_write : has PROT_RW PROT_WRITE = true.
Proof. reflexivity. Qed.
Lemma has_r_read : has PROT_READ PROT_READ = true.
Proof. reflexivity. Qed.
Lemma has_r_write : has PROT_READ PROT_WRITE = false.
Proof. reflexivity. Qed.

(** Comparisons that the context decides. *)
Ltac kbool :=
  match goal with
  | |- context [?a =? ?b] =>
      first [ replace (a =? b) with true by (symmetry; apply Z.eqb_eq; kside)
            | replace (a =? b) with false by (symmetry; apply Z.eqb_neq; kside) ]
  | |- context [?a <=? ?b] =>
      first [ replace (a <=? b) with true by (symmetry; apply Z.leb_le; klia)
            | replace (a <=? b) with false by (symmetry; apply Z.leb_gt; klia) ]
  | |- context [?a <? ?b] =>
      first [ replace (a <? b) with true by (symmetry; apply Z.ltb_lt; klia)
            | replace (a <? b) with false by (symmetry; apply Z.ltb_ge; klia) ]
  end.

(** Flag tests and comparisons between constants. *)
Ltac kclosed :=
  match goal with
  | |- context [has ?a ?b] =>
      let v := eval vm_compute in (has a b) in
      lazymatch v with
      | true => change (has a b) with true
      | false => change (has a b) with false
      end
  | |- context [?a =? ?b] =>
      let v := eval vm_compute in (a =? b) in
      lazymatch v with
      | true => change (a =? b) with true
      | false => change (a =? b) with false
      end
  end.

(** Forward execution along the one path the hypotheses select. *)
Ltac kfwd :=
  repeat first
    [ progress ksimplg
    | match goal with
      | E : ?x = _ |- context [match ?x with _ => _ end] => rewrite E
      end
    | progress kmapg
    | rewrite set_mem_set_mem
    | rewrite has_rw_read
    | rewrite has_rw_write
    | rewrite has_r_read
    | rewrite has_r_write
    | kbool
    | kclosed ].

Lemma bind_Done {A B} (m : M A) (k : A -> M B) w a w' :
  m w = Done a w' -> bind m k w = k a w'.
Proof. unfold bind. now intros ->. Qed.

Lemma bind_Crash {A B} (m : M A) (k : A -> M B) w :
  m w = Crash -> bind m k w = Crash.
Proof. unfold bind. now intros ->. Qed.

(** Evaluate one call of the libc layer: the goal is [m w = Done _ _]. *)
Ltac keval := kprimg; kfwd; reflexivity.

(** Run a sequence of calls, one bind at a time. *)
Ltac kexec :=
  repeat first
    [ progress ksimplg
    | rewrite set_mem_set_mem
    | match goal with
      | E : ?m ?w = Done _ _ |- context [bind ?m ?k ?w] =>
          rewrite (bind_Done m k w _ _ E)
      | |- context [bind ?m ?k ?w] =>
          let E := fresh "E" in
          eassert (m w = Done _ _) as E by keval;
          rewrite (bind_Done m k w _ _ E); clear E
      | E : ?x = _ |- context [match ?x with _ => _ end] => rewrite E
      | E : ?x = true |- context [?x] => progress rewrite E
      | E : ?x = false |- context [?x] => progress rewrite E
      end
    | kbool ].

(** The same on a world given field by field, which the setters then
    keep flat. *)
Ltac kflat :=
  unfold set_mem, set_brk, set_fds, set_next_fd, set_shm_names, set_shm_objs,
    set_next_obj, set_shm_writes, set_errno, set_faults, set_next_state_id,
    set_next_transaction_id;
  ksimplg.

Ltac kexecf :=
  repeat first
    [ progress kflat
    | match goal with
      | |- context [bind ?m ?k ?w] =>
          let E := fresh "E" in
          eassert (m w = Done _ _) as E by (kprimg; kfwd; kflat; reflexivity);
          rewrite (bind_Done m k w _ _ E); clear E
      | E : ?x = _ |- context [match ?x with _ => _ end] => rewrite E
      | E : ?x = true |- context [?x] => progress rewrite E
      | E : ?x = false |- context [?x] => progress rewrite E
      end
    | kbool ].

Ltac kinv :=
  match goal with
  | H : Done _ _ = Done _ _ |- _ => inversion H; subst; clear H
  | H : Crash = Done _ _ |- _ => discriminate H
  | H : Done _ _ = Crash |- _ => discriminate H
  | H : Some _ = Some _ |- _ => inversion H; subst; clear H
  | H : Some _ = None |- _ => discriminate H
  | H : None = Some _ |- _ => discriminate H
  | H : (_ =? _) = true |- _ => apply Z.eqb_eq in H
  | H : (_ =? _) = false |- _ => apply Z.eqb_neq in H
  end.

(** One step: use a known equation for the scrutinee of a match, or split
    on it. *)
Ltac kstep :=
  first
    [ kinv
    | match goal with
      | E : ?x = _ |- context [match ?x with _ => _ end] => rewrite E
      | E : ?x = _, H : context [match ?x with _ => _ end] |- _ => rewrite E in H
      end
    | progress kmap
    | progress ksimpl
    | match goal with
      | H : context [match ?x with _ => _ end] |- _ => destruct x eqn:?
      | |- context [match ?x with _ => _ end] => destruct x eqn:?
      end ].

Ltac krun := kunfold; ksimpl; repeat kstep.

(** Normal form of a chain of field assignments. *)
Ltac kfields :=
  unfold set_st_name, set_st_permissions, set_st_id, set_st_map_addr,
    set_st_map_length, set_tr_name, set_tr_id, set_tr_permissions,
    set_tr_state_map_addr, set_tr_state_map_copy, set_tr_map_addr,
    set_tr_map_length in *;
  ksimpl.

Ltac not_in_gone Hg :=
  repeat match type of Hg with
         | ~ In ?a (?b :: ?l) =>
             let H := fresh "Hne" in
             let H' := fresh "Hg" in
             assert (b <> a) as H by (intros E; apply Hg; left; exact E);
             assert (~ In a l) as H' by (intros ?; apply Hg; right; assumption);
             clear Hg; rename H' into Hg
         end.

(** ** Observers *)

Lemma side_effect_free_repeatable {A} (m : M A) :
  side_effect_free m -> repeatable m.
Proof.
  intros Hm w a b w' H. unfold twice, bind, ret in H.
  destruct (m w) as [a1 w1|] eqn:E1; [|discriminate].
  pose proof (Hm _ _ _ E1) as ->.
  rewrite E1 in H. congruence.
Qed.

Lemma is_subscribed_free p : side_effect_free (kstate_state_is_subscribed p).
Proof. intros w a w' H. krun; reflexivity. Qed.

Lemma is_active_free p : side_effect_free (kstate_transaction_is_active p).
Proof. intros w a w' H. krun; reflexivity. Qed.

Lemma get_transaction_ptr_free p : side_effect_free (kstate_get_transaction_ptr p).
Proof. intros w a w' H. krun; reflexivity. Qed.

(** C10: kstate_state_is_subscribed, kstate_transaction_is_active and the
    eight accessors change nothing: whenever one of them returns, the world
    (hence every field of every handle and every shared region) is the one
    it was called in, and calling it twice in a row gives the same result
    twice. *)
Theorem observers_are_side_effect_free (p : Z) :
  observer (kstate_state_is_subscribed p)
  /\ observer (kstate_transaction_is_active p)
  /\ observer (kstate_get_state_name p)
  /\ observer (kstate_get_state_permissions p)
  /\ observer (kstate_get_state_id p)
  /\ observer (kstate_get_state_ptr p)
  /\ observer (kstate_get_transaction_name p)
  /\ observer (kstate_get_transaction_permissions p)
  /\ observer (kstate_get_transaction_id p)
  /\ observer (kstate_get_transaction_ptr p).
Proof.
  repeat split; try (apply side_effect_free_repeatable);
    intros w a w' H; krun; reflexivity.
Qed.

(** ** Tearing a transaction down *)

Lemma clear_transaction_done w p t nm obj c work prot wprot copy_gone :
  active_transaction w p t nm obj c work prot wprot ->
  (tr_state_map_copy t = NULL /\ copy_gone = [] \/
   (exists snap, tr_state_map_copy t <> NULL
                 /\ mem w !! tr_state_map_copy t = Some (RBuf snap))
   /\ copy_gone = [tr_state_map_copy t]) ->
  exists m',
    clear_transaction p w = Done 0 (set_mem m' w)
    /\ torn_down (mem w) m' p (RTrans (cleared t))
         ([tr_name t; tr_state_map_addr t; tr_map_addr t] ++ copy_gone).
Proof.
  intros (Hp0 & Hp & Hn0 & Hn & Hl0 & Hl1 & Hl & Ho & Hlen & Hw0 & Hw1 & Hw & Hwl & Hpos) Hcopy.
  assert (p <> tr_name t) by congruence.
  assert (p <> tr_state_map_addr t) by congruence.
  assert (p <> tr_map_addr t) by congruence.
  assert (tr_name t <> tr_state_map_addr t) by congruence.
  assert (tr_name t <> tr_map_addr t) by congruence.
  assert (tr_state_map_addr t <> tr_map_addr t) by congruence.
  destruct Hcopy as [[Hc ->] | [(snap & Hc0 & Hc) ->]].
  - unfold clear_transaction, NULL, MAP_FAILED in *. kexec. eexists. split; [reflexivity|].
    repeat split.
    + kmap. unfold cleared, NULL. kfields. rewrite Hc. reflexivity.
    + cbn [app In]. intros a [<-|[<-|[<-|[]]]]; kmap; reflexivity.
    + cbn [app]. intros a Hap Hg. not_in_gone Hg. kmap. reflexivity.
  - assert (p <> tr_state_map_copy t) by congruence.
    assert (tr_name t <> tr_state_map_copy t) by congruence.
    assert (tr_state_map_addr t <> tr_state_map_copy t) by congruence.
    assert (tr_map_addr t <> tr_state_map_copy t) by congruence.
    unfold clear_transaction, NULL, MAP_FAILED in *. kexec. eexists. split; [reflexivity|].
    repeat split.
    + kmap. unfold cleared, NULL. kfields. reflexivity.
    + cbn [app In]. intros a [<-|[<-|[<-|[<-|[]]]]]; kmap; reflexivity.
    + cbn [app]. intros a Hap Hg. not_in_gone Hg. kmap. reflexivity.
Qed.

Lemma inactive_after_tear_down m m' w p t gone :
  p <> NULL ->
  torn_down m m' p (RTrans (cleared t)) gone ->
  kstate_transaction_is_active p (set_mem m' w) = Done false (set_mem m' w).
Proof.
  intros Hp (Hl & _). kunfold. kfwd. reflexivity.
Qed.

(** ** memcmp *)

Lemma byte_to_N_inj (x y : byte) : Byte.to_N x = Byte.to_N y -> x = y.
Proof.
  intros H. pose proof (Byte.of_to_N x) as Hx. pose proof (Byte.of_to_N y) as Hy.
  rewrite H in Hx. congruence.
Qed.

Lemma memcmp_bytes_eq (a b : list byte) :
  length a = length b -> (memcmp_bytes a b = 0 <-> a = b).
Proof.
  revert b. induction a as [|x a IH]; intros [|y b] Hlen; try discriminate.
  - tauto.
  - cbn in Hlen. cbn [memcmp_bytes].
    destruct (Z.eqb_spec (Z.of_N (Byte.to_N x) - Z.of_N (Byte.to_N y)) 0) as [E|E].
    + assert (x = y) by (apply byte_to_N_inj; lia). subst y.
      rewrite IH by lia. split; [intros ->; reflexivity | congruence].
    + split; [intros; lia | intros [= -> _]; lia].
Qed.

Lemma take_all (b : list byte) (n : Z) : blen b = n -> take (Z.to_nat n) b = b.
Proof. unfold blen. intros <-. apply take_ge. lia. Qed.

Lemma blen_live (c : list byte) (n : Z) :
  0 <= n <= blen c -> blen (live_bytes c n) = n.
Proof. unfold blen, live_bytes. intros H. rewrite length_take. lia. Qed.

Lemma blen_overwrite (new old : list byte) :
  blen new <= blen old -> blen (overwrite new old) = blen old.
Proof.
  unfold blen, overwrite. intros H. rewrite length_app, length_drop. lia.
Qed.

(** ** Commit and abort *)

Lemma writable_copy w p t nm obj c snap work :
  writable_transaction w p t nm obj c snap work ->
  (tr_state_map_copy t = NULL /\ [tr_state_map_copy t] = [] \/
   (exists snap, tr_state_map_copy t <> NULL
                 /\ mem w !! tr_state_map_copy t = Some (RBuf snap))
   /\ [tr_state_map_copy t] = [tr_state_map_copy t]).
Proof. intros (_ & _ & Hc0 & Hc & _). right. eauto. Qed.

Lemma readonly_copy w p t nm obj c work :
  readonly_transaction w p t nm obj c work ->
  (tr_state_map_copy t = NULL /\ @nil Z = [] \/
   (exists snap, tr_state_map_copy t <> NULL
                 /\ mem w !! tr_state_map_copy t = Some (RBuf snap))
   /\ [] = [tr_state_map_copy t]).
Proof. intros (_ & _ & Hc). left. auto. Qed.

(** The snapshot no longer matches: -EPERM, nothing is written, and the
    transaction is torn down. *)
Lemma commit_conflict w p t nm obj c snap work :
  writable_transaction w p t nm obj c snap work ->
  live_bytes c (tr_map_length t) <> snap ->
  exists m',
    kstate_commit_transaction p w = Done (- EPERM) (set_mem m' w)
    /\ torn_down (mem w) m' p (RTrans (cleared t))
         [tr_name t; tr_state_map_addr t; tr_map_addr t; tr_state_map_copy t].
Proof.
  intros Hw Hneq.
  destruct (clear_transaction_done w p t nm obj c work PROT_RW PROT_RW _
              (proj1 Hw) (writable_copy _ _ _ _ _ _ _ _ Hw)) as (m' & Hclear & Htd).
  destruct Hw as ((Hp0 & Hp & Hn0 & Hn & Hl0 & Hl1 & Hl & Ho & Hlen & Hw0 & Hw1 & Hw & Hwl & Hpos)
                  & Hperm & Hc0 & Hc & Hcl).
  assert (Hcmp : memcmp_bytes (live_bytes c (tr_map_length t)) snap <> 0).
  { rewrite memcmp_bytes_eq; [exact Hneq|].
    pose proof (blen_live c (tr_map_length t)). unfold blen in *. lia. }
  exists m'. split; [|exact Htd].
  unfold kstate_commit_transaction, kstate_transaction_is_active, NULL.
  unfold live_bytes in Hcmp. rewrite <- (take_all snap _ Hcl) in Hcmp.
  kexec. reflexivity.
Qed.

(** The snapshot matches and the working buffer equals the shared region:
    0, nothing is written, and the transaction is torn down. *)
Lemma commit_nothing_to_write w p t nm obj c snap work :
  writable_transaction w p t nm obj c snap work ->
  live_bytes c (tr_map_length t) = snap ->
  work = live_bytes c (tr_map_length t) ->
  exists m',
    kstate_commit_transaction p w = Done 0 (set_mem m' w)
    /\ torn_down (mem w) m' p (RTrans (cleared t))
         [tr_name t; tr_state_map_addr t; tr_map_addr t; tr_state_map_copy t].
Proof.
  intros Hw Heq Hsame.
  destruct (clear_transaction_done w p t nm obj c work PROT_RW PROT_RW _
              (proj1 Hw) (writable_copy _ _ _ _ _ _ _ _ Hw)) as (m' & Hclear & Htd).
  destruct Hw as ((Hp0 & Hp & Hn0 & Hn & Hl0 & Hl1 & Hl & Ho & Hlen & Hw0 & Hw1 & Hw & Hwl & Hpos)
                  & Hperm & Hc0 & Hc & Hcl).
  assert (Hcmp : memcmp_bytes (live_bytes c (tr_map_length t)) snap = 0).
  { rewrite memcmp_bytes_eq; [exact Heq|].
    pose proof (blen_live c (tr_map_length t)). unfold blen in *. lia. }
  assert (Hcmp2 : memcmp_bytes (live_bytes c (tr_map_length t)) work = 0).
  { rewrite memcmp_bytes_eq; [now symmetry|].
    pose proof (blen_live c (tr_map_length t)). unfold blen in *. lia. }
  exists m'. split; [|exact Htd].
  unfold kstate_commit_transaction, kstate_transaction_is_active, NULL.
  unfold live_bytes in Hcmp, Hcmp2.
  rewrite <- (take_all snap _ Hcl) in Hcmp.
  rewrite <- (take_all work _ Hwl) in Hcmp2.
  kexec. reflexivity.
Qed.

(** The snapshot matches and the working buffer differs: 0, the working
    buffer is stored over the shared region (one logged store), and the
    transaction is torn down. *)
Lemma commit_publishes w p t nm obj c snap work :
  writable_transaction w p t nm obj c snap work ->
  live_bytes c (tr_map_length t) = snap ->
  work <> live_bytes c (tr_map_length t) ->
  exists m',
    kstate_commit_transaction p w
    = Done 0 (set_mem m'
                (set_shm_writes (shm_writes w ++ [(obj, work)])
                   (set_shm_objs (<[obj := overwrite work c]> (shm_objs w)) w)))
    /\ torn_down (mem w) m' p (RTrans (cleared t))
         [tr_name t; tr_state_map_addr t; tr_map_addr t; tr_state_map_copy t].
Proof.
  intros Hw Heq Hdiff.
  set (w1 := set_shm_writes (shm_writes w ++ [(obj, work)])
               (set_shm_objs (<[obj := overwrite work c]> (shm_objs w)) w)).
  assert (Hw1wr : writable_transaction w1 p t nm obj (overwrite work c) snap work).
  { destruct Hw as ((Hp0 & Hp & Hn0 & Hn & Hl0 & Hl1 & Hl & Ho & Hlen & Hw0 & Hw1 & Hw & Hwl & Hpos)
                    & Hperm & Hc0 & Hc & Hcl).
    repeat split; try assumption.
    - subst w1. cbn. apply lookup_insert_eq.
    - rewrite blen_overwrite; lia. }
  destruct (clear_transaction_done w1 p t nm obj _ work PROT_RW PROT_RW _
              (proj1 Hw1wr) (writable_copy _ _ _ _ _ _ _ _ Hw1wr)) as (m' & Hclear & Htd).
  destruct Hw as ((Hp0 & Hp & Hn0 & Hn & Hl0 & Hl1 & Hl & Ho & Hlen & Hw0 & Hw1 & Hw & Hwl & Hpos)
                  & Hperm & Hc0 & Hc & Hcl).
  assert (Hcmp : memcmp_bytes (live_bytes c (tr_map_length t)) snap = 0).
  { rewrite memcmp_bytes_eq; [exact Heq|].
    pose proof (blen_live c (tr_map_length t)). unfold blen in *. lia. }
  assert (Hcmp2 : memcmp_bytes (live_bytes c (tr_map_length t)) work <> 0).
  { rewrite memcmp_bytes_eq; [congruence|].
    pose proof (blen_live c (tr_map_length t)). unfold blen in *. lia. }
  exists m'. split; [|exact Htd].
  unfold kstate_commit_transaction, kstate_transaction_is_active, NULL.
  unfold live_bytes in Hcmp, Hcmp2.
  rewrite <- (take_all snap _ Hcl) in Hcmp.
  rewrite <- (take_all work _ Hwl) in Hcmp2.
  assert (Hwle : blen (take (Z.to_nat (tr_map_length t)) work) <= tr_map_length t).
  { rewrite (take_all work _ Hwl). lia. }
  assert (Hwle2 : blen (take (Z.to_nat (tr_map_length t)) work) <= blen c).
  { rewrite (take_all work _ Hwl). lia. }
  kexec.
  rewrite (take_all work _ Hwl). fold w1.
  rewrite (bind_Done _ _ _ _ _ Hclear). reflexivity.
Qed.

Lemma abort_done w p t nm obj c work prot wprot copy_gone :
  active_transaction w p t nm obj c work prot wprot ->
  (tr_state_map_copy t = NULL /\ copy_gone = [] \/
   (exists snap, tr_state_map_copy t <> NULL
                 /\ mem w !! tr_state_map_copy t = Some (RBuf snap))
   /\ copy_gone = [tr_state_map_copy t]) ->
  exists m',
    kstate_abort_transaction p w = Done 0 (set_mem m' w)
    /\ torn_down (mem w) m' p (RTrans (cleared t))
         ([tr_name t; tr_state_map_addr t; tr_map_addr t] ++ copy_gone).
Proof.
  intros Ha Hcopy.
  destruct (clear_transaction_done _ _ _ _ _ _ _ _ _ _ Ha Hcopy) as (m' & Hclear & Htd).
  destruct Ha as (Hp0 & Hp & Hn0 & Hn & _).
  exists m'. split; [|exact Htd].
  unfold kstate_abort_transaction, kstate_transaction_is_active, NULL in *.
  kexec. exact Hclear.
Qed.

Lemma not_active_after_tear_down m m' w p t gone :
  torn_down m m' p (RTrans (cleared t)) gone -> not_active (set_mem m' w) p.
Proof. intros (Hl & _). right. exists (cleared t). split; [exact Hl | reflexivity]. Qed.

Lemma not_active_rejected w p :
  not_active w p ->
  kstate_commit_transaction p w = Done (- EINVAL) w
  /\ kstate_abort_transaction p w = Done (- EINVAL) w.
Proof.
  unfold kstate_commit_transaction, kstate_abort_transaction,
    kstate_transaction_is_active, NULL.
  intros [-> | (t & Hp & Hn)]; [split; reflexivity|].
  destruct (Z.eqb_spec p 0) as [->|Hp0]; [split; reflexivity|].
  unfold NULL in Hn. split; kexec; reflexivity.
Qed.

Lemma just_ended_not_active w p : just_ended w p -> not_active w p.
Proof.
  intros (w0 & t & nm & obj & c & work & r & [(snap & Hw & [Hc | Ha]) | (Hr & Ha)]).
  - destruct (Z.eq_dec (memcmp_bytes (live_bytes c (tr_map_length t)) snap) 0) as [E|E].
    + assert (El : live_bytes c (tr_map_length t) = snap).
      { apply memcmp_bytes_eq; [|exact E].
        destruct Hw as ((_ & _ & _ & _ & _ & _ & _ & _ & Hlen & _ & _ & _ & _ & Hpos) & _ & _ & _ & Hcl).
        pose proof (blen_live c (tr_map_length t)). unfold blen in *. lia. }
      destruct (Z.eq_dec (memcmp_bytes (live_bytes c (tr_map_length t)) work) 0) as [E2|E2].
      * assert (work = live_bytes c (tr_map_length t)).
        { symmetry. apply memcmp_bytes_eq; [|exact E2].
          destruct Hw as ((_ & _ & _ & _ & _ & _ & _ & _ & Hlen & _ & _ & _ & Hwl & Hpos) & _).
          pose proof (blen_live c (tr_map_length t)). unfold blen in *. lia. }
        destruct (commit_nothing_to_write _ _ _ _ _ _ _ _ Hw El H) as (m' & Hc' & Htd).
        rewrite Hc' in Hc. injection Hc as _ <-.
        eapply not_active_after_tear_down, Htd.
      * assert (work <> live_bytes c (tr_map_length t)).
        { intros ->. apply E2. apply memcmp_bytes_eq; reflexivity. }
        destruct (commit_publishes _ _ _ _ _ _ _ _ Hw El H) as (m' & Hc' & Htd).
        rewrite Hc' in Hc. injection Hc as _ <-.
        eapply not_active_after_tear_down, Htd.
    + assert (live_bytes c (tr_map_length t) <> snap).
      { intros El. apply E. rewrite El. apply memcmp_bytes_eq; reflexivity. }
      destruct (commit_conflict _ _ _ _ _ _ _ _ Hw H) as (m' & Hc' & Htd).
      rewrite Hc' in Hc. injection Hc as _ <-.
      eapply not_active_after_tear_down, Htd.
  - destruct (abort_done _ _ _ _ _ _ _ _ _ _ (proj1 Hw) (writable_copy _ _ _ _ _ _ _ _ Hw))
      as (m' & Ha' & Htd).
    rewrite Ha' in Ha. injection Ha as _ <-.
    eapply not_active_after_tear_down, Htd.
  - destruct (abort_done _ _ _ _ _ _ _ _ _ _ (proj1 Hr) (readonly_copy _ _ _ _ _ _ _ Hr))
      as (m' & Ha' & Htd).
    rewrite Ha' in Ha. injection Ha as _ <-.
    eapply not_active_after_tear_down, Htd.
Qed.

(** C1: commit of an active writable transaction.  If the shared region
    differs from the snapshot, commit returns -EPERM and stores nothing;
    if it equals the snapshot, commit returns 0 and stores the working
    buffer over the shared region exactly when the two differ (one store,
    logged in [shm_writes]; none when they are equal).  In every case the
    transaction's name, mappings and snapshot are released and the handle
    is inactive afterwards. *)
Theorem commit_writable_transaction w p t nm obj c snap work :
  writable_transaction w p t nm obj c snap work ->
  let live := live_bytes c (tr_map_length t) in
  exists r w',
    kstate_commit_transaction p w = Done r w'
    /\ kstate_transaction_is_active p w' = Done false w'
    /\ torn_down (mem w) (mem w') p (RTrans (cleared t))
         [tr_name t; tr_state_map_addr t; tr_map_addr t; tr_state_map_copy t]
    /\ (live <> snap ->
        r = - EPERM /\ shm_objs w' = shm_objs w /\ shm_writes w' = shm_writes w)
    /\ (live = snap ->
        r = 0
        /\ (work <> live ->
            shm_objs w' = <[obj := overwrite work c]> (shm_objs w)
            /\ shm_writes w' = shm_writes w ++ [(obj, work)])
        /\ (work = live ->
            shm_objs w' = shm_objs w /\ shm_writes w' = shm_writes w)).
Proof.
  intros Hw live.
  assert (Hp0 : p <> NULL) by (destruct Hw as ((? & _) & _); assumption).
  assert (Hll : length live = length snap /\ length live = length work).
  { destruct Hw as ((_ & _ & _ & _ & _ & _ & _ & _ & Hlen & _ & _ & _ & Hwl & Hpos) & _ & _ & _ & Hcl).
    pose proof (blen_live c (tr_map_length t)). unfold blen in *. subst live. lia. }
  destruct Hll as [Hls Hlw].
  destruct (Z.eq_dec (memcmp_bytes live snap) 0) as [E|E].
  - apply memcmp_bytes_eq in E; [|exact Hls].
    destruct (Z.eq_dec (memcmp_bytes live work) 0) as [E2|E2].
    + apply memcmp_bytes_eq in E2; [|exact Hlw]. symmetry in E2.
      destruct (commit_nothing_to_write _ _ _ _ _ _ _ _ Hw E E2) as (m' & Hc & Htd).
      exists 0, (set_mem m' w).
      split; [exact Hc|].
      split; [eapply inactive_after_tear_down; eassumption|].
      split; [exact Htd|].
      split; [intros; congruence|].
      intros _. split; [reflexivity|]. split; [intros; congruence|].
      intros _. split; reflexivity.
    + assert (E3 : work <> live).
      { intros ->. apply E2. apply memcmp_bytes_eq; reflexivity. }
      destruct (commit_publishes _ _ _ _ _ _ _ _ Hw E E3) as (m' & Hc & Htd).
      eexists 0, _.
      split; [exact Hc|].
      split; [eapply inactive_after_tear_down; eassumption|].
      split; [exact Htd|].
      split; [intros; congruence|].
      intros _. split; [reflexivity|]. split; [|intros; congruence].
      intros _. split; reflexivity.
  - assert (E3 : live <> snap).
    { intros El. apply E. rewrite El. apply memcmp_bytes_eq; reflexivity. }
    destruct (commit_conflict _ _ _ _ _ _ _ _ Hw E3) as (m' & Hc & Htd).
    exists (- EPERM), (set_mem m' w).
    split; [exact Hc|].
    split; [eapply inactive_after_tear_down; eassumption|].
    split; [exact Htd|].
    split; [|intros; congruence].
    intros _. repeat split; reflexivity.
Qed.

Lemma demo_writable_ok :
  writable_transaction demo_writable demo_handle (demo_transaction 3 115)
    "/kstate.Fred" 1 (zeros 4) (zeros 4) [x12; x34; x56; x78].
Proof.
  repeat split; try (vm_compute; congruence); vm_compute; reflexivity.
Defined.

Lemma demo_readonly_ok :
  readonly_transaction demo_readonly demo_handle (demo_transaction 1 0)
    "/kstate.Fred" 1 (zeros 4) (zeros 4).
Proof.
  repeat split; try (vm_compute; congruence); vm_compute; reflexivity.
Defined.

Lemma commit_writable_transaction_witness :
  exists r w',
    kstate_commit_transaction demo_handle demo_writable = Done r w'
    /\ kstate_transaction_is_active demo_handle w' = Done false w'
    /\ r = 0
    /\ shm_objs w' = <[1 := [x12; x34; x56; x78]]> (shm_objs demo_writable).
Proof.
  destruct (commit_writable_transaction demo_writable demo_handle (demo_transaction 3 115)
              "/kstate.Fred" 1 (zeros 4) (zeros 4) [x12; x34; x56; x78])
    as (r & w' & Hc & Hi & _ & _ & Hpub).
  - repeat split; try (vm_compute; congruence); vm_compute; reflexivity.
  - exists r, w'. destruct Hpub as (Hr & Hw & _); [reflexivity|].
    destruct Hw as [Ho _]; [vm_compute; congruence|].
    repeat split; assumption.
Defined.

(** C4: commit of an active read-only transaction returns -EPERM and
    leaves the world, hence the transaction's name, permissions, mappings
    and working buffer, exactly as it was; the transaction is still
    active, and an abort that follows returns 0. *)
Theorem commit_readonly_transaction w p t nm obj c work :
  readonly_transaction w p t nm obj c work ->
  kstate_commit_transaction p w = Done (- EPERM) w
  /\ kstate_transaction_is_active p w = Done true w
  /\ exists w',
       (r1 <- kstate_commit_transaction p ;;
        r2 <- kstate_abort_transaction p ;;
        ret (r1, r2)) w = Done (- EPERM, 0) w'
       /\ kstate_transaction_is_active p w' = Done false w'.
Proof.
  intros Hr.
  destruct (abort_done _ _ _ _ _ _ _ _ _ _ (proj1 Hr) (readonly_copy _ _ _ _ _ _ _ Hr))
    as (m' & Ha & Htd).
  destruct Hr as ((Hp0 & Hp & Hn0 & Hn & _) & Hperm & Hc).
  assert (Hcommit : kstate_commit_transaction p w = Done (- EPERM) w).
  { unfold kstate_commit_transaction, kstate_transaction_is_active, NULL in *.
    kexec. reflexivity. }
  split; [exact Hcommit|]. split.
  - unfold kstate_transaction_is_active, NULL in *. kexec. reflexivity.
  - exists (set_mem m' w). split.
    + rewrite (bind_Done _ _ _ _ _ Hcommit). cbn beta.
      rewrite (bind_Done _ _ _ _ _ Ha). reflexivity.
    + eapply inactive_after_tear_down; eassumption.
Qed.

Lemma commit_readonly_transaction_witness :
  kstate_commit_transaction demo_handle demo_readonly = Done (- EPERM) demo_readonly
  /\ kstate_transaction_is_active demo_handle demo_readonly = Done true demo_readonly
  /\ exists w',
       (r1 <- kstate_commit_transaction demo_handle ;;
        r2 <- kstate_abort_transaction demo_handle ;;
        ret (r1, r2)) demo_readonly = Done (- EPERM, 0) w'
       /\ kstate_transaction_is_active demo_handle w' = Done false w'.
Proof.
  apply (commit_readonly_transaction demo_readonly demo_handle (demo_transaction 1 0)
           "/kstate.Fred" 1 (zeros 4) (zeros 4)).
  repeat split; try (vm_compute; congruence); vm_compute; reflexivity.
Defined.

(** C5: on a handle that is NULL or not active (never started, or the
    world is the one a commit or an abort of the transaction just
    returned in), commit and abort both return -EINVAL and leave the world,
    hence the transaction, untouched; so a second commit or abort returns
    -EINVAL. *)
Theorem commit_abort_wrong_state w p :
  not_active w p \/ just_ended w p ->
  kstate_commit_transaction p w = Done (- EINVAL) w
  /\ kstate_abort_transaction p w = Done (- EINVAL) w.
Proof.
  intros [H | H]; apply not_active_rejected; [exact H | now apply just_ended_not_active].
Qed.

Lemma commit_abort_wrong_state_witness :
  kstate_commit_transaction demo_handle demo_committed = Done (- EINVAL) demo_committed
  /\ kstate_abort_transaction demo_handle demo_committed = Done (- EINVAL) demo_committed.
Proof.
  apply (commit_abort_wrong_state demo_committed demo_handle).
  right. exists demo_writable, (demo_transaction 3 115), "/kstate.Fred"%string, 1,
           (zeros 4), [x12; x34; x56; x78], 0.
  left. exists (zeros 4). split.
  - repeat split; try (vm_compute; congruence); vm_compute; reflexivity.
  - left. vm_compute. reflexivity.
Defined.

(** ** Inversion of the monadic code *)

Lemma bind_inv {A B} (m : M A) (k : A -> M B) w b w'' :
  bind m k w = Done b w'' ->
  exists a w', m w = Done a w' /\ k a w' = Done b w''.
Proof.
  unfold bind. destruct (m w) as [a w'|]; [eauto | discriminate].
Qed.

Lemma ret_inv {A} (a b : A) w w' : ret a w = Done b w' -> b = a /\ w' = w.
Proof. unfold ret. intros [= -> ->]. auto. Qed.

Lemma load_state_inv p w s w' :
  load_state p w = Done s w' -> w' = w /\ mem w !! p = Some (RState s).
Proof.
  unfold load_state. destruct (mem w !! p) as [[]|]; try discriminate.
  intros [= -> ->]. auto.
Qed.

Lemma load_transaction_inv p w t w' :
  load_transaction p w = Done t w' -> w' = w /\ mem w !! p = Some (RTrans t).
Proof.
  unfold load_transaction. destruct (mem w !! p) as [[]|]; try discriminate.
  intros [= -> ->]. auto.
Qed.

Lemma assign_state_inv p f w u w' :
  assign_state p f w = Done u w' ->
  exists s, mem w !! p = Some (RState s) /\ stored p (RState (f s)) w w'.
Proof.
  unfold assign_state, bind, load_state, store_state.
  destruct (mem w !! p) as [[]|] eqn:E; try discriminate.
  rewrite E. intros [= <-]. unfold stored. eauto.
Qed.

Lemma assign_transaction_inv p f w u w' :
  assign_transaction p f w = Done u w' ->
  exists t, mem w !! p = Some (RTrans t) /\ stored p (RTrans (f t)) w w'.
Proof.
  unfold assign_transaction, bind, load_transaction, store_transaction.
  destruct (mem w !! p) as [[]|] eqn:E; try discriminate.
  rewrite E. intros [= <-]. unfold stored. eauto.
Qed.

Lemma is_subscribed_inv p w b w' :
  kstate_state_is_subscribed p w = Done b w' ->
  w' = w
  /\ (p = NULL /\ b = false
      \/ p <> NULL /\ exists s, mem w !! p = Some (RState s)
                               /\ b = negb (st_name s =? NULL)).
Proof.
  unfold kstate_state_is_subscribed.
  destruct (Z.eqb_spec p NULL) as [->|Hp].
  - intros [= <- <-]. auto.
  - intros H. apply bind_inv in H as (s & w1 & H1 & H2).
    apply load_state_inv in H1 as [-> Hl]. apply ret_inv in H2 as [-> ->].
    split; [reflexivity|]. right. eauto.
Qed.

Lemma is_active_inv p w b w' :
  kstate_transaction_is_active p w = Done b w' ->
  w' = w
  /\ (p = NULL /\ b = false
      \/ p <> NULL /\ exists t, mem w !! p = Some (RTrans t)
                               /\ b = negb (tr_name t =? NULL)).
Proof.
  unfold kstate_transaction_is_active.
  destruct (Z.eqb_spec p NULL) as [->|Hp].
  - intros [= <- <-]. auto.
  - intros H. apply bind_inv in H as (s & w1 & H1 & H2).
    apply load_transaction_inv in H1 as [-> Hl]. apply ret_inv in H2 as [-> ->].
    split; [reflexivity|]. right. eauto.
Qed.

(** ** What the libc and system-call layer leaves alone *)

Lemma nns_refl w : no_new_structs w w.
Proof. split; [lia | auto]. Qed.

Lemma nns_trans w1 w2 w3 :
  no_new_structs w1 w2 -> no_new_structs w2 w3 -> no_new_structs w1 w3.
Proof. intros [H1 H2] [H3 H4]. split; [lia | eauto]. Qed.

Lemma nns_insert a r0 w w' :
  mem w' = <[a := r0]> (mem w) -> is_struct r0 = false -> brk w <= brk w' ->
  no_new_structs w w'.
Proof.
  intros Hm' Hr Hle. split; [lia|].
  intros a' r Hs Hl. rewrite Hm' in Hl.
  apply lookup_insert_Some in Hl as [[<- <-] | [_ Hl]]; [congruence | exact Hl].
Qed.

Lemma nns_delete a w w' :
  mem w' = delete a (mem w) -> brk w <= brk w' -> no_new_structs w w'.
Proof.
  intros Hm' Hle. split; [lia|].
  intros a' r Hs Hl. rewrite Hm' in Hl.
  apply lookup_delete_Some in Hl as [_ Hl]. exact Hl.
Qed.

Lemma nns_same w w' :
  mem w' = mem w -> brk w <= brk w' -> no_new_structs w w'.
Proof. intros Hm Hb. split; [lia|]. intros a r _. now rewrite Hm. Qed.

Ltac nns_solve :=
  first
    [ apply nns_refl
    | apply nns_same; [reflexivity | cbn; lia]
    | eapply nns_insert; [cbn; reflexivity | reflexivity | cbn; lia]
    | eapply nns_delete; [cbn; reflexivity | cbn; lia] ].

(** Every path through one call of the layer. *)
Ltac prim_nns H := kprim; ksimpl; repeat kstep; nns_solve.

Lemma malloc_nns n w a w' : malloc n w = Done a w' -> no_new_structs w w'.
Proof. intros H. prim_nns H. Qed.

Lemma free_nns p w u w' : free p w = Done u w' -> no_new_structs w w'.
Proof. intros H. prim_nns H. Qed.

Lemma load_string_nns p w s w' : load_string p w = Done s w' -> no_new_structs w w'.
Proof. intros H. prim_nns H. Qed.

Lemma store_string_nns p s w u w' : store_string p s w = Done u w' -> no_new_structs w w'.
Proof. intros H. prim_nns H. Qed.

Lemma mem_read_nns p n w bs w' : mem_read p n w = Done bs w' -> no_new_structs w w'.
Proof. intros H. prim_nns H. Qed.

Lemma mem_write_nns p bs w u w' : mem_write p bs w = Done u w' -> no_new_structs w w'.
Proof. intros H. prim_nns H. Qed.

Lemma get_errno_nns w e w' : get_errno w = Done e w' -> no_new_structs w w'.
Proof. intros H. prim_nns H. Qed.

Lemma sysconf_nns w e w' : sysconf_PAGESIZE w = Done e w' -> no_new_structs w w'.
Proof. intros H. prim_nns H. Qed.

Lemma shm_open_nns name fl md w fd w' :
  shm_open name fl md w = Done fd w' -> no_new_structs w w'.
Proof. intros H. prim_nns H. Qed.

Lemma ftruncate_nns fd n w r w' : ftruncate fd n w = Done r w' -> no_new_structs w w'.
Proof. intros H. prim_nns H. Qed.

Lemma mmap_nns a n pr fl fd off w r w' :
  mmap a n pr fl fd off w = Done r w' -> no_new_structs w w'.
Proof. intros H. prim_nns H. Qed.

Lemma munmap_nns a n w r w' : munmap a n w = Done r w' -> no_new_structs w w'.
Proof. intros H. prim_nns H. Qed.

Lemma mprotect_nns a n pr w r w' : mprotect a n pr w = Done r w' -> no_new_structs w w'.
Proof. intros H. prim_nns H. Qed.

Lemma close_nns fd w r w' : close fd w = Done r w' -> no_new_structs w w'.
Proof. intros H. prim_nns H. Qed.

Lemma shm_unlink_nns name w r w' : shm_unlink name w = Done r w' -> no_new_structs w w'.
Proof. intros H. prim_nns H. Qed.

Lemma memcmp_nns p q n w r w' : memcmp p q n w = Done r w' -> no_new_structs w w'.
Proof.
  unfold memcmp. intros H.
  apply bind_inv in H as (a & w1 & H1 & H).
  apply bind_inv in H as (b & w2 & H2 & H).
  apply ret_inv in H as [_ ->].
  eapply nns_trans; eauto using mem_read_nns.
Qed.

Lemma memcpy_nns p q n w r w' : memcpy p q n w = Done r w' -> no_new_structs w w'.
Proof.
  unfold memcpy. intros H.
  apply bind_inv in H as (a & w1 & H1 & H).
  eapply nns_trans; eauto using mem_read_nns, mem_write_nns.
Qed.

Lemma get_world_inv w x w' : get_world w = Done x w' -> x = w /\ w' = w.
Proof. unfold get_world. intros [= -> ->]. auto. Qed.

Lemma update_nns (f : world -> world) w u w' :
  (forall w, mem (f w) = mem w /\ brk (f w) = brk w) ->
  update f w = Done u w' -> no_new_structs w w'.
Proof.
  unfold update. intros Hf H. injection H as H. subst w'.
  destruct (Hf w) as [Hm Hb]. apply nns_same; [exact Hm | lia].
Qed.

Lemma memset_state_inv p w u w' :
  memset_state p w = Done u w' -> p <> NULL /\ stored p (RState zero_state) w w'.
Proof.
  unfold memset_state, crash, stored. destruct (Z.eqb_spec p NULL); [discriminate|].
  destruct (mem w !! p) as [[]|]; try discriminate.
  destruct (sizeof_state <=? size); [|discriminate]. intros [= <-]. auto.
Qed.

Lemma memset_transaction_inv p w u w' :
  memset_transaction p w = Done u w' ->
  p <> NULL /\ stored p (RTrans zero_transaction) w w'.
Proof.
  unfold memset_transaction, crash, stored. destruct (Z.eqb_spec p NULL); [discriminate|].
  destruct (mem w !! p) as [[]|]; try discriminate.
  destruct (sizeof_transaction <=? size); [|discriminate]. intros [= <-]. auto.
Qed.

(** ** Following one handle through a call *)

Lemma nnsx_refl p w : no_new_structs_except p w w.
Proof. split; [lia | auto]. Qed.

Lemma nnsx_nns p w0 w w' :
  no_new_structs w w' -> no_new_structs_except p w0 w ->
  no_new_structs_except p w0 w'.
Proof. intros [H1 H2] [H3 H4]. split; [lia | eauto]. Qed.

Lemma nnsx_trans p w0 w w' :
  no_new_structs_except p w w' -> no_new_structs_except p w0 w ->
  no_new_structs_except p w0 w'.
Proof. intros [H1 H2] [H3 H4]. split; [lia | eauto]. Qed.

Lemma nnsx_store p r' w0 w w' :
  stored p r' w w' ->
  no_new_structs_except p w0 w -> no_new_structs_except p w0 w'.
Proof.
  unfold stored. intros -> [H1 H2]. split; [exact H1|].
  intros a r Ha Hs Hl. cbn in Hl. rewrite lookup_insert_ne in Hl by congruence. eauto.
Qed.

Lemma cur_nns p r0 w w' : no_new_structs w w' -> cur p r0 w -> cur p r0 w'.
Proof. intros [_ H] Hc r Hs Hl. eauto. Qed.

Lemma cur_store p r' w w' : stored p r' w w' -> cur p r' w'.
Proof.
  unfold stored. intros -> r Hs Hl. cbn in Hl. rewrite lookup_insert_eq in Hl. congruence.
Qed.

Lemma cur_init p r w : mem w !! p = Some r -> cur p r w.
Proof. intros H r' _ H'. congruence. Qed.

Lemma brk_nns w w' : no_new_structs w w' -> 0 < brk w -> 0 < brk w'.
Proof. intros [H _] ?. lia. Qed.

Lemma brk_store p r' w w' :
  stored p r' w w' -> 0 < brk w -> 0 < brk w'.
Proof. unfold stored. intros -> ?. exact H. Qed.

Lemma handles_ok_finish p r0 w0 w :
  handles_ok w0 -> no_new_structs_except p w0 w -> cur p r0 w ->
  region_ok r0 -> handles_ok w.
Proof.
  intros [Hb Hs] [Hle Hx] Hc Hr. split; [lia|].
  intros a r Hstr Hl. destruct (decide (a = p)) as [->|Hne].
  - rewrite (Hc r Hstr Hl). exact Hr.
  - eapply Hs; eauto.
Qed.

Lemma handles_ok_nns w0 w : handles_ok w0 -> no_new_structs w0 w -> handles_ok w.
Proof.
  intros [Hb Hs] [Hle Hx]. split; [lia|]. intros a r Hstr Hl. eapply Hs; eauto.
Qed.

Lemma malloc_result n w a w' : malloc n w = Done a w' -> 0 < brk w -> a = 0 \/ 0 < a.
Proof. intros H Hb. kprim; ksimpl; repeat kstep; auto. Qed.

Lemma mmap_result a n pr fl fd off w r w' :
  mmap a n pr fl fd off w = Done r w' -> 0 < brk w -> r = -1 \/ 0 < r /\ 0 < n.
Proof.
  intros H Hb. kprim; ksimpl; repeat kstep; auto; right; split; (assumption || lia).
Qed.

Lemma munmap_result a n w r w' : munmap a n w = Done r w' -> r = 0 \/ n <= 0.
Proof. intros H. kprim; ksimpl; repeat kstep; auto; right; lia. Qed.

(** Carry the facts about world [w] over to [w1]. *)
Ltac push_nns N0 :=
  let T := type of N0 in
  lazymatch goal with N : T |- _ =>
  lazymatch T with
  | no_new_structs ?w ?w1 =>
      repeat match goal with
             | H : no_new_structs_except ?p ?w0 w |- _ =>
                 apply (nnsx_nns p w0 w w1 N) in H
             | H : cur ?p ?r w |- _ => apply (cur_nns p r w w1 N) in H
             | H : 0 < brk w |- _ => apply (brk_nns w w1 N) in H
             end
  end end.

Ltac push_store E0 :=
  let T := type of E0 in
  lazymatch goal with E : T |- _ =>
  lazymatch T with
  | stored ?p ?r' ?w ?w1 =>
      repeat match goal with
             | H : no_new_structs_except p ?w0 w |- _ =>
                 apply (nnsx_store p r' w0 w w1 E) in H
             | H : cur p ?r w |- _ => clear H
             | H : 0 < brk w |- _ => apply (brk_store p r' w w1 E) in H
             end;
      pose proof (cur_store p r' w w1 E)
  end end.

(** What a load through the followed handle returns. *)
Ltac use_cur Hl0 :=
  let T := type of Hl0 in
  lazymatch goal with Hl : T |- _ =>
  lazymatch T with
  | mem ?w !! ?p = Some ?r =>
      lazymatch goal with
      | C : cur p ?r0 w |- _ =>
          let E := fresh "E" in
          pose proof (C r eq_refl Hl) as E;
          inversion E; subst; clear E
      | _ => pose proof (cur_init p r w Hl)
      end
  end end.

Ltac prim_fact H0 :=
  let T := type of H0 in
  lazymatch goal with H : T |- _ =>
  lazymatch T with
  | malloc _ ?w = Done _ _ =>
      try match goal with B : 0 < brk w |- _ => pose proof (malloc_result _ _ _ _ H B) end
  | mmap _ _ _ _ _ _ ?w = Done _ _ =>
      try match goal with B : 0 < brk w |- _ =>
            pose proof (mmap_result _ _ _ _ _ _ _ _ _ H B) end
  | munmap _ _ _ = Done _ _ => pose proof (munmap_result _ _ _ _ _ H)
  | _ => idtac
  end end.

Ltac prim_frame H0 :=
  let T := type of H0 in
  lazymatch goal with H : T |- _ =>
  let N := fresh "N" in
  first
    [ pose proof (malloc_nns _ _ _ _ H) as N
    | pose proof (free_nns _ _ _ _ H) as N
    | pose proof (load_string_nns _ _ _ _ H) as N
    | pose proof (store_string_nns _ _ _ _ _ H) as N
    | pose proof (mem_read_nns _ _ _ _ _ H) as N
    | pose proof (mem_write_nns _ _ _ _ _ H) as N
    | pose proof (get_errno_nns _ _ _ H) as N
    | pose proof (sysconf_nns _ _ _ H) as N
    | pose proof (shm_open_nns _ _ _ _ _ _ H) as N
    | pose proof (ftruncate_nns _ _ _ _ _ H) as N
    | pose proof (mmap_nns _ _ _ _ _ _ _ _ _ H) as N
    | pose proof (munmap_nns _ _ _ _ _ H) as N
    | pose proof (mprotect_nns _ _ _ _ _ _ H) as N
    | pose proof (close_nns _ _ _ _ H) as N
    | pose proof (shm_unlink_nns _ _ _ _ H) as N
    | pose proof (memcmp_nns _ _ _ _ _ _ H) as N
    | pose proof (memcpy_nns _ _ _ _ _ _ H) as N
    | lazymatch T with
      | update ?f _ = Done _ _ =>
          pose proof (update_nns f _ _ _ (fun w => conj eq_refl eq_refl) H) as N
      end ];
  prim_fact H; push_nns N; clear N
  end.

Ltac kchain H :=
  cbn beta iota in H;
  lazymatch type of H with
  | bind ?m ?k ?w = Done _ _ =>
      let Hm := fresh "Hm" in
      apply bind_inv in H as (? & ? & Hm & H);
      kchain Hm; kchain H
  | ret _ _ = Done _ _ => apply ret_inv in H as [? ?]; subst
  | crash _ = Done _ _ => discriminate H
  | (if ?c then _ else _) _ = Done _ _ => destruct c eqn:?; kchain H
  | load_state _ _ = Done _ _ =>
      apply load_state_inv in H as [? H]; subst; use_cur H
  | load_transaction _ _ = Done _ _ =>
      apply load_transaction_inv in H as [? H]; subst; use_cur H
  | assign_state _ _ _ = Done _ _ =>
      let Hl := fresh "Hl" in let E := fresh "E" in
      apply assign_state_inv in H as (? & Hl & E);
      use_cur Hl; push_store E; clear E
  | assign_transaction _ _ _ = Done _ _ =>
      let Hl := fresh "Hl" in let E := fresh "E" in
      apply assign_transaction_inv in H as (? & Hl & E);
      use_cur Hl; push_store E; clear E
  | get_world _ = Done _ _ => apply get_world_inv in H as [? ?]; subst
  | memset_state _ _ = Done _ _ =>
      let E := fresh "E" in
      apply memset_state_inv in H as [? E]; push_store E; clear E
  | memset_transaction _ _ = Done _ _ =>
      let E := fresh "E" in
      apply memset_transaction_inv in H as [? E]; push_store E; clear E
  | kstate_state_is_subscribed _ _ = Done _ _ =>
      let Hl := fresh "Hl" in
      apply is_subscribed_inv in H as [? [[? ?]|[? (? & Hl & ?)]]]; subst;
      [ | use_cur Hl ]
  | kstate_transaction_is_active _ _ = Done _ _ =>
      let Hl := fresh "Hl" in
      apply is_active_inv in H as [? [[? ?]|[? (? & Hl & ?)]]]; subst;
      [ | use_cur Hl ]
  | _ => prim_frame H
  end.

(** Boolean tests recorded along a path, as propositions. *)
Ltac kprops :=
  repeat match goal with
         | H : negb _ = true |- _ => apply negb_true_iff in H
         | H : negb _ = false |- _ => apply negb_false_iff in H
         | H : _ && _ = true |- _ => apply andb_true_iff in H as [? ?]
         | H : (_ =? _) = true |- _ => apply Z.eqb_eq in H
         | H : (_ =? _) = false |- _ => apply Z.eqb_neq in H
         | H : (_ <? _) = true |- _ => apply Z.ltb_lt in H
         | H : (_ <? _) = false |- _ => apply Z.ltb_ge in H
         | H : (_ <=? _) = true |- _ => apply Z.leb_le in H
         | H : (_ <=? _) = false |- _ => apply Z.leb_gt in H
         end.

(** What clear_transaction does to the struct: the id stays; either the
    name is cleared, or a munmap failed (which takes a length that is not
    positive) and name, permissions and working buffer are as before. *)
Lemma clear_transaction_inv p w r w' :
  clear_transaction p w = Done r w' ->
  exists t t',
    mem w !! p = Some (RTrans t)
    /\ no_new_structs_except p w w'
    /\ cur p (RTrans t') w'
    /\ tr_id t' = tr_id t
    /\ (tr_name t' = NULL
        \/ tr_map_length t <= 0
           /\ tr_name t' = tr_name t /\ tr_permissions t' = tr_permissions t
           /\ tr_map_addr t' = tr_map_addr t
           /\ (tr_state_map_addr t <> NULL /\ tr_state_map_addr t <> MAP_FAILED
               \/ tr_map_addr t <> NULL /\ tr_map_addr t <> MAP_FAILED)).
Proof.
  intros H. pose proof (nnsx_refl p w) as X.
  unfold clear_transaction in H.
  kchain H;
    (eexists _, _; split; [eassumption|]; split; [eassumption|];
     split; [eassumption|]; kprops; kfields; split; [reflexivity|];
     first [ left; (reflexivity || assumption)
           | right; split; [ unfold NULL in *; lia | ];
             repeat split; try reflexivity; tauto ]).
Qed.

Lemma brk_nnsx p w w' : no_new_structs_except p w w' -> 0 < brk w -> 0 < brk w'.
Proof. intros [H _] ?. lia. Qed.

Ltac push_nnsx N0 :=
  let T := type of N0 in
  lazymatch goal with N : T |- _ =>
  lazymatch T with
  | no_new_structs_except ?p ?w ?w1 =>
      repeat match goal with
             | H : no_new_structs_except p ?w0 w |- _ =>
                 apply (nnsx_trans p w0 w w1 N) in H
             | H : cur p _ w |- _ => clear H
             | H : 0 < brk w |- _ => apply (brk_nnsx p w w1 N) in H
             end
  end end.

(** [kchain] through code that calls clear_transaction. *)
Lemma nnsx_weaken p w w' :
  no_new_structs w w' -> no_new_structs_except p w w'.
Proof. intros [H1 H2]. split; [exact H1 | eauto]. Qed.

Ltac kchain2 H :=
  cbn beta iota in H;
  lazymatch type of H with
  | bind ?m ?k ?w = Done _ _ =>
      let Hm := fresh "Hm" in
      apply bind_inv in H as (? & ? & Hm & H);
      kchain2 Hm; kchain2 H
  | (if ?c then _ else _) _ = Done _ _ => destruct c eqn:?; kchain2 H
  | (match ?o with _ => _ end) _ = Done _ _ => destruct o eqn:?; kchain2 H
  | clear_transaction _ _ = Done _ _ =>
      let Hl := fresh "Hl" in let Nx := fresh "Nx" in
      let C := fresh "C" in let Hd := fresh "Hd" in
      apply clear_transaction_inv in H as (? & ? & Hl & Nx & C & ? & Hd);
      use_cur Hl; push_nnsx Nx; clear Nx;
      destruct Hd as [? | (? & ? & ? & ? & [[? ?] | [? ?]])]
  | _ => kchain H
  end.

(** The handles the invariant already covers. *)
Lemma handles_ok_lookup w a r : handles_ok w -> mem w !! a = Some r -> region_ok r.
Proof.
  intros [_ Hs] Hl. destruct (is_struct r) eqn:E; [eapply Hs; eauto|].
  destruct r; try exact I; discriminate.
Qed.

Ltac known_ok Hok :=
  lazymatch type of Hok with
  | handles_ok ?w0 =>
      repeat match goal with
             | Hl : mem w0 !! ?a = Some (RState ?s) |- _ =>
                 lazymatch goal with
                 | _ : state_ok s |- _ => fail
                 | _ => pose proof (handles_ok_lookup w0 a _ Hok Hl : state_ok s)
                 end
             | Hl : mem w0 !! ?a = Some (RTrans ?t) |- _ =>
                 lazymatch goal with
                 | _ : trans_ok t |- _ => fail
                 | _ => pose proof (handles_ok_lookup w0 a _ Hok Hl : trans_ok t)
                 end
             end
  end.

(** READ is added to permissions that lack it, so they are never 0. *)
Lemma read_added_nonzero perms :
  (if negb (has perms KSTATE_READ) then Z.lor perms KSTATE_READ else perms) <> 0.
Proof.
  unfold has. destruct (Z.eqb_spec (Z.land perms KSTATE_READ) 0) as [E|E]; cbn [negb].
  - intros H. apply Z.lor_eq_0_iff in H as [_ H]. discriminate H.
  - intros ->. apply E. reflexivity.
Qed.

Ltac ok_fields :=
  cbn [region_ok]; unfold state_ok, trans_ok, NULL, MAP_FAILED in *;
  kprops; kfields;
  repeat match goal with
         | H : ?f ?t = _ |- context [?f ?t] => is_var t; rewrite H
         end;
  try tauto;
  try (intros; repeat split;
       first [ assumption | apply read_added_nonzero | klia | lia ]).

Ltac finish_ok Hok :=
  known_ok Hok;
  first
    [ exact Hok
    | exfalso; kprops; unfold NULL, MAP_FAILED in *; kfields; first [congruence | klia]
    | lazymatch goal with
      | X : no_new_structs_except ?p ?w0 ?w, C : cur ?p ?r ?w |- handles_ok ?w =>
          apply (handles_ok_finish p r w0 w Hok X C); ok_fields
      end ].

Ltac start_chain Hok p w :=
  let X := fresh "X" in let B := fresh "B" in
  pose proof (nnsx_refl p w) as X; pose proof (proj1 Hok) as B.

(** ** Every operation preserves the handle invariant *)

Lemma unsubscribe_ok p w u w' :
  handles_ok w -> kstate_unsubscribe_state p w = Done u w' -> handles_ok w'.
Proof.
  intros Hok H. start_chain Hok p w.
  unfold kstate_unsubscribe_state in H.
  kchain2 H; finish_ok Hok.
Qed.

Lemma subscribe_ok p name perms w r w' :
  handles_ok w -> kstate_subscribe_state p name perms w = Done r w' -> handles_ok w'.
Proof.
  intros Hok H. start_chain Hok p w.
  unfold kstate_subscribe_state, new_state_name in H.
  kchain2 H; finish_ok Hok.
Qed.

Lemma start_ok p q perms w r w' :
  handles_ok w -> kstate_start_transaction p q perms w = Done r w' -> handles_ok w'.
Proof.
  intros Hok H. start_chain Hok p w.
  unfold kstate_start_transaction in H.
  kchain2 H; finish_ok Hok.
Qed.

Lemma abort_ok p w r w' :
  handles_ok w -> kstate_abort_transaction p w = Done r w' -> handles_ok w'.
Proof.
  intros Hok H. start_chain Hok p w.
  unfold kstate_abort_transaction in H.
  kchain2 H; finish_ok Hok.
Qed.

Lemma commit_ok p w r w' :
  handles_ok w -> kstate_commit_transaction p w = Done r w' -> handles_ok w'.
Proof.
  intros Hok H. start_chain Hok p w.
  unfold kstate_commit_transaction in H.
  kchain2 H; finish_ok Hok.
Qed.

Lemma free_state_ok p w r w' :
  handles_ok w -> kstate_free_state p w = Done r w' -> handles_ok w'.
Proof.
  intros Hok H. unfold kstate_free_state in H.
  destruct p as [p|]; [|apply ret_inv in H as [_ ->]; exact Hok].
  destruct (negb (p =? NULL)); [|apply ret_inv in H as [_ ->]; exact Hok].
  apply bind_inv in H as (sub & w1 & H1 & H).
  apply is_subscribed_inv in H1 as [-> _].
  apply bind_inv in H as (u & w2 & H2 & H).
  apply bind_inv in H as (u' & w3 & H3 & H).
  apply ret_inv in H as [_ ->].
  assert (Hok2 : handles_ok w2).
  { destruct sub; [eapply unsubscribe_ok; eauto | apply ret_inv in H2 as [_ ->]; exact Hok]. }
  eapply handles_ok_nns; [exact Hok2 | eapply free_nns; eauto].
Qed.

Lemma free_transaction_ok p w r w' :
  handles_ok w -> kstate_free_transaction p w = Done r w' -> handles_ok w'.
Proof.
  intros Hok H. unfold kstate_free_transaction in H.
  destruct p as [p|]; [|apply ret_inv in H as [_ ->]; exact Hok].
  destruct (negb (p =? NULL)); [|apply ret_inv in H as [_ ->]; exact Hok].
  apply bind_inv in H as (act & w1 & H1 & H).
  apply is_active_inv in H1 as [-> _].
  apply bind_inv in H as (u & w2 & H2 & H).
  apply bind_inv in H as (u' & w3 & H3 & H).
  apply ret_inv in H as [_ ->].
  assert (Hok2 : handles_ok w2).
  { destruct act; [|apply ret_inv in H2 as [_ ->]; exact Hok].
    apply bind_inv in H2 as (rv & w4 & H4 & H2). apply ret_inv in H2 as [_ ->].
    eapply abort_ok; eauto. }
  eapply handles_ok_nns; [exact Hok2 | eapply free_nns; eauto].
Qed.

Lemma new_state_ok w p w' :
  handles_ok w -> kstate_new_state w = Done p w' -> handles_ok w'.
Proof.
  intros Hok H. unfold kstate_new_state in H.
  apply bind_inv in H as (new & w1 & Hm & H).
  assert (Hok1 : handles_ok w1) by (eapply handles_ok_nns; eauto using malloc_nns).
  start_chain Hok1 new w1.
  kchain2 H; finish_ok Hok1.
Qed.

Lemma new_transaction_ok w p w' :
  handles_ok w -> kstate_new_transaction w = Done p w' -> handles_ok w'.
Proof.
  intros Hok H. unfold kstate_new_transaction in H.
  apply bind_inv in H as (new & w1 & Hm & H).
  assert (Hok1 : handles_ok w1) by (eapply handles_ok_nns; eauto using malloc_nns).
  start_chain Hok1 new w1.
  kchain2 H; finish_ok Hok1.
Qed.

Lemma user_write_ok p bs w u w' :
  handles_ok w -> user_write p bs w = Done u w' -> handles_ok w'.
Proof.
  intros Hok H. unfold user_write in H.
  apply bind_inv in H as (q & w1 & H1 & H).
  pose proof (get_transaction_ptr_free p _ _ _ H1) as ->.
  destruct (q =? NULL); [apply ret_inv in H as [_ ->]; exact Hok|].
  eapply handles_ok_nns; eauto using mem_write_nns.
Qed.

Lemma run_call_ok c w u w' :
  handles_ok w -> run_call c w = Done u w' -> handles_ok w'.
Proof.
  intros Hok H. destruct c; cbn [run_call] in H;
    try (apply bind_inv in H as (r & w1 & H1 & H); apply ret_inv in H as [_ ->]).
  - eapply new_state_ok; eauto.
  - eapply free_state_ok; eauto.
  - eapply subscribe_ok; eauto.
  - eapply unsubscribe_ok; eauto.
  - eapply new_transaction_ok; eauto.
  - eapply free_transaction_ok; eauto.
  - eapply start_ok; eauto.
  - eapply abort_ok; eauto.
  - eapply commit_ok; eauto.
  - eapply user_write_ok; eauto.
Qed.

Lemma reachable_ok w : reachable w -> handles_ok w.
Proof.
  induction 1 as [w [Hm Hb] | w c u w' _ IH Hc | w names objs _ IH].
  - split; [exact Hb|]. intros a r _ Hl. rewrite Hm, lookup_empty in Hl. discriminate.
  - eapply run_call_ok; eauto.
  - exact IH.
Qed.

Lemma handles_ok_observations w : handles_ok w -> observations_agree w.
Proof.
  intros Hok. split.
  - intros p [-> | (s & Hl)].
    + exists false, NULL, NULL, 0. repeat split; try reflexivity; try congruence.
    + pose proof (handles_ok_lookup _ _ _ Hok Hl) as Hs. cbn in Hs. unfold state_ok in Hs.
      destruct (Z.eq_dec p 0) as [->|Hp0].
      { exists false, NULL, NULL, 0. repeat split; try reflexivity; try congruence. }
      unfold state_observations_agree, kstate_get_state_name, kstate_get_state_ptr,
        kstate_get_state_permissions, kstate_state_is_subscribed,
        KSTATE_NAME_PREFIX_LEN, NULL in *.
      destruct (Z.eq_dec (st_name s) 0) as [E|E].
      * exists false, 0, 0, 0. repeat split; try congruence; kexec; rewrite ?E; reflexivity.
      * destruct (Hs E) as (Hpos & Hq & Hm).
        exists true, (st_name s + 8), (st_map_addr s), (st_permissions s).
        repeat split; try (intros; (assumption || lia)); kexec; reflexivity.
  - intros p [-> | (t & Hl)].
    + exists false, NULL, NULL, 0. repeat split; try reflexivity; try congruence.
    + pose proof (handles_ok_lookup _ _ _ Hok Hl) as Hs. cbn in Hs. unfold trans_ok in Hs.
      destruct (Z.eq_dec p 0) as [->|Hp0].
      { exists false, NULL, NULL, 0. repeat split; try reflexivity; try congruence. }
      unfold transaction_observations_agree, kstate_get_transaction_name,
        kstate_get_transaction_ptr, kstate_get_transaction_permissions,
        kstate_transaction_is_active, KSTATE_NAME_PREFIX_LEN, NULL in *.
      destruct (Z.eq_dec (tr_name t) 0) as [E|E].
      * exists false, 0, 0, 0. repeat split; try congruence; kexec; rewrite ?E; reflexivity.
      * destruct (Hs E) as (Hpos & Hq & Hm).
        exists true, (tr_name t + 8), (tr_map_addr t), (tr_permissions t).
        repeat split; try (intros; (assumption || lia)); kexec; reflexivity.
Qed.

(** C6: in every reachable world and for every State handle S of it (and
    for NULL), kstate_state_is_subscribed (S), kstate_get_state_name (S)
    being non-NULL, kstate_get_state_ptr (S) being non-NULL and
    kstate_get_state_permissions (S) being nonzero are equivalent, and
    likewise for every Transaction handle; whatever call is made next
    (new, subscribe, unsubscribe, start, commit, abort, free, or a store
    through a transaction pointer), the same holds in the world it
    returns in. *)
Theorem handle_observations_agree w :
  reachable w ->
  observations_agree w
  /\ forall c u w', run_call c w = Done u w' -> observations_agree w'.
Proof.
  intros Hr. pose proof (reachable_ok w Hr) as Hok. split.
  - now apply handles_ok_observations.
  - intros c u w' Hc. apply handles_ok_observations. eapply run_call_ok; eauto.
Qed.

Lemma handle_observations_agree_witness :
  observations_agree demo_writable
  /\ forall c u w', run_call c demo_writable = Done u w' -> observations_agree w'.
Proof.
  apply (handle_observations_agree demo_writable).
  eapply (reach_call _ (UserWrite 50 [x12; x34; x56; x78])).
  - eapply (reach_call _ (Start 50 1 2)).
    + eapply (reach_call _ NewTransaction).
      * eapply (reach_call _ (Subscribe 1 (Some "Fred"%string) 3)).
        -- eapply (reach_call _ NewState).
           ++ apply (reach_init (init_world 4 [])). split; reflexivity.
           ++ vm_compute. reflexivity.
        -- vm_compute. reflexivity.
      * vm_compute. reflexivity.
    + vm_compute. reflexivity.
  - vm_compute. reflexivity.
Defined.

(** ** Identifiers *)

Lemma new_state_inv w h w' :
  kstate_new_state w = Done h w' ->
  h = brk w /\ h <> NULL
  /\ mem w' = <[h := RState (set_st_id (next_state_id w) zero_state)]> (mem w)
  /\ brk w' = brk w + sizeof_state
  /\ next_state_id w' = bump (next_state_id w).
Proof.
  intros H. unfold kstate_new_state in H. kprim. ksimpl.
  repeat kstep; try (exfalso; congruence);
    (split; [reflexivity|]; split; [assumption|]; split; [now rewrite !insert_insert_eq|];
     split; [reflexivity|]; unfold bump;
     first [ now rewrite Heqb | apply Z.eqb_neq in Heqb; now rewrite Heqb ]).
Qed.

Lemma bump_distinct n :
  0 < n < UINT32_MOD -> 0 < bump n < UINT32_MOD /\ bump n <> n.
Proof.
  unfold bump, UINT32_MOD. intros Hn.
  destruct (Z.eqb_spec ((n + 1) mod 2 ^ 32) 0) as [E|E].
  - split; [lia|]. intros <-. change ((1 + 1) mod 2 ^ 32) with 2 in E. lia.
  - pose proof (Z.mod_pos_bound (n + 1) (2 ^ 32) ltac:(lia)).
    split; [lia|]. destruct (Z.eq_dec n (2 ^ 32 - 1)) as [->|Hne].
    + exfalso. apply E. reflexivity.
    + rewrite Z.mod_small by lia. lia.
Qed.

Lemma get_state_id_value w p s :
  p <> NULL -> mem w !! p = Some (RState s) ->
  kstate_get_state_id p w = Done (if st_name s =? NULL then 0 else st_id s) w.
Proof.
  intros Hp Hl. unfold kstate_get_state_id, kstate_state_is_subscribed, NULL in *.
  destruct (Z.eqb_spec (st_name s) 0) as [E|E]; kexec; reflexivity.
Qed.

Lemma subscribe_keeps_id p name perms w r w' s s' :
  mem w !! p = Some (RState s) ->
  kstate_subscribe_state p name perms w = Done r w' ->
  mem w' !! p = Some (RState s') -> st_id s' = st_id s.
Proof.
  intros Hl H Hl'. pose proof (cur_init p _ w Hl) as C.
  unfold kstate_subscribe_state, new_state_name in H.
  kchain2 H;
    try (match goal with
         | C' : cur ?p (RState ?sn) ?w', Hl' : mem ?w' !! ?p = Some (RState ?s') |- _ =>
             pose proof (C' (RState s') eq_refl Hl') as E; injection E as ->; reflexivity
         end);
    congruence.
Qed.

Lemma unsubscribe_keeps_id p w u w' s s' :
  mem w !! p = Some (RState s) ->
  kstate_unsubscribe_state p w = Done u w' ->
  mem w' !! p = Some (RState s') -> st_id s' = st_id s.
Proof.
  intros Hl H Hl'. pose proof (cur_init p _ w Hl) as C.
  unfold kstate_unsubscribe_state in H.
  kchain2 H;
    try (match goal with
         | C' : cur ?p (RState ?sn) ?w', Hl' : mem ?w' !! ?p = Some (RState ?s') |- _ =>
             pose proof (C' (RState s') eq_refl Hl') as E; injection E as ->; reflexivity
         end);
    congruence.
Qed.

(** C7, as the code has it: two successive kstate_new_state calls return
    two different handles whose stored ids are nonzero and differ;
    kstate_get_state_id reports the stored id of a handle exactly while it
    is subscribed and 0 whenever it is not, so it reports 0 for both
    handles right after kstate_new_state; and neither subscribe nor
    unsubscribe changes the stored id. *)
Theorem state_ids w h1 w1 h2 w2 :
  0 < next_state_id w < UINT32_MOD ->
  kstate_new_state w = Done h1 w1 ->
  kstate_new_state w1 = Done h2 w2 ->
  (exists s1 s2,
      h1 <> h2
      /\ mem w2 !! h1 = Some (RState s1) /\ mem w2 !! h2 = Some (RState s2)
      /\ st_id s1 <> 0 /\ st_id s2 <> 0 /\ st_id s1 <> st_id s2
      /\ kstate_get_state_id h1 w2 = Done 0 w2
      /\ kstate_get_state_id h2 w2 = Done 0 w2)
  /\ (forall w p s,
        p <> NULL -> mem w !! p = Some (RState s) ->
        kstate_get_state_id p w = Done (if st_name s =? NULL then 0 else st_id s) w)
  /\ (forall w, kstate_get_state_id NULL w = Done 0 w)
  /\ (forall p name perms w r w' s s',
        mem w !! p = Some (RState s) ->
        kstate_subscribe_state p name perms w = Done r w' ->
        mem w' !! p = Some (RState s') -> st_id s' = st_id s)
  /\ (forall p w u w' s s',
        mem w !! p = Some (RState s) ->
        kstate_unsubscribe_state p w = Done u w' ->
        mem w' !! p = Some (RState s') -> st_id s' = st_id s).
Proof.
  intros Hn H1 H2.
  apply new_state_inv in H1 as (E1 & N1 & M1 & B1 & C1).
  apply new_state_inv in H2 as (E2 & N2 & M2 & B2 & C2).
  destruct (bump_distinct _ Hn) as [Hb Hd].
  assert (Hne : h1 <> h2) by (unfold sizeof_state in *; lia).
  assert (L1 : mem w2 !! h1 = Some (RState (set_st_id (next_state_id w) zero_state))).
  { rewrite M2, lookup_insert_ne by congruence. rewrite M1. apply lookup_insert_eq. }
  assert (L2 : mem w2 !! h2 = Some (RState (set_st_id (next_state_id w1) zero_state))).
  { rewrite M2. apply lookup_insert_eq. }
  split; [|split; [|split; [|split]]].
  - exists (set_st_id (next_state_id w) zero_state), (set_st_id (next_state_id w1) zero_state).
    split; [exact Hne|]. split; [exact L1|]. split; [exact L2|].
    cbn [st_id set_st_id]. rewrite C1.
    split; [lia|]. split; [lia|]. split; [congruence|].
    split; [apply (get_state_id_value _ _ _ N1 L1) | apply (get_state_id_value _ _ _ N2 L2)].
  - intros; now apply get_state_id_value.
  - reflexivity.
  - intros; eapply subscribe_keeps_id; eauto.
  - intros; eapply unsubscribe_keeps_id; eauto.
Qed.

Lemma state_ids_witness :
  exists s1 s2,
    mem two_fresh_states !! 1 = Some (RState s1)
    /\ mem two_fresh_states !! 33 = Some (RState s2)
    /\ st_id s1 = 1 /\ st_id s2 = 2.
Proof.
  destruct (state_ids (init_world 4096 []) 1 fresh_state 33 two_fresh_states)
    as [(s1 & s2 & _ & L1 & L2 & _) _].
  - vm_compute. split; reflexivity.
  - vm_compute. reflexivity.
  - vm_compute. reflexivity.
  - exists s1, s2. split; [exact L1|]. split; [exact L2|].
    vm_compute in L1, L2. injection L1 as <-. injection L2 as <-. split; reflexivity.
Defined.

(** C7 as stated fails: right after two successive kstate_new_state calls
    kstate_get_state_id reports 0 for both handles, not two distinct
    nonzero ids; and the reported id reverts to 0 at unsubscribe, without
    any free. *)
Lemma new_state_ids_not_observed :
  ~ (exists i1 i2 w',
        two_new_states (init_world 4096 []) = Done (i1, i2) w'
        /\ i1 <> 0 /\ i2 <> 0 /\ i1 <> i2)
  /\ exists w', subscribed_then_unsubscribed (init_world 4096 []) = Done (1, 0) w'.
Proof.
  split.
  - intros (i1 & i2 & w' & H & H1 & _). vm_compute in H. injection H as <- <- _.
    now apply H1.
  - eexists. vm_compute. reflexivity.
Qed.

(** C9: when malloc fails, kstate_new_state and kstate_new_transaction do
    not return NULL: they run memset on the NULL pointer, which is
    undefined behaviour. *)
Theorem new_handle_without_memory w e script :
  faults w = Some e :: script ->
  kstate_new_state w = Crash /\ kstate_new_transaction w = Crash.
Proof.
  intros Hf. unfold kstate_new_state, kstate_new_transaction.
  split; kprimg; cbn beta; rewrite Hf; reflexivity.
Qed.

Lemma new_handle_without_memory_witness :
  kstate_new_state out_of_memory = Crash
  /\ kstate_new_transaction out_of_memory = Crash.
Proof.
  apply (new_handle_without_memory out_of_memory 12%positive []). reflexivity.
Defined.

(** ** Subscribe *)

(** A name that check_state_name refuses is refused by subscribe with
    -EINVAL, whatever the handle and the permissions, and nothing
    changes. *)
Lemma subscribe_invalid_name w p name perms :
  p = NULL \/ (exists s, mem w !! p = Some (RState s)) ->
  check_state_name name = 0 ->
  kstate_subscribe_state p name perms w = Done (- EINVAL) w.
Proof.
  intros Hp Hname. unfold kstate_subscribe_state, kstate_state_is_subscribed.
  destruct Hp as [-> | (s & Hl)]; [reflexivity|].
  destruct (Z.eqb_spec p NULL) as [->|Hp0]; [reflexivity|].
  unfold NULL in *. kexec.
  destruct (st_name s =? 0); cbn [negb]; [|reflexivity].
  destruct (state_permissions_are_bad perms); [reflexivity|].
  unfold new_state_name. destruct name as [nm|]; [|reflexivity].
  rewrite Hname. reflexivity.
Qed.

(** The names the specification refuses are refused. *)
Lemma invalid_name_refused (s : string) :
  spec_valid_name s = false -> check_state_name (Some s) = 0.
Proof.
  intros H. destruct (Z.eq_dec (check_state_name (Some s)) 0) as [E|E]; [exact E|].
  apply check_state_name_accepts_iff in E as [E _]. congruence.
Qed.

(** C2: "ab.c" is a name the specification allows (nonempty, 4 bytes,
    letters and one dot that is neither first nor last nor next to another
    dot), yet check_state_name returns 0 for it and subscribe fails with
    -EINVAL. *)
Theorem valid_name_refused :
  spec_valid_name "ab.c" = true
  /\ check_state_name (Some "ab.c"%string) = 0
  /\ kstate_subscribe_state 1 (Some "ab.c"%string) (Z.lor KSTATE_READ KSTATE_WRITE)
       fresh_state
     = Done (- EINVAL) fresh_state.
Proof.
  split; [reflexivity|]. split; [reflexivity|]. vm_compute. reflexivity.
Qed.

(** C3: when ftruncate fails in subscribe, -errno is returned, the name
    is freed and the handle is back to unsubscribed, but the descriptor
    that shm_open returned is still open; the same when mmap fails. *)
Theorem subscribe_leaks_descriptor :
  (exists w',
      kstate_subscribe_state 1 (Some "Fred"%string) (Z.lor KSTATE_READ KSTATE_WRITE)
        ftruncate_fails = Done (- 28) w'
      /\ mem w' = mem ftruncate_fails
      /\ mem w' !! 1 = Some (RState (mk_state NULL 0 1 NULL 0))
      /\ fds ftruncate_fails = ∅
      /\ fds w' = {[3 := (1, Z.lor O_RDWR O_CREAT)]})
  /\ (exists w',
         kstate_subscribe_state 1 (Some "Fred"%string) (Z.lor KSTATE_READ KSTATE_WRITE)
           mmap_fails = Done (- 12) w'
         /\ mem w' = mem mmap_fails
         /\ mem w' !! 1 = Some (RState (mk_state NULL 0 1 NULL 0))
         /\ fds mmap_fails = ∅
         /\ fds w' = {[3 := (1, Z.lor O_RDWR O_CREAT)]}).
Proof.
  split; eexists; (split; [vm_compute; reflexivity|]);
    repeat split; vm_compute; reflexivity.
Qed.
(** ** A transaction and the state it was started on *)

Lemma fresh_lt w a r : fresh_above w -> mem w !! a = Some r -> a < brk w.
Proof.
  intros [_ Hf] Hl. destruct (Z.lt_ge_cases a (brk w)) as [|Hge]; [assumption|].
  rewrite (Hf a Hge) in Hl. discriminate.
Qed.

Lemma start_returned_0 w st s tp t nm sobj perms w1 :
  start_setting w st s tp t nm sobj ->
  has (with_read perms) KSTATE_WRITE = true ->
  kstate_start_transaction tp st perms w = Done 0 w1 ->
  exists obj c, ready_to_start w st s tp t nm sobj obj c perms.
Proof.
  intros ((Hs0 & Hs & Hsn0 & Hsn & Hsm0 & Hsm1 & Hsm & Hlen) & Ht & Hfd & Hfr & Hshm) Hw.
  pose proof (fresh_lt _ _ _ Hfr Hs) as Ls.
  pose proof (fresh_lt _ _ _ Hfr Ht) as Lt.
  pose proof (fresh_lt _ _ _ Hfr Hsn) as Lsn.
  pose proof (fresh_lt _ _ _ Hfr Hsm) as Lsm.
  pose proof Hfr as [Hb Hfr'].
  assert (Hst : st <> tp) by congruence.
  assert (Hfd' : (next_fd w <? 0) = false) by (apply Z.ltb_ge; lia).
  assert (Hlen' : (st_map_length s <=? 0) = false) by (apply Z.leb_gt; lia).
  assert (Hz : blen (zeros (st_map_length s)) = st_map_length s)
    by (unfold blen, zeros; rewrite length_replicate; lia).
  unfold with_read in Hw.
  unfold ready_to_start, subscribed_state, with_read.
  unfold kstate_start_transaction, kstate_transaction_is_active,
    kstate_state_is_subscribed, NULL, MAP_FAILED in *.
  destruct w as [m b f nf sn so no sw ps en fl nsi nti]. ksimpl.
  destruct (Z.eqb_spec tp 0) as [->|Ht0]; [discriminate|].
  kexecf.
  destruct (Z.eqb_spec (tr_name t) 0) as [Htn|Htn]; [|discriminate].
  kexecf.
  destruct (transaction_permissions_are_bad perms) eqn:Hbad; [discriminate|].
  kexecf.
  destruct (has (st_permissions s) KSTATE_WRITE) eqn:Hsw; [|discriminate].
  kexecf.
  destruct (hd None fl) as [e1|] eqn:F1.
  { kexecf. discriminate. }
  destruct (hd None (tail fl)) as [e2|] eqn:F2.
  { kexecf. discriminate. }
  destruct (sn !! nm) as [obj|] eqn:Hnm.
  2:{ kexecf. discriminate. }
  destruct (Hshm obj eq_refl) as (c & Hobj & Hc).
  assert (Hbl : blen (take (Z.to_nat (st_map_length s)) c) = st_map_length s)
    by (apply blen_live; lia).
  destruct (hd None (tail (tail fl))) as [e3|] eqn:F3.
  { kexecf. intros Hd.
    repeat (apply bind_inv in Hd as (? & ? & _ & Hd)). discriminate Hd. }
  destruct (hd None (tail (tail (tail fl)))) as [e4|] eqn:F4.
  { kexecf. intros Hd.
    apply bind_inv in Hd as (r & w' & Hm & Hd).
    apply bind_inv in Hm as (x & wx & Hmal & Hm).
    assert (x = 0) as ->.
    { revert Hmal. kprimg. kflat. rewrite F4. intros [= <- _]. reflexivity. }
    apply bind_inv in Hm as (? & ? & _ & Hm). cbn [Z.eqb] in Hm.
    apply bind_inv in Hm as (? & ? & _ & Hm).
    apply ret_inv in Hm as [-> _]. discriminate Hd. }
  kexecf.
  destruct (hd None (tail (tail (tail (tail fl))))) as [e5|] eqn:F5.
  { kexecf. intros Hd.
    repeat (apply bind_inv in Hd as (? & ? & _ & Hd)). discriminate Hd. }
  intros _. exists obj, c. cbn [no_fault]. ksimpl.
  repeat split; try assumption; try reflexivity.
Qed.

Lemma start_writable w st s tp t nm sobj obj c perms :
  ready_to_start w st s tp t nm sobj obj c perms ->
  exists w1,
    kstate_start_transaction tp st perms w = Done 0 w1
    /\ writable_transaction w1 tp (started w nm (st_map_length s) (tr_id t) perms)
         nm obj c (live_bytes c (st_map_length s)) (live_bytes c (st_map_length s))
    /\ subscribed_state w1 st s nm sobj.
Proof.
  intros ((Hs0 & Hs & Hsn0 & Hsn & Hsm0 & Hsm1 & Hsm & Hlen) & Hsw & Ht0 & Ht & Htn
          & Hnm & Hobj & Hc & Hbad & Hw & Hnf & Hfd & Hfr).
  pose proof (fresh_lt _ _ _ Hfr Hs) as Ls.
  pose proof (fresh_lt _ _ _ Hfr Ht) as Lt.
  pose proof (fresh_lt _ _ _ Hfr Hsn) as Lsn.
  pose proof (fresh_lt _ _ _ Hfr Hsm) as Lsm.
  destruct Hfr as [Hb Hfr].
  cbn [no_fault] in Hnf. destruct Hnf as (F1 & F2 & F3 & F4 & F5 & _).
  unfold with_read in Hw.
  assert (st <> tp) by congruence.
  assert (Hbl : blen (take (Z.to_nat (st_map_length s)) c) = st_map_length s)
    by (apply blen_live; lia).
  assert (Hz : blen (zeros (st_map_length s)) = st_map_length s)
    by (unfold blen, zeros; rewrite length_replicate; lia).
  destruct w as [m b f nf sn so no sw ps en fl nsi nti]. ksimpl.
  assert (Hlen' : (st_map_length s <=? 0) = false) by (apply Z.leb_gt; lia).
  assert (Hfd' : (nf <? 0) = false) by (apply Z.ltb_ge; lia).
  unfold kstate_start_transaction, kstate_transaction_is_active,
    kstate_state_is_subscribed, NULL, MAP_FAILED in *.
  eexists. split.
  - kexecf. reflexivity.
  - (unfold writable_transaction, active_transaction, subscribed_state, started, ret, with_read, PROT_RW, NULL, MAP_FAILED;
    kflat; kfields).
    assert (Ho : overwrite (take (Z.to_nat (st_map_length s)) c) (zeros (st_map_length s))
                 = take (Z.to_nat (st_map_length s)) c).
    { unfold overwrite. rewrite drop_ge, app_nil_r; [reflexivity|]. unfold blen in *. lia. }
    rewrite Ho. unfold live_bytes.
    (repeat split; kmapg; try kside; try reflexivity).
Qed.

Lemma overwrite_all (new old : list byte) :
  blen new = blen old -> overwrite new old = new.
Proof.
  unfold blen, overwrite. intros H. rewrite drop_ge, app_nil_r; [reflexivity | lia].
Qed.

Lemma overwrite_live (c : list byte) (n : Z) : overwrite (live_bytes c n) c = c.
Proof.
  unfold overwrite, live_bytes. rewrite length_take.
  destruct (Nat.le_gt_cases (Z.to_nat n) (length c)) as [H|H].
  - rewrite Nat.min_l by exact H. apply take_drop.
  - rewrite Nat.min_r by lia. rewrite take_ge by lia. rewrite drop_ge by lia.
    apply app_nil_r.
Qed.

(** Storing a full buffer through the transaction's pointer. *)
Lemma user_write_writable w tp t nm obj c snap work bytes :
  writable_transaction w tp t nm obj c snap work ->
  blen bytes = tr_map_length t ->
  user_write tp bytes w
  = Done tt (set_mem (<[tr_map_addr t := RAnon PROT_RW bytes]> (mem w)) w)
  /\ writable_transaction
       (set_mem (<[tr_map_addr t := RAnon PROT_RW bytes]> (mem w)) w)
       tp t nm obj c snap bytes.
Proof.
  intros ((Hp0 & Hp & Hn0 & Hn & Hl0 & Hl1 & Hl & Ho & Hlen & Hw0 & Hw1 & Hw & Hwl & Hpos)
          & Hperm & Hc0 & Hc & Hcl) Hb.
  assert (tp <> tr_map_addr t) by congruence.
  assert (tr_name t <> tr_map_addr t) by congruence.
  assert (tr_state_map_addr t <> tr_map_addr t) by congruence.
  assert (tr_state_map_copy t <> tr_map_addr t) by congruence.
  split.
  - unfold user_write, kstate_get_transaction_ptr, kstate_transaction_is_active,
      NULL, MAP_FAILED in *.
    kexec. kprimg. kfwd. rewrite overwrite_all by congruence. reflexivity.
  - unfold writable_transaction, active_transaction. ksimpl.
    repeat split; kmapg; try assumption; try congruence.
Qed.

(** What tearing a subscribed state down leaves behind. *)
Lemma tear_down_state_done w st s nm sobj :
  subscribed_state w st s nm sobj ->
  exists w',
    tear_down_state_handle st w = Done (Some NULL) w'
    /\ kstate_free_state (Some st) w = Done (Some NULL) w'
    /\ mem w' !! st = None
    /\ (forall a, a <> st -> a <> st_name s -> a <> st_map_addr s ->
                  mem w' !! a = mem w !! a)
    /\ shm_objs w' = shm_objs w
    /\ shm_writes w' = shm_writes w.
Proof.
  intros (Hs0 & Hs & Hsn0 & Hsn & Hsm0 & Hsm1 & Hsm & Hlen).
  assert (st <> st_name s) by congruence.
  assert (st <> st_map_addr s) by congruence.
  assert (st_name s <> st_map_addr s) by congruence.
  assert (Hlen' : (st_map_length s <=? 0) = false) by (apply Z.leb_gt; lia).
  unfold tear_down_state_handle, kstate_free_state, kstate_unsubscribe_state,
    kstate_state_is_subscribed, NULL, MAP_FAILED in *.
  destruct w as [m b f nf sn so no sw ps en fl nsi nti]. ksimpl.
  destruct (sn !! nm) as [o|] eqn:Hnm.
  - eexists. split; [|split].
    + kexecf. reflexivity.
    + kexecf. reflexivity.
    + kflat. repeat split; intros; kmapg; reflexivity.
  - eexists. split; [|split].
    + kexecf. reflexivity.
    + kexecf. reflexivity.
    + kflat. repeat split; intros; kmapg; reflexivity.
Qed.

(** The transaction's resources depend on its own five regions and on
    the shm objects only. *)
Lemma writable_frame w w' tp t nm obj c snap work :
  writable_transaction w tp t nm obj c snap work ->
  (forall a, In a [tp; tr_name t; tr_state_map_addr t; tr_state_map_copy t; tr_map_addr t] ->
             mem w' !! a = mem w !! a) ->
  shm_objs w' = shm_objs w ->
  writable_transaction w' tp t nm obj c snap work.
Proof.
  intros ((Hp0 & Hp & Hn0 & Hn & Hl0 & Hl1 & Hl & Ho & Hlen & Hw0 & Hw1 & Hw & Hwl & Hpos)
          & Hperm & Hc0 & Hc & Hcl) Hm Hso.
  unfold writable_transaction, active_transaction.
  rewrite !Hm, Hso by (cbn [In]; tauto).
  repeat split; assumption.
Qed.

(** Commit when nobody else has written: 0, and the object holds the
    working buffer. *)
Lemma commit_unchanged w p t nm obj c work :
  writable_transaction w p t nm obj c (live_bytes c (tr_map_length t)) work ->
  exists w',
    kstate_commit_transaction p w = Done 0 w'
    /\ shm_objs w' = <[obj := overwrite work c]> (shm_objs w).
Proof.
  intros Hw.
  destruct (List.list_eq_dec Byte.byte_eq_dec work (live_bytes c (tr_map_length t))) as [E|E].
  - destruct (commit_nothing_to_write _ _ _ _ _ _ _ _ Hw eq_refl E) as (m' & Hc & _).
    eexists. split; [exact Hc|]. cbn [shm_objs set_mem].
    rewrite E, overwrite_live. symmetry. apply insert_id.
    apply Hw.
  - destruct (commit_publishes _ _ _ _ _ _ _ _ Hw eq_refl E) as (m' & Hc & _).
    eexists. split; [exact Hc|]. reflexivity.
Qed.

Lemma abort_writable w p t nm obj c snap work :
  writable_transaction w p t nm obj c snap work ->
  exists w',
    kstate_abort_transaction p w = Done 0 w' /\ shm_objs w' = shm_objs w.
Proof.
  intros Hw.
  destruct (abort_done _ _ _ _ _ _ _ _ _ _ (proj1 Hw) (writable_copy _ _ _ _ _ _ _ _ Hw))
    as (m' & Ha & _).
  eexists. split; [exact Ha | reflexivity].
Qed.

(** C8.  Let [st] be a subscribed state and let
    kstate_start_transaction have returned 0 for a writable transaction
    [tp] on it.  Then the transaction struct [t1] it left stays as it is
    when the state is unsubscribed and freed (by unsubscribe followed by
    free, or by free alone); the three regions of the transaction stay
    valid; and, nobody else having written, a commit after the teardown
    returns 0 and leaves the bytes the user stored in the working buffer
    in the shm object, an abort returns 0 and leaves the object alone,
    exactly as they do when the state has not been torn down. *)
Theorem transaction_survives_state_teardown w st s tp t nm sobj perms w1 :
  start_setting w st s tp t nm sobj ->
  has (with_read perms) KSTATE_WRITE = true ->
  kstate_start_transaction tp st perms w = Done 0 w1 ->
  exists obj c t1,
    mem w1 !! tp = Some (RTrans t1)
    /\ shm_objs w1 !! obj = Some c
    /\ forall bytes, blen bytes = tr_map_length t1 ->
       exists w2 w3,
         user_write tp bytes w1 = Done tt w2
         /\ tear_down_state_handle st w2 = Done (Some NULL) w3
         /\ kstate_free_state (Some st) w2 = Done (Some NULL) w3
         /\ mem w3 !! st = None
         /\ mem w3 !! tp = Some (RTrans t1)
         /\ writable_transaction w3 tp t1 nm obj c (live_bytes c (tr_map_length t1)) bytes
         /\ (exists w4, kstate_commit_transaction tp w3 = Done 0 w4
                        /\ shm_objs w4 = <[obj := overwrite bytes c]> (shm_objs w1))
         /\ (exists w4, kstate_abort_transaction tp w3 = Done 0 w4
                        /\ shm_objs w4 = shm_objs w1)
         /\ (exists w4, kstate_commit_transaction tp w2 = Done 0 w4
                        /\ shm_objs w4 = <[obj := overwrite bytes c]> (shm_objs w1))
         /\ (exists w4, kstate_abort_transaction tp w2 = Done 0 w4
                        /\ shm_objs w4 = shm_objs w1).
Proof.
  intros Hset Hperm Hstart.
  destruct (start_returned_0 _ _ _ _ _ _ _ _ _ Hset Hperm Hstart) as (obj & c & Hready).
  destruct (start_writable _ _ _ _ _ _ _ _ _ _ Hready) as (w1' & Hstart' & Hwt & Hsub).
  rewrite Hstart in Hstart'. injection Hstart' as <-.
  destruct Hset as (Hsub0 & Ht & Hfd & Hfr & Hshm).
  destruct Hsub0 as (_ & Hs & _ & Hsn & _ & _ & Hsm & Hlen).
  pose proof (fresh_lt _ _ _ Hfr Hs) as Ls.
  pose proof (fresh_lt _ _ _ Hfr Hsn) as Lsn.
  pose proof (fresh_lt _ _ _ Hfr Hsm) as Lsm.
  pose proof (fresh_lt _ _ _ Hfr Ht) as Lt.
  assert (N1 : tp <> st) by congruence.
  assert (N2 : tp <> st_name s) by congruence.
  assert (N3 : tp <> st_map_addr s) by congruence.
  assert (Hge : let t1 := started w nm (st_map_length s) (tr_id t) perms in
                brk w <= tr_name t1 /\ brk w <= tr_state_map_addr t1
                /\ brk w <= tr_state_map_copy t1 /\ brk w <= tr_map_addr t1).
  { unfold started. ksimplg. clear. lia. }
  set (t1 := started w nm (st_map_length s) (tr_id t) perms) in *.
  destruct Hge as (G1 & G2 & G3 & G4).
  exists obj, c, t1. split; [apply Hwt|]. split; [apply Hwt|].
  intros bytes Hb.
  destruct (user_write_writable _ _ _ _ _ _ _ _ bytes Hwt Hb) as (Huw & Hwt2).
  set (w2 := set_mem (<[tr_map_addr t1 := RAnon PROT_RW bytes]> (mem w1)) w1) in *.
  assert (Hsub2 : subscribed_state w2 st s nm sobj).
  { destruct Hsub as (A1 & A2 & A3 & A4 & A5 & A6 & A7 & A8).
    unfold subscribed_state, w2. cbn [mem set_mem].
    rewrite !lookup_insert_ne by lia. repeat split; assumption. }
  destruct (tear_down_state_done _ _ _ _ _ Hsub2)
    as (w3 & Htd & Hfree & Hgone & Hframe & Hobjs & Hwr).
  assert (Hwt3 : writable_transaction w3 tp t1 nm obj c
                   (live_bytes c (tr_map_length t1)) bytes).
  { apply (writable_frame w2); [exact Hwt2 | | exact Hobjs].
    intros a Ha. apply Hframe; cbn [In] in Ha; lia. }
  assert (Hobjs2 : shm_objs w2 = shm_objs w1) by reflexivity.
  exists w2, w3.
  split; [exact Huw|]. split; [exact Htd|]. split; [exact Hfree|].
  split; [exact Hgone|]. split; [apply Hwt3|]. split; [exact Hwt3|].
  destruct (commit_unchanged _ _ _ _ _ _ _ Hwt3) as (w4 & Hc4 & Ho4).
  destruct (abort_writable _ _ _ _ _ _ _ _ Hwt3) as (w5 & Hc5 & Ho5).
  destruct (commit_unchanged _ _ _ _ _ _ _ Hwt2) as (w6 & Hc6 & Ho6).
  destruct (abort_writable _ _ _ _ _ _ _ _ Hwt2) as (w7 & Hc7 & Ho7).
  split; [exists w4; split; [exact Hc4 | congruence]|].
  split; [exists w5; split; [exact Hc5 | congruence]|].
  split; [exists w6; split; [exact Hc6 | congruence]|].
  exists w7; split; [exact Hc7 | congruence].
Qed.

Lemma demo_subscribed_setting :
  start_setting demo_subscribed 1 demo_state 50 demo_inactive "/kstate.Fred" 1.
Proof.
  split; [|split; [|split; [|split]]].
  - repeat split; try (vm_compute; congruence); vm_compute; reflexivity.
  - vm_compute. reflexivity.
  - vm_compute. discriminate.
  - split; [vm_compute; reflexivity|].
    assert (H : map_Forall (fun a _ => a < 98) (mem demo_subscribed)).
    { apply (bool_decide_unpack _). vm_compute. exact I. }
    intros a Ha. change (brk demo_subscribed) with 98 in Ha.
    destruct (mem demo_subscribed !! a) eqn:E; [|reflexivity].
    apply H in E. lia.
  - intros obj H. vm_compute in H. injection H as <-.
    exists (zeros 4). split; [vm_compute; reflexivity | vm_compute; discriminate].
Defined.

Lemma transaction_survives_state_teardown_witness :
  exists obj c t1,
    mem demo_started !! 50 = Some (RTrans t1)
    /\ shm_objs demo_started !! obj = Some c
    /\ forall bytes, blen bytes = tr_map_length t1 ->
       exists w2 w3,
         user_write 50 bytes demo_started = Done tt w2
         /\ tear_down_state_handle 1 w2 = Done (Some NULL) w3
         /\ kstate_free_state (Some 1) w2 = Done (Some NULL) w3
         /\ mem w3 !! 1 = None
         /\ mem w3 !! 50 = Some (RTrans t1)
         /\ writable_transaction w3 50 t1 "/kstate.Fred" obj c
              (live_bytes c (tr_map_length t1)) bytes
         /\ (exists w4, kstate_commit_transaction 50 w3 = Done 0 w4
                        /\ shm_objs w4 = <[obj := overwrite bytes c]> (shm_objs demo_started))
         /\ (exists w4, kstate_abort_transaction 50 w3 = Done 0 w4
                        /\ shm_objs w4 = shm_objs demo_started)
         /\ (exists w4, kstate_commit_transaction 50 w2 = Done 0 w4
                        /\ shm_objs w4 = <[obj := overwrite bytes c]> (shm_objs demo_started))
         /\ (exists w4, kstate_abort_transaction 50 w2 = Done 0 w4
                        /\ shm_objs w4 = shm_objs demo_started).
Proof.
  apply (transaction_survives_state_teardown demo_subscribed 1 demo_state 50
           demo_inactive "/kstate.Fred" 1 KSTATE_WRITE demo_started).
  - exact demo_subscribed_setting.
  - reflexivity.
  - vm_compute. reflexivity.
Defined.
(** * Unique names *)

(** ** Decimal digits *)

(** [k] is the number of decimal digits of [n >= 0]. *)
Lemma digits_unique (n k k' : Z) :
  1 <= k -> n < 10 ^ k -> (n < 10 /\ k = 1 \/ 10 ^ (k - 1) <= n) ->
  1 <= k' -> n < 10 ^ k' -> (n < 10 /\ k' = 1 \/ 10 ^ (k' - 1) <= n) ->
  k = k'.
Proof.
  intros Hk Hu Hl Hk' Hu' Hl'.
  destruct (Z.lt_trichotomy k k') as [H|[H|H]]; [|assumption|].
  - exfalso. destruct Hl' as [[? ->]|Hl']; [lia|].
    pose proof (Z.pow_le_mono_r 10 k (k' - 1) ltac:(lia) ltac:(lia)). lia.
  - exfalso. destruct Hl as [[? ->]|Hl]; [lia|].
    pose proof (Z.pow_le_mono_r 10 k' (k - 1) ltac:(lia) ltac:(lia)). lia.
Qed.

Lemma log2_div10 (n : Z) : 0 < n / 10 -> Z.log2 (n / 10) < Z.log2 n.
Proof.
  intros H.
  assert (Hn : 0 < n) by (destruct (Z.lt_ge_cases 0 n); [assumption|];
                          pose proof (Z.div_le_upper_bound n 10 0); lia).
  assert (n / 10 <= n / 2) by (apply Z.div_le_compat_l; lia).
  pose proof (Z.log2_le_mono _ _ H0).
  rewrite <- Z.div2_div, Z.div2_spec, Z.log2_shiftr in H1 by lia.
  assert (0 < Z.log2 n).
  { apply Z.log2_pos. destruct (Z.eq_dec n 1) as [->|]; [discriminate H|lia]. }
  lia.
Qed.

Lemma num_digits_loop_spec (fuel : nat) :
  forall count value,
    (Z.to_nat (Z.log2 (Z.abs value)) < fuel)%nat ->
    exists k,
      num_digits_loop fuel count value = Some (count + k)
      /\ 1 <= k /\ Z.abs value < 10 ^ k
      /\ (Z.abs value < 10 /\ k = 1 \/ 10 ^ (k - 1) <= Z.abs value).
Proof.
  induction fuel as [|fuel IH]; intros count value Hf; [lia|].
  cbn [num_digits_loop].
  pose proof (Z.quot_abs value 10 ltac:(lia)) as Hq.
  change (Z.abs 10) with 10 in Hq.
  rewrite Z.quot_div_nonneg in Hq by lia.
  pose proof (Z.abs_nonneg value) as Hv.
  pose proof (Z.div_mod (Z.abs value) 10 ltac:(lia)) as Hdm.
  pose proof (Z.mod_pos_bound (Z.abs value) 10 ltac:(lia)) as Hm.
  destruct (Z.eqb_spec (Z.quot value 10) 0) as [E|E]; cbn [negb].
  - exists 1. rewrite E in Hq. cbn in Hq.
    split; [reflexivity|]. split; [lia|]. split; [change (10 ^ 1) with 10; lia|].
    left. split; lia.
  - assert (Hpos : 0 < Z.abs value / 10).
    { rewrite Hq. lia. }
    destruct (IH (count + 1) (Z.quot value 10)) as (k & Hk & H1 & Hu & Hl).
    { rewrite <- Hq. pose proof (log2_div10 _ Hpos).
      pose proof (Z.log2_nonneg (Z.abs value / 10)). lia. }
    exists (k + 1). rewrite Hk. split; [f_equal; lia|]. split; [lia|].
    rewrite <- Hq in Hu, Hl.
    rewrite Z.pow_add_r by lia. change (10 ^ 1) with 10.
    split; [lia|]. right.
    replace (k + 1 - 1) with k by lia.
    destruct Hl as [[_ ->]|Hl]; [change (10 ^ 1) with 10; lia|].
    replace k with (k - 1 + 1) at 1 by lia.
    rewrite Z.pow_add_r by lia. change (10 ^ 1) with 10. lia.
Qed.

Lemma strlen_app (a b : string) : strlen (a ++ b) = strlen a + strlen b.
Proof.
  unfold strlen. induction a as [|c a IH]; simpl; [reflexivity|]. lia.
Qed.

Lemma decimal_loop_spec (fuel : nat) :
  forall n,
    0 <= n -> (Z.to_nat (Z.log2 n) < fuel)%nat ->
    1 <= strlen (decimal_loop fuel n)
    /\ n < 10 ^ strlen (decimal_loop fuel n)
    /\ (n < 10 /\ strlen (decimal_loop fuel n) = 1
        \/ 10 ^ (strlen (decimal_loop fuel n) - 1) <= n).
Proof.
  induction fuel as [|fuel IH]; intros n Hn Hf; [lia|].
  cbn [decimal_loop]. rewrite strlen_app. change (strlen (String _ "")) with 1.
  pose proof (Z.div_mod n 10 ltac:(lia)) as Hdm.
  pose proof (Z.mod_pos_bound n 10 ltac:(lia)) as Hm.
  pose proof (Z.div_pos n 10 Hn ltac:(lia)) as Hd.
  destruct (Z.eqb_spec (n / 10) 0) as [E|E].
  - change (strlen "") with 0. cbn. split; [lia|]. split; [lia|]. left. lia.
  - destruct (IH (n / 10)) as (H1 & Hu & Hl); [lia| |].
    { pose proof (log2_div10 n ltac:(lia)). pose proof (Z.log2_nonneg (n / 10)). lia. }
    set (k := strlen (decimal_loop fuel (n / 10))) in *.
    split; [lia|]. rewrite Z.pow_add_r by lia. change (10 ^ 1) with 10.
    split; [lia|]. right. replace (k + 1 - 1) with k by lia.
    destruct Hl as [[_ Hk]|Hl]; [rewrite Hk; change (10 ^ 1) with 10; lia|].
    replace k with (k - 1 + 1) at 1 by lia.
    rewrite Z.pow_add_r by lia. change (10 ^ 1) with 10. lia.
Qed.

Lemma decimal_spec (n : Z) :
  0 <= n ->
  1 <= strlen (decimal n)
  /\ n < 10 ^ strlen (decimal n)
  /\ (n < 10 /\ strlen (decimal n) = 1 \/ 10 ^ (strlen (decimal n) - 1) <= n).
Proof. intros Hn. apply decimal_loop_spec; [assumption | lia]. Qed.

(** X1.
    X1.
    num_digits counts the decimal digits of the absolute value of its
    argument: it returns the [k >= 1] with [10^(k-1) <= |value| < 10^k]
    (1 for the values -9..9), which is the number of characters printf
    writes for |value|.  The sign is not counted. *)
Theorem num_digits_counts_decimal_digits (value : Z) :
  exists k,
    num_digits value = Some k
    /\ 1 <= k
    /\ Z.abs value < 10 ^ k
    /\ (Z.abs value < 10 /\ k = 1 \/ 10 ^ (k - 1) <= Z.abs value)
    /\ k = strlen (decimal (Z.abs value)).
Proof.
  destruct (num_digits_loop_spec (S (Z.to_nat (Z.log2 (Z.abs value)))) 0 value)
    as (k & Hk & H1 & Hu & Hl); [lia|].
  exists k. unfold num_digits. rewrite Hk. split; [reflexivity|].
  split; [assumption|]. split; [assumption|]. split; [assumption|].
  destruct (decimal_spec (Z.abs value) (Z.abs_nonneg value)) as (D1 & Du & Dl).
  apply (digits_unique (Z.abs value)); assumption.
Qed.

Lemma num_digits_decimal (value : Z) :
  num_digits value = Some (strlen (decimal (Z.abs value))).
Proof.
  destruct (num_digits_loop_spec (S (Z.to_nat (Z.log2 (Z.abs value)))) 0 value)
    as (k & Hk & H1 & Hu & Hl); [lia|].
  unfold num_digits. rewrite Hk. f_equal. cbn.
  destruct (decimal_spec (Z.abs value) (Z.abs_nonneg value)) as (D1 & Du & Dl).
  apply (digits_unique (Z.abs value)); assumption.
Qed.

Lemma strlen_string_of_list (l : list ascii) :
  strlen (string_of_list_ascii l) = Z.of_nat (length l).
Proof.
  unfold strlen. f_equal. induction l as [|c l IH]; simpl; [reflexivity | now rewrite IH].
Qed.

Lemma strlen_nonneg (s : string) : 0 <= strlen s.
Proof. unfold strlen. lia. Qed.

Lemma decimal_width (n k : Z) :
  0 <= n -> 0 <= k -> n < 10 ^ k -> strlen (decimal n) <= Z.max 1 k.
Proof.
  intros Hn Hk Hlt. destruct (decimal_spec n Hn) as (D1 & Du & [[_ ->]|Dl]); [lia|].
  destruct (Z.le_gt_cases (strlen (decimal n)) k) as [|Hgt]; [lia|].
  pose proof (Z.pow_le_mono_r 10 k (strlen (decimal n) - 1) ltac:(lia) ltac:(lia)). lia.
Qed.

Lemma decimal_ten_digits (n : Z) :
  10 ^ 9 <= n < 10 ^ 10 -> strlen (decimal n) = 10.
Proof.
  intros Hn. destruct (decimal_spec n ltac:(lia)) as (D1 & Du & Dl).
  apply (digits_unique n); try assumption; try lia.
Qed.

Lemma strlen_fmt_06ld (v : Z) : 0 <= v < 10 ^ 6 -> strlen (fmt_06ld v) = 6.
Proof.
  intros Hv. unfold fmt_06ld, zero_pad.
  destruct (Z.ltb_spec v 0) as [|_]; [lia|].
  rewrite strlen_app, strlen_string_of_list, repeat_length.
  pose proof (decimal_width v 6 ltac:(lia) ltac:(lia) ltac:(lia)).
  pose proof (strlen_nonneg (decimal v)). lia.
Qed.

Lemma to_int_small (v : Z) : 0 <= v < 2 ^ 31 -> to_int v = v.
Proof.
  intros Hv. unfold to_int, UINT32_MOD. cbn zeta.
  rewrite Z.mod_small by lia. destruct (Z.ltb_spec v (2 ^ 31)); lia.
Qed.

Lemma to_int_large (v : Z) : 2 ^ 31 <= v < 2 ^ 32 -> to_int v = v - 2 ^ 32.
Proof.
  intros Hv. unfold to_int, UINT32_MOD. cbn zeta.
  rewrite Z.mod_small by lia. destruct (Z.ltb_spec v (2 ^ 31)); lia.
Qed.

(** The length of the text, and the length the code computes for it. *)
Lemma strlen_unique_name_text prefix sec usec pid extra :
  strlen (unique_name_text prefix sec usec pid extra)
  = strlen prefix + 1 + strlen (fmt_ld sec) + strlen (fmt_06ld usec)
    + 1 + strlen (fmt_u pid) + 1 + strlen (fmt_u extra).
Proof.
  unfold unique_name_text. rewrite !strlen_app. change (strlen ".") with 1. lia.
Qed.

Lemma alloc_size_pos (n : Z) : 0 <= n -> Z.max 1 (n + 1) = n + 1.
Proof. lia. Qed.

Lemma num_digits_sec (sec : Z) :
  0 <= sec < 2 ^ 31 -> num_digits (to_int sec) = Some (strlen (fmt_ld sec)).
Proof.
  intros H. rewrite to_int_small, num_digits_decimal by assumption.
  unfold fmt_ld. destruct (Z.ltb_spec sec 0); [lia|]. now rewrite Z.abs_eq by lia.
Qed.

Lemma num_digits_pid (pid : Z) :
  0 <= pid < 2 ^ 31 -> num_digits pid = Some (strlen (fmt_u pid)).
Proof.
  intros H. rewrite num_digits_decimal. unfold fmt_u, UINT32_MOD.
  rewrite Z.mod_small, Z.abs_eq by lia. reflexivity.
Qed.

Lemma num_digits_extra (extra : Z) :
  0 <= extra <= 2 ^ 32 - 10 ^ 9 ->
  num_digits (to_int extra) = Some (strlen (fmt_u extra)).
Proof.
  intros H. rewrite num_digits_decimal. unfold fmt_u, UINT32_MOD.
  rewrite (Z.mod_small extra) by lia.
  destruct (Z.lt_ge_cases extra (2 ^ 31)) as [Hs|Hl].
  - rewrite to_int_small, Z.abs_eq by lia. reflexivity.
  - rewrite to_int_large by lia.
    rewrite (decimal_ten_digits extra) by lia.
    rewrite decimal_ten_digits; [reflexivity | lia].
Qed.

Lemma num_digits_extra_short (extra : Z) :
  2 ^ 32 - 10 ^ 9 < extra < 2 ^ 32 ->
  exists k, num_digits (to_int extra) = Some k /\ k < strlen (fmt_u extra).
Proof.
  intros H. rewrite num_digits_decimal. eexists. split; [reflexivity|].
  unfold fmt_u, UINT32_MOD. rewrite (Z.mod_small extra) by lia.
  rewrite to_int_large by lia. rewrite (decimal_ten_digits extra) by lia.
  pose proof (decimal_width (Z.abs (extra - 2 ^ 32)) 9 ltac:(lia) ltac:(lia) ltac:(lia)).
  lia.
Qed.

(** X2.
    X2.
    The buffer kstate_get_unique_name allocates holds the text and its
    terminating NUL exactly, as long as the time, the process id and the
    counter are in the ranges where num_digits, which works on an int,
    counts the digits that printf writes. *)
Theorem unique_name_fits prefix sec usec pid extra w :
  0 <= sec < 2 ^ 31 -> 0 <= usec < 10 ^ 6 -> 0 <= pid < 2 ^ 31 ->
  0 <= extra <= 2 ^ 32 - 10 ^ 9 ->
  hd None (faults w) = None -> 0 < brk w ->
  let text := unique_name_text prefix sec usec pid extra in
  exists w',
    kstate_get_unique_name (Some prefix) (Some (sec, usec)) pid extra w
    = Done (brk w, (extra + 1) mod UINT32_MOD) w'
    /\ mem w' = <[brk w := RName text]> (mem w)
    /\ brk w' = brk w + (strlen text + 1)
    /\ shm_names w' = shm_names w /\ shm_objs w' = shm_objs w /\ fds w' = fds w.
Proof.
  intros Hsec Husec Hpid Hextra Hf Hb text.
  unfold kstate_get_unique_name.
  rewrite (num_digits_sec _ Hsec), (num_digits_pid _ Hpid), (num_digits_extra _ Hextra).
  pose proof (strlen_unique_name_text prefix sec usec pid extra) as Hlen.
  fold text in Hlen. rewrite (strlen_fmt_06ld _ Husec) in Hlen.
  fold text.
  set (n := strlen prefix + 1 + strlen (fmt_ld sec) + 6 + 1 + strlen (fmt_u pid) + 1
            + strlen (fmt_u extra) + 1).
  assert (Hn : n = strlen text + 1) by (unfold n; lia).
  pose proof (strlen_nonneg text) as Ht.
  clearbody n text. subst n.
  destruct w as [m b f nf sn so no sw ps en fl nsi nti]. ksimpl.
  unfold loop_result, NULL.
  eexists. split.
  - kexecf. reflexivity.
  - kflat. rewrite insert_insert_eq. repeat split. lia.
Qed.

(** X3.
    X3.
    Beyond that range the buffer is too short: once the counter has
    passed 2^32 - 10^9, its conversion to int is a negative number of
    fewer than ten digits, while printf writes the ten digits of the
    unsigned value, and sprintf runs over the end of the buffer. *)
Theorem unique_name_overflows prefix sec usec pid extra w :
  0 <= sec < 2 ^ 31 -> 0 <= usec < 10 ^ 6 -> 0 <= pid < 2 ^ 31 ->
  2 ^ 32 - 10 ^ 9 < extra < 2 ^ 32 ->
  hd None (faults w) = None -> 0 < brk w ->
  kstate_get_unique_name (Some prefix) (Some (sec, usec)) pid extra w = Crash.
Proof.
  intros Hsec Husec Hpid Hextra Hf Hb.
  unfold kstate_get_unique_name.
  destruct (num_digits_extra_short _ Hextra) as (k & Hk & Hshort).
  rewrite (num_digits_sec _ Hsec), (num_digits_pid _ Hpid), Hk.
  pose proof (strlen_unique_name_text prefix sec usec pid extra) as Hlen.
  rewrite (strlen_fmt_06ld _ Husec) in Hlen.
  set (text := unique_name_text prefix sec usec pid extra) in *.
  set (n := strlen prefix + 1 + strlen (fmt_ld sec) + 6 + 1 + strlen (fmt_u pid) + 1
            + k + 1).
  assert (Hn : n < strlen text + 1) by (unfold n; lia).
  clearbody n text.
  destruct w as [m b f nf sn so no sw ps en fl nsi nti]. ksimpl.
  unfold loop_result, NULL.
  kexecf. kprimg. kfwd. reflexivity.
Qed.

(** X4.
    X4.
    The three ways in which kstate_get_unique_name returns NULL: a NULL
    prefix, a failing gettimeofday, and a failing malloc.  None of them
    advances the counter or allocates anything. *)
Theorem unique_name_failures prefix now sec usec pid extra w e script :
  faults w = Some e :: script ->
  kstate_get_unique_name None now pid extra w = Done (NULL, extra) w
  /\ kstate_get_unique_name (Some prefix) None pid extra w = Done (NULL, extra) w
  /\ kstate_get_unique_name (Some prefix) (Some (sec, usec)) pid extra w
     = Done (NULL, extra) (set_errno ENOMEM (set_faults script w)).
Proof.
  intros Hf. split; [reflexivity|]. split; [reflexivity|].
  unfold kstate_get_unique_name.
  rewrite !num_digits_decimal. unfold loop_result.
  destruct w as [m b f nf sn so no sw ps en fl nsi nti]. ksimpl. subst fl.
  kexecf. reflexivity.
Qed.

Lemma digit_value_char (d : Z) : 0 <= d <= 9 -> digit_value (digit_char d) = d.
Proof.
  intros H. unfold digit_value, digit_char.
  rewrite N_ascii_embedding by lia. lia.
Qed.

Lemma is_digit_char (d : Z) : 0 <= d <= 9 -> is_digit (digit_char d) = true.
Proof.
  intros H. unfold is_digit, digit_char. cbn zeta.
  rewrite N_ascii_embedding by lia.
  apply andb_true_intro. split; apply Z.leb_le; lia.
Qed.

Lemma undecimal_loop_snoc (s : string) (c : ascii) :
  forall acc,
    undecimal_loop acc (s ++ String c "")
    = 10 * undecimal_loop acc s + digit_value c.
Proof.
  induction s as [|a s IH]; intros acc; simpl; [reflexivity | apply IH].
Qed.

Lemma undecimal_decimal_loop (fuel : nat) :
  forall n, 0 <= n -> (Z.to_nat (Z.log2 n) < fuel)%nat ->
            undecimal (decimal_loop fuel n) = n.
Proof.
  unfold undecimal.
  induction fuel as [|fuel IH]; intros n Hn Hf; [lia|].
  cbn [decimal_loop]. rewrite undecimal_loop_snoc.
  pose proof (Z.div_mod n 10 ltac:(lia)) as Hdm.
  pose proof (Z.mod_pos_bound n 10 ltac:(lia)) as Hm.
  pose proof (Z.div_pos n 10 Hn ltac:(lia)) as Hd.
  rewrite digit_value_char by lia.
  destruct (Z.eqb_spec (n / 10) 0) as [E|E]; [cbn; lia|].
  rewrite IH; [lia | lia |].
  pose proof (log2_div10 n ltac:(lia)). pose proof (Z.log2_nonneg (n / 10)). lia.
Qed.

(** Reading back what printf wrote. *)
Lemma undecimal_decimal (n : Z) : 0 <= n -> undecimal (decimal n) = n.
Proof. intros Hn. apply undecimal_decimal_loop; [assumption | lia]. Qed.

Lemma list_of_app (a b : string) :
  list_ascii_of_string (a ++ b) = list_ascii_of_string a ++ list_ascii_of_string b.
Proof. induction a as [|c a IH]; simpl; [reflexivity | now rewrite IH]. Qed.

Lemma digits_decimal_loop (fuel : nat) :
  forall n, 0 <= n ->
            forallb is_digit (list_ascii_of_string (decimal_loop fuel n)) = true.
Proof.
  induction fuel as [|fuel IH]; intros n Hn; [reflexivity|].
  cbn [decimal_loop]. rewrite list_of_app, forallb_app.
  pose proof (Z.mod_pos_bound n 10 ltac:(lia)) as Hm.
  pose proof (Z.div_pos n 10 Hn ltac:(lia)) as Hd.
  apply andb_true_intro. split.
  - destruct (n / 10 =? 0); [reflexivity | now apply IH].
  - cbn. rewrite is_digit_char by lia. reflexivity.
Qed.

Lemma digits_decimal (n : Z) :
  0 <= n -> forallb is_digit (list_ascii_of_string (decimal n)) = true.
Proof. apply digits_decimal_loop. Qed.

Lemma is_digit_not_dot (c : ascii) : is_digit c = true -> is_dot c = false.
Proof.
  unfold is_digit, is_dot. cbn zeta. intros H.
  apply Ascii.eqb_neq. intros ->. discriminate H.
Qed.

Lemma after_last_dot_loop_digits (l : list ascii) :
  forall acc, forallb is_digit l = true -> after_last_dot_loop l acc = acc ++ l.
Proof.
  induction l as [|c l IH]; intros acc H; cbn [after_last_dot_loop].
  - now rewrite app_nil_r.
  - cbn in H. apply andb_prop in H as [Hc Hl].
    rewrite (is_digit_not_dot _ Hc), IH by assumption.
    now rewrite <- app_assoc.
Qed.

Lemma after_last_dot_loop_app (a l : list ascii) :
  forall acc, after_last_dot_loop (a ++ "."%char :: l) acc = after_last_dot_loop l [].
Proof.
  induction a as [|c a IH]; intros acc; cbn [after_last_dot_loop app].
  - reflexivity.
  - apply IH.
Qed.

(** The last component of a dotted text that ends in digits. *)
Lemma after_last_dot_digits (a d : string) :
  forallb is_digit (list_ascii_of_string d) = true ->
  after_last_dot (a ++ "." ++ d) = d.
Proof.
  intros H. unfold after_last_dot.
  rewrite list_of_app. change (list_ascii_of_string ("." ++ d))
    with ("."%char :: list_ascii_of_string d).
  rewrite after_last_dot_loop_app, after_last_dot_loop_digits by assumption.
  cbn [app]. apply string_of_list_ascii_of_string.
Qed.

Lemma app_assoc_string (a b c : string) : ((a ++ b) ++ c = a ++ (b ++ c))%string.
Proof.
  induction a as [|x a IH]; [reflexivity|].
  change (String x ((a ++ b) ++ c) = String x (a ++ (b ++ c)))%string.
  f_equal. exact IH.
Qed.

Lemma unique_name_counter prefix sec usec pid extra :
  undecimal (after_last_dot (unique_name_text prefix sec usec pid extra))
  = extra mod UINT32_MOD.
Proof.
  unfold unique_name_text.
  rewrite <- !app_assoc_string.
  rewrite (app_assoc_string _ "." (fmt_u extra)).
  rewrite after_last_dot_digits.
  - unfold fmt_u. apply undecimal_decimal. apply Z.mod_pos_bound. reflexivity.
  - unfold fmt_u. apply digits_decimal. apply Z.mod_pos_bound. reflexivity.
Qed.

Lemma unique_texts_differ prefix sec usec pid prefix' sec' usec' pid' extra :
  unique_name_text prefix sec usec pid extra
  <> unique_name_text prefix' sec' usec' pid' ((extra + 1) mod UINT32_MOD).
Proof.
  intros E. apply (f_equal (fun s => undecimal (after_last_dot s))) in E.
  rewrite !unique_name_counter in E. rewrite Z.mod_mod in E by discriminate.
  unfold UINT32_MOD in E.
  pose proof (Z.mod_pos_bound extra (2 ^ 32) ltac:(lia)).
  rewrite <- Zplus_mod_idemp_l in E.
  destruct (Z.eq_dec (extra mod 2 ^ 32) (2 ^ 32 - 1)) as [H1|H1].
  - rewrite H1 in E. discriminate E.
  - rewrite (Z.mod_small (extra mod 2 ^ 32 + 1)) in E by lia. lia.
Qed.

Lemma unique_name_inv prefix now pid extra w p extra' w' :
  kstate_get_unique_name prefix now pid extra w = Done (p, extra') w' ->
  p <> NULL ->
  exists pre sec usec,
    prefix = Some pre /\ now = Some (sec, usec)
    /\ p = brk w /\ extra' = (extra + 1) mod UINT32_MOD
    /\ mem w' = <[p := RName (unique_name_text pre sec usec pid extra)]> (mem w)
    /\ brk w < brk w'.
Proof.
  unfold kstate_get_unique_name.
  destruct prefix as [pre|]; [|intros [= <- _ _]; congruence].
  destruct now as [[sec usec]|]; [|intros [= <- _ _]; congruence].
  rewrite !num_digits_decimal. unfold loop_result, NULL.
  destruct w as [m b f nf sn so no sw ps en fl nsi nti].
  kprimg. kflat.
  destruct (hd None fl) as [e|]; kflat.
  - intros [= <- _ _]; congruence.
  - destruct (Z.eqb_spec b 0) as [->|Hb]; [intros [= <- _ _]; congruence|].
    kflat. rewrite lookup_insert_eq.
    match goal with |- context [if ?c then _ else _] => destruct c end;
      [|discriminate].
    kflat. intros [= <- <- <-] _. exists pre, sec, usec. kflat.
    rewrite insert_insert_eq. repeat split. lia.
Qed.

(** X5.
    X5.
    The counter makes the names of one process differ: of two successive
    calls that both return a name, the second returns another block, and
    the name in it differs from the name in the first, whatever the
    prefixes, the clock and the process id are. *)
Theorem successive_unique_names_differ prefix1 now1 pid1 prefix2 now2 pid2
    extra w p1 extra1 w1 p2 extra2 w2 :
  kstate_get_unique_name prefix1 now1 pid1 extra w = Done (p1, extra1) w1 ->
  p1 <> NULL ->
  kstate_get_unique_name prefix2 now2 pid2 extra1 w1 = Done (p2, extra2) w2 ->
  p2 <> NULL ->
  p1 <> p2
  /\ exists name1 name2,
      mem w2 !! p1 = Some (RName name1) /\ mem w2 !! p2 = Some (RName name2)
      /\ name1 <> name2.
Proof.
  intros H1 N1 H2 N2.
  apply unique_name_inv in H1 as (pre1 & s1 & u1 & _ & _ & -> & -> & M1 & B1); [|exact N1].
  apply unique_name_inv in H2 as (pre2 & s2 & u2 & _ & _ & -> & -> & M2 & B2); [|exact N2].
  split; [lia|].
  eexists _, _. split; [|split].
  - rewrite M2, lookup_insert_ne by lia. rewrite M1. apply lookup_insert_eq.
  - rewrite M2. apply lookup_insert_eq.
  - apply unique_texts_differ.
Qed.

(** ** Generated names and check_state_name *)

Lemma begins_with_dot_app (a b : list ascii) :
  a <> [] -> begins_with_dot (a ++ b) = begins_with_dot a.
Proof. destruct a; [congruence | reflexivity]. Qed.

Lemma ends_with_dot_app (a b : list ascii) :
  b <> [] -> ends_with_dot (a ++ b) = ends_with_dot b.
Proof.
  intros Hb. induction a as [|c a IH]; [reflexivity|].
  cbn [app]. destruct (a ++ b) eqn:E.
  - destruct a, b; try discriminate E; congruence.
  - rewrite <- IH. reflexivity.
Qed.

Lemma adjacent_dots_app (a b : list ascii) :
  adjacent_dots (a ++ b)
  = adjacent_dots a || adjacent_dots b || (ends_with_dot a && begins_with_dot b).
Proof.
  induction a as [|c a IH]; cbn [app adjacent_dots ends_with_dot].
  - cbn. now rewrite orb_false_r.
  - rewrite IH. destruct a as [|c' a].
    + cbn [app begins_with_dot adjacent_dots ends_with_dot].
      destruct (is_dot c), (begins_with_dot b), (adjacent_dots b); reflexivity.
    + cbn [app begins_with_dot].
      destruct (is_dot c), (is_dot c'), (adjacent_dots (c' :: a)), (adjacent_dots b),
        (ends_with_dot (c' :: a)), (begins_with_dot b); reflexivity.
Qed.

Lemma is_digit_spec_name_char (c : ascii) : is_digit c = true -> spec_name_char c = true.
Proof.
  unfold is_digit, spec_name_char. cbn zeta. intros H.
  apply andb_prop in H as [H1 H2]. apply Z.leb_le in H1, H2.
  replace (48 <=? N_of_ascii c)%N with true by (symmetry; apply N.leb_le; lia).
  replace (N_of_ascii c <=? 57)%N with true by (symmetry; apply N.leb_le; lia).
  reflexivity.
Qed.

(** A run of digits: valid characters, no dots. *)
Lemma digits_no_dots (l : list ascii) :
  forallb is_digit l = true ->
  forallb spec_name_char l = true /\ begins_with_dot l = false
  /\ ends_with_dot l = false /\ adjacent_dots l = false.
Proof.
  induction l as [|c l IH]; intros H; [repeat split|].
  cbn in H. apply andb_prop in H as [Hc Hl]. destruct (IH Hl) as (I1 & I2 & I3 & I4).
  pose proof (is_digit_not_dot _ Hc) as Hd.
  cbn [forallb begins_with_dot ends_with_dot adjacent_dots].
  rewrite (is_digit_spec_name_char _ Hc), I1, Hd, I4.
  repeat split. destruct l; [reflexivity | exact I3].
Qed.

Lemma component_digits (l : list ascii) :
  l <> [] -> forallb is_digit l = true -> component l.
Proof. intros Hne H. split; [assumption | now apply digits_no_dots]. Qed.

Lemma component_dot (a b : list ascii) :
  component a -> component b -> component (a ++ "."%char :: b).
Proof.
  intros (A0 & A1 & A2 & A3 & A4) (B0 & B1 & B2 & B3 & B4).
  split; [destruct a; discriminate|].
  rewrite forallb_app, begins_with_dot_app, ends_with_dot_app, adjacent_dots_app
    by (assumption || discriminate).
  cbn [forallb begins_with_dot adjacent_dots].
  rewrite A1, A2, A3, A4, B1, B2, B4.
  change (ends_with_dot ("."%char :: b)) with
    (match b with [] => is_dot "."%char | _ => ends_with_dot b end).
  destruct b; [congruence|]. rewrite B3. repeat split.
Qed.

Lemma decimal_nonempty (n : Z) : 0 <= n -> list_ascii_of_string (decimal n) <> [].
Proof.
  intros Hn E. destruct (decimal_spec n Hn) as (H1 & _).
  rewrite strlen_list, E in H1. cbn in H1. lia.
Qed.

Lemma component_decimal (n : Z) :
  0 <= n -> component (list_ascii_of_string (decimal n)).
Proof.
  intros Hn. apply component_digits; [now apply decimal_nonempty | now apply digits_decimal].
Qed.

Lemma list_of_string_of_list (l : list ascii) :
  list_ascii_of_string (string_of_list_ascii l) = l.
Proof. apply list_ascii_of_string_of_list_ascii. Qed.

Lemma forallb_repeat_zero (n : nat) : forallb is_digit (repeat "0"%char n) = true.
Proof. induction n; [reflexivity | exact IHn]. Qed.

Lemma component_time (sec usec : Z) :
  0 <= sec -> 0 <= usec ->
  component (list_ascii_of_string (fmt_ld sec ++ fmt_06ld usec)).
Proof.
  intros Hs Hu. unfold fmt_ld, fmt_06ld, zero_pad.
  destruct (Z.ltb_spec sec 0); [lia|]. destruct (Z.ltb_spec usec 0); [lia|].
  rewrite !list_of_app, list_of_string_of_list.
  apply component_digits.
  - intros E. apply app_eq_nil in E as [E _]. now apply decimal_nonempty in E.
  - rewrite !forallb_app, !digits_decimal, forallb_repeat_zero by assumption. reflexivity.
Qed.

Lemma unique_name_list prefix sec usec pid extra :
  list_ascii_of_string (unique_name_text prefix sec usec pid extra)
  = list_ascii_of_string prefix
    ++ "."%char :: list_ascii_of_string (fmt_ld sec ++ fmt_06ld usec)
    ++ "."%char :: list_ascii_of_string (fmt_u pid)
    ++ "."%char :: list_ascii_of_string (fmt_u extra).
Proof.
  unfold unique_name_text. rewrite !list_of_app. cbn [list_ascii_of_string app].
  rewrite <- !app_assoc. reflexivity.
Qed.

Lemma spec_valid_component (s : string) :
  spec_valid_name s = true <->
  component (list_ascii_of_string s) /\ strlen s <= 254.
Proof.
  unfold spec_valid_name, component. cbn zeta. rewrite strlen_list.
  rewrite !andb_true_iff, !negb_true_iff, Z.eqb_neq, Z.leb_le.
  split.
  - intros (((((H0 & H1) & H2) & H3) & H4) & H5).
    repeat split; try assumption. intros E. rewrite E in H0. now apply H0.
  - intros ((H0 & H2 & H3 & H4 & H5) & H1).
    repeat split; try assumption.
    destruct (list_ascii_of_string s); [congruence | cbn [length]; lia].
Qed.

Lemma nth_char_app_dot (p r : list ascii) (c : ascii) :
  p <> [] -> is_dot c = false ->
  is_dot (nth_char (p ++ "."%char :: c :: r) 2)
  = (Z.of_nat (length p) =? 2) || is_dot (nth_char p 2).
Proof.
  intros Hp Hc. destruct p as [|a [|b [|d p]]]; [congruence | exact Hc | reflexivity |].
  unfold nth_char. cbn [app nth_error length].
  replace (Z.of_nat (S (S (S (length p)))) =? 2) with false
    by (symmetry; apply Z.eqb_neq; lia).
  reflexivity.
Qed.

(** X6.
    X6.
    Which of the names kstate_get_unique_name makes can be subscribed to:
    check_state_name accepts the name made from a valid prefix (returning
    its length) unless the prefix has exactly two characters or a dot as
    its third; it is then the dot at index 2 of the generated name that
    check_state_name takes for an adjacent one. *)
Theorem unique_name_checked prefix sec usec pid extra :
  0 <= sec -> 0 <= usec ->
  spec_valid_name prefix = true ->
  let text := unique_name_text prefix sec usec pid extra in
  strlen text <= 254 ->
  check_state_name (Some text)
  = if (strlen prefix =? 2) || is_dot (char_at prefix 2) then 0 else strlen text.
Proof.
  intros Hs Hu Hp text Hlen.
  apply spec_valid_component in Hp as [Hp _].
  assert (Hv : spec_valid_name text = true).
  { apply spec_valid_component. split; [|exact Hlen].
    unfold text. rewrite unique_name_list.
    apply component_dot; [exact Hp|].
    apply component_dot; [now apply component_time|].
    apply component_dot; unfold fmt_u; apply component_decimal;
      apply Z.mod_pos_bound; reflexivity. }
  assert (Hd : is_dot (char_at text 2)
               = (strlen prefix =? 2) || is_dot (char_at prefix 2)).
  { rewrite !char_at_list, strlen_list. unfold text. rewrite unique_name_list.
    change (Z.to_nat 2) with 2%nat.
    destruct (component_time sec usec Hs Hu) as (T0 & _ & T2 & _).
    destruct (list_ascii_of_string (fmt_ld sec ++ fmt_06ld usec)) as [|c r];
      [congruence|].
    cbn [app]. apply nth_char_app_dot; [apply Hp | exact T2]. }
  pose proof (check_state_name_accepts_iff text) as Hiff.
  destruct (check_state_name_value text) as [E|E].
  - rewrite E. destruct ((strlen prefix =? 2) || is_dot (char_at prefix 2)) eqn:D;
      [reflexivity|].
    exfalso. rewrite E in Hiff. apply (proj2 Hiff); [|reflexivity].
    split; [exact Hv | now rewrite Hd].
  - rewrite E. destruct ((strlen prefix =? 2) || is_dot (char_at prefix 2)) eqn:D;
      [|reflexivity].
    assert (Hnz : check_state_name (Some text) <> 0).
    { rewrite E. destruct Hp as (P0 & _).
      rewrite strlen_list. unfold text. rewrite unique_name_list.
      rewrite length_app. cbn [length]. lia. }
    apply Hiff in Hnz as [_ Hnd]. rewrite Hd in Hnd. discriminate Hnd.
Qed.

Lemma unique_name_fits_witness :
  exists w',
    kstate_get_unique_name (Some "Fred"%string) (Some (1359111111, 42)) 1234 7
      (init_world 4096 [])
    = Done (1, 8) w'
    /\ mem w' !! 1 = Some (RName "Fred.1359111111000042.1234.7")
    /\ brk w' = 30.
Proof.
  destruct (unique_name_fits "Fred" 1359111111 42 1234 7 (init_world 4096 []))
    as (w' & H & Hm & Hb & _); try lia; try reflexivity.
  exists w'. split; [exact H|]. split; [rewrite Hm; apply lookup_insert_eq | exact Hb].
Defined.

Lemma unique_name_overflows_witness :
  kstate_get_unique_name (Some "Fred"%string) (Some (1359111111, 42)) 1234 4294967295
    (init_world 4096 [])
  = Crash.
Proof.
  apply (unique_name_overflows "Fred" 1359111111 42 1234 4294967295 (init_world 4096 []));
    try lia; reflexivity.
Defined.

Lemma unique_name_failures_witness :
  kstate_get_unique_name (Some "Fred"%string) (Some (1359111111, 42)) 1234 7 out_of_memory
  = Done (NULL, 7) (set_errno ENOMEM (set_faults [] out_of_memory)).
Proof.
  apply (unique_name_failures "Fred" None 1359111111 42 1234 7 out_of_memory
           12%positive []).
  reflexivity.
Defined.

Lemma successive_unique_names_differ_witness :
  exists name1 name2,
    mem demo_named_twice !! 1 = Some (RName name1)
    /\ mem demo_named_twice !! 30 = Some (RName name2)
    /\ name1 <> name2.
Proof.
  destruct (successive_unique_names_differ
              (Some "Fred"%string) (Some (1359111111, 42)) 1234
              (Some "Fred"%string) (Some (1359111111, 42)) 1234
              7 (init_world 4096 []) 1 8 demo_named 30 9 demo_named_twice)
    as (_ & n1 & n2 & H); try discriminate; try (vm_compute; reflexivity).
  exists n1, n2. exact H.
Defined.

Lemma unique_name_checked_witness :
  check_state_name (Some (unique_name_text "Fred" 1359111111 42 1234 7)) = 28
  /\ check_state_name (Some (unique_name_text "ab" 1359111111 42 1234 7)) = 0.
Proof.
  split.
  - apply (unique_name_checked "Fred" 1359111111 42 1234 7); try lia; try reflexivity.
    vm_compute. discriminate.
  - apply (unique_name_checked "ab" 1359111111 42 1234 7); try lia; try reflexivity.
    vm_compute. discriminate.
Defined.
(** Setters applied to a world given field by field, innermost first. *)
Ltac kset1 :=
  match goal with
  | |- context [set_mem ?v (mk_world ?a ?b ?c ?d ?e ?f ?g ?h ?i ?j ?k ?l ?m)] =>
      change (set_mem v (mk_world a b c d e f g h i j k l m))
        with (mk_world v b c d e f g h i j k l m)
  | |- context [set_brk ?v (mk_world ?a ?b ?c ?d ?e ?f ?g ?h ?i ?j ?k ?l ?m)] =>
      change (set_brk v (mk_world a b c d e f g h i j k l m))
        with (mk_world a v c d e f g h i j k l m)
  | |- context [set_fds ?v (mk_world ?a ?b ?c ?d ?e ?f ?g ?h ?i ?j ?k ?l ?m)] =>
      change (set_fds v (mk_world a b c d e f g h i j k l m))
        with (mk_world a b v d e f g h i j k l m)
  | |- context [set_next_fd ?v (mk_world ?a ?b ?c ?d ?e ?f ?g ?h ?i ?j ?k ?l ?m)] =>
      change (set_next_fd v (mk_world a b c d e f g h i j k l m))
        with (mk_world a b c v e f g h i j k l m)
  | |- context [set_shm_names ?v (mk_world ?a ?b ?c ?d ?e ?f ?g ?h ?i ?j ?k ?l ?m)] =>
      change (set_shm_names v (mk_world a b c d e f g h i j k l m))
        with (mk_world a b c d v f g h i j k l m)
  | |- context [set_shm_objs ?v (mk_world ?a ?b ?c ?d ?e ?f ?g ?h ?i ?j ?k ?l ?m)] =>
      change (set_shm_objs v (mk_world a b c d e f g h i j k l m))
        with (mk_world a b c d e v g h i j k l m)
  | |- context [set_next_obj ?v (mk_world ?a ?b ?c ?d ?e ?f ?g ?h ?i ?j ?k ?l ?m)] =>
      change (set_next_obj v (mk_world a b c d e f g h i j k l m))
        with (mk_world a b c d e f v h i j k l m)
  | |- context [set_shm_writes ?v (mk_world ?a ?b ?c ?d ?e ?f ?g ?h ?i ?j ?k ?l ?m)] =>
      change (set_shm_writes v (mk_world a b c d e f g h i j k l m))
        with (mk_world a b c d e f g v i j k l m)
  | |- context [set_errno ?v (mk_world ?a ?b ?c ?d ?e ?f ?g ?h ?i ?j ?k ?l ?m)] =>
      change (set_errno v (mk_world a b c d e f g h i j k l m))
        with (mk_world a b c d e f g h i v k l m)
  | |- context [set_faults ?v (mk_world ?a ?b ?c ?d ?e ?f ?g ?h ?i ?j ?k ?l ?m)] =>
      change (set_faults v (mk_world a b c d e f g h i j k l m))
        with (mk_world a b c d e f g h i j v l m)
  | |- context [set_next_state_id ?v (mk_world ?a ?b ?c ?d ?e ?f ?g ?h ?i ?j ?k ?l ?m)] =>
      change (set_next_state_id v (mk_world a b c d e f g h i j k l m))
        with (mk_world a b c d e f g h i j k v m)
  | |- context [set_next_transaction_id ?v (mk_world ?a ?b ?c ?d ?e ?f ?g ?h ?i ?j ?k ?l ?m)] =>
      change (set_next_transaction_id v (mk_world a b c d e f g h i j k l m))
        with (mk_world a b c d e f g h i j k l v)
  end.

(** The same for the two structs. *)
Ltac kfield1 :=
  match goal with
  | |- context [set_tr_name ?v (mk_transaction ?a ?b ?c ?d ?e ?f ?g)] =>
      change (set_tr_name v (mk_transaction a b c d e f g))
        with (mk_transaction v b c d e f g)
  | |- context [set_tr_id ?v (mk_transaction ?a ?b ?c ?d ?e ?f ?g)] =>
      change (set_tr_id v (mk_transaction a b c d e f g))
        with (mk_transaction a v c d e f g)
  | |- context [set_tr_permissions ?v (mk_transaction ?a ?b ?c ?d ?e ?f ?g)] =>
      change (set_tr_permissions v (mk_transaction a b c d e f g))
        with (mk_transaction a b v d e f g)
  | |- context [set_tr_state_map_addr ?v (mk_transaction ?a ?b ?c ?d ?e ?f ?g)] =>
      change (set_tr_state_map_addr v (mk_transaction a b c d e f g))
        with (mk_transaction a b c v e f g)
  | |- context [set_tr_state_map_copy ?v (mk_transaction ?a ?b ?c ?d ?e ?f ?g)] =>
      change (set_tr_state_map_copy v (mk_transaction a b c d e f g))
        with (mk_transaction a b c d v f g)
  | |- context [set_tr_map_addr ?v (mk_transaction ?a ?b ?c ?d ?e ?f ?g)] =>
      change (set_tr_map_addr v (mk_transaction a b c d e f g))
        with (mk_transaction a b c d e v g)
  | |- context [set_tr_map_length ?v (mk_transaction ?a ?b ?c ?d ?e ?f ?g)] =>
      change (set_tr_map_length v (mk_transaction a b c d e f g))
        with (mk_transaction a b c d e f v)
  | |- context [set_st_name ?v (mk_state ?a ?b ?c ?d ?e)] =>
      change (set_st_name v (mk_state a b c d e)) with (mk_state v b c d e)
  | |- context [set_st_permissions ?v (mk_state ?a ?b ?c ?d ?e)] =>
      change (set_st_permissions v (mk_state a b c d e)) with (mk_state a v c d e)
  | |- context [set_st_id ?v (mk_state ?a ?b ?c ?d ?e)] =>
      change (set_st_id v (mk_state a b c d e)) with (mk_state a b v d e)
  | |- context [set_st_map_addr ?v (mk_state ?a ?b ?c ?d ?e)] =>
      change (set_st_map_addr v (mk_state a b c d e)) with (mk_state a b c v e)
  | |- context [set_st_map_length ?v (mk_state ?a ?b ?c ?d ?e)] =>
      change (set_st_map_length v (mk_state a b c d e)) with (mk_state a b c d v)
  end.

Ltac kset := repeat first [ kset1 | kfield1 | progress ksimplg ].

Lemma bind_assoc {A B C} (m : M A) (f : A -> M B) (g : B -> M C) w :
  bind (bind m f) g w = bind m (fun x => bind (f x) g) w.
Proof. unfold bind. destruct (m w); reflexivity. Qed.

(** One call at a time, on a world given field by field. *)
Ltac kcall1 :=
  first
    [ progress kset
    | match goal with
      | |- context [bind (bind ?m ?f) ?g ?w] => rewrite (bind_assoc m f g w)
      | |- context [bind ?m ?k ?w] =>
          lazymatch m with
          | match _ with _ => _ end => fail
          | _ =>
              let E := fresh "E" in
              eassert (m w = Done _ _) as E by (kprimg; kset; kfwd; kset; reflexivity);
              rewrite (bind_Done m k w _ _ E); clear E
          end
      | E : ?x = _ |- context [match ?x with _ => _ end] => rewrite E
      | E : ?x = true |- context [?x] => progress rewrite E
      | E : ?x = false |- context [?x] => progress rewrite E
      end
    | kbool
    | kclosed ].

Ltac kcall := repeat kcall1.

(** The last call of a sequence. *)
Ltac klast := kprimg; kset; kfwd; kset; reflexivity.

(** * Concrete worlds *)

(** Freshness of the allocator in a concrete world is a finite check. *)
Lemma fresh_above_checked (w : world) :
  0 < brk w -> map_Forall (fun a _ => a < brk w) (mem w) -> fresh_above w.
Proof.
  intros Hb H. split; [exact Hb|].
  intros a Ha. destruct (mem w !! a) eqn:E; [|reflexivity].
  apply H in E. lia.
Qed.

Ltac fresh_concrete :=
  apply fresh_above_checked;
  [ vm_compute; reflexivity | apply (bool_decide_unpack _); vm_compute; exact I ].

Ltac concrete := vm_compute; first [ reflexivity | discriminate | congruence ].

Lemma fresh_state_ready (perms : Z) :
  state_permissions_are_bad perms = false ->
  ready_to_subscribe fresh_state 1 (mk_state 0 0 1 0 0) "Fred" perms.
Proof.
  intros Hp.
  split; [split; [|split]; concrete|].
  split; [concrete|]. split; [exact Hp|]. split; [concrete|].
  split; [concrete|]. split; [concrete|]. fresh_concrete.
Qed.

Lemma demo_peers_first :
  subscribed_state demo_peers 1 (mk_state 33 3 1 46 4) "/kstate.Fred" 1.
Proof. repeat split; concrete. Qed.

Lemma demo_peers_second :
  subscribed_state demo_peers 50 (mk_state 82 3 2 95 4) "/kstate.Fred" 1.
Proof. repeat split; concrete. Qed.

Lemma demo_peers_third (perms : Z) :
  state_permissions_are_bad perms = false ->
  ready_to_subscribe demo_peers 99 (mk_state 0 0 3 0 0) "Fred" perms.
Proof.
  intros Hp.
  split; [split; [|split]; concrete|].
  split; [concrete|]. split; [exact Hp|]. split; [concrete|].
  split; [concrete|]. split; [concrete|]. fresh_concrete.
Qed.

Lemma demo_peers_attempt :
  start_attempt demo_peers 50 (mk_state 82 3 2 95 4) 131 demo_inactive
    "/kstate.Fred" 1 KSTATE_WRITE.
Proof.
  split; [exact demo_peers_second|].
  split; [split; [|split; [|split; [|split; [|split]]]]; try concrete; left; concrete|].
  split; [concrete|]. split; [intros _; concrete|].
  split; [concrete|]. split; [concrete|]. fresh_concrete.
Qed.

Lemma demo_subscribed_state :
  subscribed_state demo_subscribed 1 demo_state "/kstate.Fred" 1.
Proof. repeat split; concrete. Qed.

Lemma demo_subscribed_attempt (perms : Z) :
  transaction_permissions_are_bad perms = false ->
  start_attempt demo_subscribed 1 demo_state 50 demo_inactive "/kstate.Fred" 1 perms.
Proof.
  intros Hp.
  split; [exact demo_subscribed_state|].
  split; [split; [|split; [|split; [|split; [|split]]]]; try concrete; left; concrete|].
  split; [exact Hp|]. split; [intros _; concrete|].
  split; [concrete|]. split; [concrete|]. fresh_concrete.
Qed.

Lemma demo_failing_attempt :
  start_attempt demo_failing 1 demo_state 50 demo_inactive "/kstate.Fred" 1 KSTATE_WRITE.
Proof.
  split; [repeat split; concrete|].
  split; [split; [|split; [|split; [|split; [|split]]]]; try concrete; left; concrete|].
  split; [concrete|]. split; [intros _; concrete|].
  split; [concrete|]. split; [concrete|]. fresh_concrete.
Qed.

Lemma demo_writable_state :
  subscribed_state demo_writable 1 demo_state "/kstate.Fred" 1.
Proof. repeat split; concrete. Qed.

Lemma demo_first_writer :
  writable_transaction demo_two_writers 50 (mk_transaction 98 1 3 111 115 119 4)
    "/kstate.Fred" 1 (zeros 4) (zeros 4) [x12; x34; x56; x78].
Proof. repeat split; concrete. Qed.

Lemma demo_second_writer :
  writable_transaction demo_two_writers 123 (mk_transaction 171 2 3 184 188 192 4)
    "/kstate.Fred" 1 (zeros 4) (zeros 4) [x9a; xbc; xde; xf0].
Proof. repeat split; concrete. Qed.

(** * Subscribing and unsubscribing *)

Lemma strlen_canonical (name : string) : strlen (canonical name) = strlen name + 8.
Proof.
  unfold canonical. rewrite strlen_app. change (strlen "/kstate.") with 8. lia.
Qed.

Lemma check_state_name_strlen (name : string) :
  check_state_name (Some name) <> 0 -> check_state_name (Some name) = strlen name.
Proof. destruct (check_state_name_value name); [congruence | auto]. Qed.

Lemma substring_all (s : string) : substring 0 (String.length s) s = s.
Proof. induction s as [|c s IH]; [reflexivity|]. cbn [String.length substring]. now rewrite IH. Qed.

Lemma reported_name_canonical (name : string) :
  reported_name (canonical name) = name.
Proof.
  unfold reported_name, canonical, KSTATE_NAME_PREFIX_LEN.
  change (Z.to_nat 8) with 8%nat.
  change ("/kstate." ++ name)%string
    with (String "/" (String "k" (String "s" (String "t" (String "a"
           (String "t" (String "e" (String "." name)))))))).
  cbn [String.length substring Nat.sub].
  rewrite Nat.sub_0_r. apply substring_all.
Qed.

Lemma resize_nil_zeros (n : Z) : resize (Z.to_nat n) x00 [] = zeros n.
Proof. unfold zeros. apply resize_nil. Qed.

Lemma blen_zeros (n : Z) : 0 <= n -> blen (zeros n) = n.
Proof. intros H. unfold blen, zeros. rewrite length_replicate. lia. Qed.

Lemma blen_resize (n : Z) (c : list byte) :
  0 <= n -> blen (resize (Z.to_nat n) x00 c) = n.
Proof. intros H. unfold blen. rewrite length_resize. lia. Qed.

Ltac subscribe_setup :=
  match goal with
  | H : ready_to_subscribe ?w ?st ?s ?name ?perms |- _ =>
      destruct H as ((Hs0 & Hs & Hn) & Hck & Hbad & F1 & Hfd & Hps & Hfr);
      pose proof (fresh_lt _ _ _ Hfr Hs) as Ls;
      destruct Hfr as [Hb Hfr];
      pose proof (check_state_name_strlen _ Hck) as Hlen;
      pose proof (strlen_canonical name) as Hcan;
      pose proof (strlen_nonneg name) as Hnn;
      unfold with_read in *;
      unfold subscribed_state, subscribed, with_read;
      unfold kstate_subscribe_state, new_state_name, kstate_state_is_subscribed,
        NULL, MAP_FAILED in *;
      rewrite Hlen;
      replace (strlen name =? 0) with false by (symmetry; apply Z.eqb_neq; lia);
      fold (canonical name);
      set (nm := canonical name) in *; clearbody nm;
      assert (Hfd' : (next_fd w <? 0) = false) by (apply Z.ltb_ge; lia);
      assert (Hps' : (page_size w <=? 0) = false) by (apply Z.leb_gt; lia);
      assert (Hps'' : (page_size w <? 0) = false) by (apply Z.ltb_ge; lia);
      destruct w as [m b f nf sn so no sw ps en fl nsi nti]; ksimpl
  end.

(** The first subscription, for writing: the object is created. *)
Lemma subscribe_creates_lemma w st s name perms :
  ready_to_subscribe w st s name perms ->
  has (with_read perms) KSTATE_WRITE = true ->
  shm_names w !! canonical name = None ->
  no_fault 3 (tl (faults w)) ->
  exists w',
    kstate_subscribe_state st (Some name) perms w = Done 0 w'
    /\ subscribed_state w' st (subscribed w s name perms) (canonical name) (next_obj w)
    /\ shm_names w' = <[canonical name := next_obj w]> (shm_names w)
    /\ shm_objs w' = <[next_obj w := zeros (page_size w)]> (shm_objs w)
    /\ fds w' !! next_fd w = None
    /\ (forall a, a < brk w -> a <> st -> mem w' !! a = mem w !! a).
Proof.
  intros Hr Hw Hnew (F2 & F3 & F4 & _).
  subscribe_setup.
  eexists. split; [kcall; reflexivity|].
  unfold ret. kset. kfields.
  replace (Z.max 1 (1 + 6 + 1 + strlen name + 1)) with (strlen nm + 1) by lia.
  rewrite !insert_insert_eq, resize_nil_zeros, lookup_delete_eq.
  repeat split; try assumption; try klia; try reflexivity;
    try (kmapg; reflexivity).
  intros a Ha Hne. kmapg. reflexivity.
Qed.

(** A later subscription for writing: the object is there, and ftruncate
    gives it the length of a page again. *)
Lemma subscribe_joins_for_write w st s name perms obj c :
  ready_to_subscribe w st s name perms ->
  has (with_read perms) KSTATE_WRITE = true ->
  shm_names w !! canonical name = Some obj ->
  shm_objs w !! obj = Some c ->
  no_fault 3 (tl (faults w)) ->
  exists w',
    kstate_subscribe_state st (Some name) perms w = Done 0 w'
    /\ subscribed_state w' st (subscribed w s name perms) (canonical name) obj
    /\ shm_names w' = shm_names w
    /\ shm_objs w' = <[obj := resize (Z.to_nat (page_size w)) x00 c]> (shm_objs w)
    /\ fds w' !! next_fd w = None
    /\ (forall a, a < brk w -> a <> st -> mem w' !! a = mem w !! a).
Proof.
  intros Hr Hw Hnm Hobj (F2 & F3 & F4 & _).
  subscribe_setup.
  eexists. split; [kcall; reflexivity|].
  unfold ret. kset. kfields.
  replace (Z.max 1 (1 + 6 + 1 + strlen name + 1)) with (strlen nm + 1) by lia.
  rewrite lookup_delete_eq.
  repeat split; try assumption; try klia; try reflexivity;
    try (kmapg; reflexivity).
  intros a Ha Hne. kmapg. reflexivity.
Qed.

(** A later subscription for reading alone: the object is mapped as it
    is. *)
Lemma subscribe_joins_for_read w st s name perms obj :
  ready_to_subscribe w st s name perms ->
  has (with_read perms) KSTATE_WRITE = false ->
  shm_names w !! canonical name = Some obj ->
  no_fault 2 (tl (faults w)) ->
  exists w',
    kstate_subscribe_state st (Some name) perms w = Done 0 w'
    /\ subscribed_state w' st (subscribed w s name perms) (canonical name) obj
    /\ shm_names w' = shm_names w
    /\ shm_objs w' = shm_objs w
    /\ fds w' !! next_fd w = None
    /\ (forall a, a < brk w -> a <> st -> mem w' !! a = mem w !! a).
Proof.
  intros Hr Hw Hnm (F2 & F3 & _).
  subscribe_setup.
  eexists. split; [kcall; reflexivity|].
  unfold ret. kset. kfields.
  replace (Z.max 1 (1 + 6 + 1 + strlen name + 1)) with (strlen nm + 1) by lia.
  rewrite lookup_delete_eq.
  repeat split; try assumption; try klia; try reflexivity;
    try (kmapg; reflexivity).
  intros a Ha Hne. kmapg. reflexivity.
Qed.

Lemma subscribed_observers w st s nm obj :
  subscribed_state w st s nm obj ->
  kstate_state_is_subscribed st w = Done true w
  /\ kstate_get_state_name st w = Done (st_name s + KSTATE_NAME_PREFIX_LEN) w
  /\ kstate_get_state_permissions st w = Done (st_permissions s) w
  /\ kstate_get_state_id st w = Done (st_id s) w
  /\ kstate_get_state_ptr st w = Done (st_map_addr s) w.
Proof.
  intros (Hs0 & Hs & Hn0 & _).
  unfold kstate_get_state_name, kstate_get_state_permissions, kstate_get_state_id,
    kstate_get_state_ptr, kstate_state_is_subscribed, NULL in *.
  repeat split; kexec; reflexivity.
Qed.

Lemma read_subscribed w st s nm obj c :
  subscribed_state w st s nm obj ->
  shm_objs w !! obj = Some c -> st_map_length s <= blen c ->
  read_state st (st_map_length s) w = Done (live_bytes c (st_map_length s)) w.
Proof.
  intros Hsub Hobj Hlen.
  destruct (subscribed_observers _ _ _ _ _ Hsub) as (_ & _ & _ & _ & Hp).
  destruct Hsub as (Hs0 & Hs & Hn0 & Hn & Hm0 & Hm1 & Hm & Hpos).
  unfold read_state. rewrite (bind_Done _ _ _ _ _ Hp).
  unfold mem_read. rewrite Hm, Hobj.
  rewrite has_r_read.
  replace (st_map_length s <=? st_map_length s) with true by (symmetry; apply Z.leb_le; lia).
  replace (st_map_length s <=? blen c) with true by (symmetry; apply Z.leb_le; lia).
  reflexivity.
Qed.

(** The mapping of a state is read-only, whatever its permissions: a
    store through the state's pointer is a fault. *)
Lemma write_subscribed w st s nm obj bytes :
  subscribed_state w st s nm obj -> write_state st bytes w = Crash.
Proof.
  intros Hsub.
  destruct (subscribed_observers _ _ _ _ _ Hsub) as (_ & _ & _ & _ & Hp).
  destruct Hsub as (Hs0 & Hs & Hn0 & Hn & Hm0 & Hm1 & Hm & Hpos).
  unfold write_state. rewrite (bind_Done _ _ _ _ _ Hp).
  unfold mem_write. rewrite Hm. destruct (shm_objs w !! obj); reflexivity.
Qed.

Lemma take_zeros (n : Z) : live_bytes (zeros n) n = zeros n.
Proof. unfold live_bytes, zeros. apply take_ge. rewrite length_replicate. lia. Qed.

(** X7.
    The first subscription to a name, for writing, creates the state: it
    returns 0; the handle is subscribed with READ added to its
    permissions; the name it reports is the name given; the shm object is
    new and bound to the canonical name; the region is one page of zeros,
    which can be read through the state's pointer but not written; and the
    descriptor is closed again. *)
Theorem first_subscription_creates_state w st s name perms :
  ready_to_subscribe w st s name perms ->
  has (with_read perms) KSTATE_WRITE = true ->
  shm_names w !! canonical name = None ->
  no_fault 3 (tl (faults w)) ->
  exists w' block,
    kstate_subscribe_state st (Some name) perms w = Done 0 w'
    /\ kstate_state_is_subscribed st w' = Done true w'
    /\ kstate_get_state_permissions st w' = Done (with_read perms) w'
    /\ kstate_get_state_id st w' = Done (st_id s) w'
    /\ kstate_get_state_name st w' = Done (block + KSTATE_NAME_PREFIX_LEN) w'
    /\ (exists text, mem w' !! block = Some (RName text) /\ reported_name text = name)
    /\ shm_names w' !! canonical name = Some (next_obj w)
    /\ shm_objs w' !! next_obj w = Some (zeros (page_size w))
    /\ read_state st (page_size w) w' = Done (zeros (page_size w)) w'
    /\ (forall bytes, bytes <> [] -> write_state st bytes w' = Crash)
    /\ fds w' !! next_fd w = None.
Proof.
  intros Hr Hw Hnew Hf.
  assert (Hps : 0 < page_size w) by apply Hr.
  destruct (subscribe_creates_lemma _ _ _ _ _ Hr Hw Hnew Hf)
    as (w' & Hsubs & Hsub & Hnames & Hobjs & Hfds & _).
  destruct (subscribed_observers _ _ _ _ _ Hsub) as (O1 & O2 & O3 & O4 & O5).
  assert (Hobj : shm_objs w' !! next_obj w = Some (zeros (page_size w)))
    by (rewrite Hobjs; apply lookup_insert_eq).
  pose proof (read_subscribed _ _ _ _ _ _ Hsub Hobj) as Hread.
  cbn [subscribed st_map_length] in Hread.
  rewrite take_zeros, blen_zeros in Hread by lia.
  exists w', (brk w).
  split; [exact Hsubs|]. split; [exact O1|]. split; [exact O3|]. split; [exact O4|].
  split; [exact O2|].
  split; [exists (canonical name); split; [apply Hsub | apply reported_name_canonical]|].
  split; [rewrite Hnames; apply lookup_insert_eq|].
  split; [exact Hobj|]. split; [apply Hread; lia|].
  split; [intros bytes _; apply (write_subscribed _ _ _ _ _ _ Hsub) | exact Hfds].
Qed.

Lemma first_subscription_creates_state_witness :
  exists w',
    kstate_subscribe_state 1 (Some "Fred"%string) KSTATE_WRITE fresh_state = Done 0 w'
    /\ kstate_get_state_permissions 1 w' = Done (Z.lor KSTATE_WRITE KSTATE_READ) w'
    /\ shm_names w' !! "/kstate.Fred"%string = Some 1
    /\ read_state 1 4096 w' = Done (zeros 4096) w'.
Proof.
  destruct (first_subscription_creates_state fresh_state 1 (mk_state 0 0 1 0 0)
              "Fred" KSTATE_WRITE)
    as (w' & block & H1 & _ & H3 & _ & _ & _ & H7 & _ & H9 & _).
  - apply fresh_state_ready. reflexivity.
  - reflexivity.
  - vm_compute. reflexivity.
  - repeat split.
  - exists w'. repeat split; assumption.
Defined.


Lemma resize_same (c : list byte) (n : Z) :
  blen c = n -> resize (Z.to_nat n) x00 c = c.
Proof. unfold blen. intros <-. rewrite Nat2Z.id. apply resize_all. Qed.

(** X8.
    A later subscription, for reading or for writing, joins the state: it
    maps the object the name is bound to, leaves its contents as they
    are, and reads them through the state's pointer. *)
Theorem later_subscription_joins_state w st s name perms obj c :
  ready_to_subscribe w st s name perms ->
  shm_names w !! canonical name = Some obj ->
  shm_objs w !! obj = Some c ->
  blen c = page_size w ->
  no_fault 3 (tl (faults w)) ->
  exists w',
    kstate_subscribe_state st (Some name) perms w = Done 0 w'
    /\ kstate_state_is_subscribed st w' = Done true w'
    /\ kstate_get_state_permissions st w' = Done (with_read perms) w'
    /\ shm_names w' = shm_names w
    /\ shm_objs w' = shm_objs w
    /\ read_state st (page_size w) w' = Done c w'
    /\ fds w' !! next_fd w = None.
Proof.
  intros Hr Hnm Hobj Hlen Hf.
  assert (exists w',
             kstate_subscribe_state st (Some name) perms w = Done 0 w'
             /\ subscribed_state w' st (subscribed w s name perms) (canonical name) obj
             /\ shm_names w' = shm_names w
             /\ shm_objs w' = shm_objs w
             /\ fds w' !! next_fd w = None) as (w' & Hsubs & Hsub & Hnames & Hobjs & Hfds).
  { destruct (has (with_read perms) KSTATE_WRITE) eqn:Hw.
    - destruct (subscribe_joins_for_write _ _ _ _ _ _ _ Hr Hw Hnm Hobj Hf)
        as (w' & H1 & H2 & H3 & H4 & H5 & _).
      exists w'. rewrite (resize_same _ _ Hlen) in H4.
      rewrite insert_id in H4 by exact Hobj. auto.
    - destruct Hf as (F2 & F3 & _).
      destruct (subscribe_joins_for_read _ _ _ _ _ _ Hr Hw Hnm (conj F2 (conj F3 I)))
        as (w' & H1 & H2 & H3 & H4 & H5 & _).
      exists w'. auto. }
  destruct (subscribed_observers _ _ _ _ _ Hsub) as (O1 & O2 & O3 & O4 & O5).
  assert (Hobj' : shm_objs w' !! obj = Some c) by (rewrite Hobjs; exact Hobj).
  pose proof (read_subscribed _ _ _ _ _ _ Hsub Hobj') as Hread.
  cbn [subscribed st_map_length] in Hread.
  unfold live_bytes in Hread. rewrite (take_all c) in Hread by exact Hlen.
  exists w'. repeat split; try assumption. apply Hread. lia.
Qed.

Lemma later_subscription_joins_state_witness :
  exists w',
    kstate_subscribe_state 99 (Some "Fred"%string) KSTATE_READ demo_peers = Done 0 w'
    /\ shm_objs w' = shm_objs demo_peers
    /\ read_state 99 4 w' = Done (zeros 4) w'.
Proof.
  destruct (later_subscription_joins_state demo_peers 99 (mk_state 0 0 3 0 0)
              "Fred" KSTATE_READ 1 (zeros 4))
    as (w' & H1 & _ & _ & _ & H5 & H6 & _).
  - apply demo_peers_third. reflexivity.
  - vm_compute. reflexivity.
  - vm_compute. reflexivity.
  - reflexivity.
  - repeat split.
  - exists w'. repeat split; assumption.
Defined.

(** X9.
    The first subscription to a name cannot be for reading alone: there
    is no object to open, so kstate_subscribe_state returns -ENOENT,
    frees the name again and leaves the handle unsubscribed; no object
    and no descriptor is made. *)
Theorem first_subscription_for_read_fails w st s name perms :
  ready_to_subscribe w st s name perms ->
  has (with_read perms) KSTATE_WRITE = false ->
  shm_names w !! canonical name = None ->
  hd None (tl (faults w)) = None ->
  exists w',
    kstate_subscribe_state st (Some name) perms w = Done (- ENOENT) w'
    /\ kstate_state_is_subscribed st w' = Done false w'
    /\ mem w' !! st = Some (RState (mk_state NULL 0 (st_id s) (st_map_addr s)
                                             (st_map_length s)))
    /\ (forall a, a <> st -> mem w' !! a = mem w !! a)
    /\ shm_names w' = shm_names w /\ shm_objs w' = shm_objs w
    /\ fds w' = fds w.
Proof.
  intros Hr Hw Hnew F2.
  assert (Hfresh : forall a, brk w <= a -> mem w !! a = None) by apply Hr.
  subscribe_setup.
  eexists. split; [kcall; reflexivity|].
  unfold ret, kstate_state_is_subscribed. kset. kfields.
  split.
  { replace (st =? 0) with false by (symmetry; apply Z.eqb_neq; assumption).
    kcall. reflexivity. }
  split; [kmapg; reflexivity|].
  split; [|repeat split].
  intros a Ha. kmapg.
  destruct (Z.eq_dec a b) as [->|Hab].
  - rewrite lookup_delete_eq. symmetry. apply Hfresh. ksimpl. lia.
  - kmapg. reflexivity.
Qed.

Lemma first_subscription_for_read_fails_witness :
  exists w',
    kstate_subscribe_state 1 (Some "Fred"%string) KSTATE_READ fresh_state
    = Done (- ENOENT) w'
    /\ kstate_state_is_subscribed 1 w' = Done false w'.
Proof.
  destruct (first_subscription_for_read_fails fresh_state 1 (mk_state 0 0 1 0 0)
              "Fred" KSTATE_READ)
    as (w' & H1 & H2 & _).
  - apply fresh_state_ready. reflexivity.
  - reflexivity.
  - vm_compute. reflexivity.
  - reflexivity.
  - exists w'. split; assumption.
Defined.


(** X10.
    Arguments that kstate_subscribe_state refuses before it does
    anything: a NULL handle, a handle that is still subscribed and, for a
    name that is not NULL, no permission bit or bits other than READ and
    WRITE.  Each gives -EINVAL and changes nothing. *)
Theorem subscribe_refuses_bad_arguments w st s nm obj name perms :
  kstate_subscribe_state NULL name perms w = Done (- EINVAL) w
  /\ (subscribed_state w st s nm obj ->
      kstate_subscribe_state st name perms w = Done (- EINVAL) w)
  /\ (unsubscribed_state w st s -> name <> None ->
      perms = 0 \/ Z.land perms (Z.lnot (Z.lor KSTATE_READ KSTATE_WRITE)) <> 0 ->
      kstate_subscribe_state st name perms w = Done (- EINVAL) w).
Proof.
  split; [reflexivity|]. split.
  - intros (Hs0 & Hs & Hn0 & _).
    unfold kstate_subscribe_state, kstate_state_is_subscribed, NULL in *.
    kexec. reflexivity.
  - intros (Hs0 & Hs & Hn) _ Hbad.
    assert (Hb : state_permissions_are_bad perms = true).
    { unfold state_permissions_are_bad. destruct Hbad as [->|Hbits]; [reflexivity|].
      destruct (perms =? 0); [reflexivity|].
      apply Z.eqb_neq in Hbits. now rewrite Hbits. }
    unfold kstate_subscribe_state, kstate_state_is_subscribed, NULL in *.
    kexec. reflexivity.
Qed.

Lemma subscribe_refuses_bad_arguments_witness :
  kstate_subscribe_state 1 (Some "Jim"%string) KSTATE_READ demo_subscribed
  = Done (- EINVAL) demo_subscribed
  /\ kstate_subscribe_state 1 (Some "Fred"%string) 4 fresh_state
     = Done (- EINVAL) fresh_state.
Proof.
  split.
  - destruct (subscribe_refuses_bad_arguments demo_subscribed 1 demo_state "/kstate.Fred" 1
                (Some "Jim"%string) KSTATE_READ) as (_ & H & _).
    apply H. exact demo_subscribed_state.
  - destruct (subscribe_refuses_bad_arguments fresh_state 1 (mk_state 0 0 1 0 0)
                "/kstate.Fred" 1 (Some "Fred"%string) 4) as (_ & _ & H).
    apply H.
    + repeat split; concrete.
    + discriminate.
    + right. discriminate.
Defined.

Lemma with_read_idempotent (perms : Z) : with_read (with_read perms) = with_read perms.
Proof.
  unfold with_read. destruct (has perms KSTATE_READ) eqn:E; cbn [negb]; [now rewrite E|].
  assert (H : has (Z.lor perms KSTATE_READ) KSTATE_READ = true).
  { unfold has, KSTATE_READ. rewrite Z.land_lor_distr_l.
    change (Z.land 1 1) with 1.
    destruct (Z.eqb_spec (Z.lor (Z.land perms 1) 1) 0) as [E0|]; [|reflexivity].
    apply Z.lor_eq_0_iff in E0 as [_ E0]. discriminate E0. }
  now rewrite H.
Qed.

Lemma with_read_bad (perms : Z) :
  perms <> 0 ->
  state_permissions_are_bad (with_read perms) = state_permissions_are_bad perms
  /\ transaction_permissions_are_bad (with_read perms)
     = transaction_permissions_are_bad perms.
Proof.
  intros Hp. unfold with_read.
  destruct (has perms KSTATE_READ); cbn [negb]; [split; reflexivity|].
  unfold state_permissions_are_bad, transaction_permissions_are_bad, KSTATE_READ, KSTATE_WRITE.
  assert (Hor : Z.lor perms 1 <> 0).
  { intros E. apply Z.lor_eq_0_iff in E as [_ E]. discriminate E. }
  assert (Hbits : Z.land (Z.lor perms 1) (Z.lnot (Z.lor 1 2))
                  = Z.land perms (Z.lnot (Z.lor 1 2))).
  { rewrite Z.land_lor_distr_l. change (Z.land 1 (Z.lnot (Z.lor 1 2))) with 0.
    apply Z.lor_0_r. }
  rewrite Hbits.
  replace (Z.lor perms 1 =? 0) with false by (symmetry; now apply Z.eqb_neq).
  replace (perms =? 0) with false by (symmetry; now apply Z.eqb_neq).
  split; reflexivity.
Qed.

(** X11.
    READ is implied: permissions without the READ bit behave, in a
    subscription and in the start of a transaction, as the same
    permissions with it (KSTATE_WRITE is KSTATE_WRITE|KSTATE_READ): the
    same result, and the same memory, descriptors and shm objects
    afterwards.  Only the diagnostic line that kstate_subscribe_state
    prints, which is not part of the model, shows the permissions as they
    were given. *)
Theorem read_permission_is_implied st tp name perms w :
  perms <> 0 ->
  kstate_subscribe_state st name perms w
  = kstate_subscribe_state st name (with_read perms) w
  /\ kstate_start_transaction tp st perms w
     = kstate_start_transaction tp st (with_read perms) w.
Proof.
  intros Hp. destruct (with_read_bad perms Hp) as [Hs Ht].
  pose proof (with_read_idempotent perms) as Hi. unfold with_read in Hi at 1.
  unfold kstate_subscribe_state, kstate_start_transaction.
  rewrite Hs, Ht, Hi. split; reflexivity.
Qed.

Lemma read_permission_is_implied_witness :
  kstate_subscribe_state 1 (Some "Fred"%string) KSTATE_WRITE fresh_state
  = kstate_subscribe_state 1 (Some "Fred"%string) (Z.lor KSTATE_WRITE KSTATE_READ) fresh_state.
Proof.
  apply (read_permission_is_implied 1 0 (Some "Fred"%string) KSTATE_WRITE fresh_state).
  discriminate.
Defined.

(** ** Unsubscribing *)

Lemma unsubscribe_done w st s nm obj :
  subscribed_state w st s nm obj ->
  exists w',
    kstate_unsubscribe_state st w = Done tt w'
    /\ mem w' !! st = Some (RState (mk_state NULL 0 (st_id s) 0 0))
    /\ mem w' !! st_name s = None
    /\ mem w' !! st_map_addr s = None
    /\ (forall a, a <> st -> a <> st_name s -> a <> st_map_addr s ->
                  mem w' !! a = mem w !! a)
    /\ shm_names w' = delete nm (shm_names w)
    /\ shm_objs w' = shm_objs w
    /\ shm_writes w' = shm_writes w
    /\ fds w' = fds w
    /\ brk w' = brk w
    /\ faults w' = faults w /\ next_fd w' = next_fd w
    /\ page_size w' = page_size w /\ next_obj w' = next_obj w.
Proof.
  intros (Hs0 & Hs & Hsn0 & Hsn & Hsm0 & Hsm1 & Hsm & Hlen).
  assert (st <> st_name s) by congruence.
  assert (st <> st_map_addr s) by congruence.
  assert (st_name s <> st_map_addr s) by congruence.
  assert (Hlen' : (st_map_length s <=? 0) = false) by (apply Z.leb_gt; lia).
  unfold kstate_unsubscribe_state, NULL, MAP_FAILED in *.
  destruct w as [m b f nf sn so no sw ps en fl nsi nti]. ksimpl.
  destruct (sn !! nm) as [o|] eqn:Hnm.
  - eexists. split; [kcall; klast|].
    kset. kfields. repeat split; intros; kmapg; reflexivity.
  - eexists. split; [kcall; klast|].
    kset. kfields. rewrite (delete_id sn nm) by exact Hnm.
    repeat split; intros; kmapg; reflexivity.
Qed.

Lemma unsubscribed_observers w st s :
  unsubscribed_state w st s ->
  kstate_state_is_subscribed st w = Done false w
  /\ kstate_get_state_name st w = Done NULL w
  /\ kstate_get_state_permissions st w = Done 0 w
  /\ kstate_get_state_id st w = Done 0 w
  /\ kstate_get_state_ptr st w = Done NULL w.
Proof.
  intros (Hs0 & Hs & Hn).
  unfold kstate_get_state_name, kstate_get_state_permissions, kstate_get_state_id,
    kstate_get_state_ptr, kstate_state_is_subscribed, NULL in *.
  repeat split; kexec; reflexivity.
Qed.

Lemma unsubscribe_unsubscribed w st s :
  unsubscribed_state w st s ->
  st_map_addr s = NULL -> st_permissions s = 0 ->
  kstate_unsubscribe_state st w = Done tt w.
Proof.
  intros (Hs0 & Hs & Hn) Hm Hp.
  unfold kstate_unsubscribe_state, NULL in *.
  destruct w as [m b f nf sn so no sw ps en fl nsi nti]. ksimpl.
  kcall. kprimg. kset. kfwd. kset.
  rewrite insert_id; [reflexivity|]. rewrite Hs. do 2 f_equal.
  destruct s. cbn in *. subst. reflexivity.
Qed.

(** X12.
    Unsubscribing releases the name block and the mapping and resets the
    handle, which keeps its id; it also unlinks the name of the shm
    object, whoever else is subscribed to it, while the object itself
    lives on with its contents.  Unsubscribing again has no effect. *)
Theorem unsubscribe_releases_and_unlinks w st s nm obj c :
  subscribed_state w st s nm obj ->
  shm_objs w !! obj = Some c ->
  exists w',
    kstate_unsubscribe_state st w = Done tt w'
    /\ mem w' !! st = Some (RState (mk_state NULL 0 (st_id s) 0 0))
    /\ mem w' !! st_name s = None
    /\ mem w' !! st_map_addr s = None
    /\ kstate_state_is_subscribed st w' = Done false w'
    /\ kstate_get_state_ptr st w' = Done NULL w'
    /\ kstate_get_state_id st w' = Done 0 w'
    /\ shm_names w' !! nm = None
    /\ shm_objs w' !! obj = Some c
    /\ kstate_unsubscribe_state st w' = Done tt w'.
Proof.
  intros Hsub Hobj.
  destruct (unsubscribe_done _ _ _ _ _ Hsub)
    as (w' & Hu & Hst & Hn & Hm & _ & Hnames & Hobjs & _).
  assert (Hun : unsubscribed_state w' st (mk_state NULL 0 (st_id s) 0 0)).
  { split; [apply Hsub|]. split; [exact Hst | reflexivity]. }
  destruct (unsubscribed_observers _ _ _ Hun) as (O1 & _ & _ & O4 & O5).
  exists w'. split; [exact Hu|]. split; [exact Hst|]. split; [exact Hn|].
  split; [exact Hm|]. split; [exact O1|]. split; [exact O5|]. split; [exact O4|].
  split; [rewrite Hnames; apply lookup_delete_eq|].
  split; [rewrite Hobjs; exact Hobj|].
  apply (unsubscribe_unsubscribed _ _ _ Hun); reflexivity.
Qed.

Lemma unsubscribe_releases_and_unlinks_witness :
  exists w',
    kstate_unsubscribe_state 1 demo_subscribed = Done tt w'
    /\ kstate_state_is_subscribed 1 w' = Done false w'
    /\ shm_names w' !! "/kstate.Fred"%string = None
    /\ shm_objs w' !! 1 = Some (zeros 4).
Proof.
  destruct (unsubscribe_releases_and_unlinks demo_subscribed 1 demo_state
              "/kstate.Fred" 1 (zeros 4))
    as (w' & H1 & _ & _ & _ & H5 & _ & _ & H8 & H9 & _).
  - exact demo_subscribed_state.
  - vm_compute. reflexivity.
  - exists w'. repeat split; assumption.
Defined.

(** * Starting a transaction: what can go wrong *)

Ltac start_setup :=
  match goal with
  | H : start_attempt ?w ?st ?s ?tp ?t ?nm ?sobj ?perms |- _ =>
      destruct H as ((Hs0 & Hs & Hsn0 & Hsn & Hsm0 & Hsm1 & Hsm & Hlen)
                     & (Ht0 & Ht & Htn & Htl & Htc & Htw) & Hbad & Hperm & Hfd & Hnf & Hfr);
      pose proof (fresh_lt _ _ _ Hfr Hs) as Ls;
      pose proof (fresh_lt _ _ _ Hfr Ht) as Lt;
      pose proof (fresh_lt _ _ _ Hfr Hsn) as Lsn;
      pose proof (fresh_lt _ _ _ Hfr Hsm) as Lsm;
      pose proof Hfr as [Hb Hfresh];
      assert (Hst : st <> tp) by congruence;
      assert (Hlen' : (st_map_length s <=? 0) = false) by (apply Z.leb_gt; lia);
      assert (Hfd' : (next_fd w <? 0) = false) by (apply Z.ltb_ge; lia);
      assert (Hz : blen (zeros (st_map_length s)) = st_map_length s)
        by (unfold blen, zeros; rewrite length_replicate; lia);
      unfold with_read in *;
      unfold untouched_but, kstate_start_transaction, clear_transaction,
        kstate_transaction_is_active, kstate_state_is_subscribed, NULL, MAP_FAILED in *;
      destruct w as [m b f nf sn so no sw ps en fl nsi nti];
      destruct t as [tn ti tpm tl tc tw tlen];
      destruct s as [sname sperm sid smap slen]; ksimpl
  end.

(** Lookups in the memory a call leaves, at an address other than the
    handle's: what was allocated on the way has been deleted again. *)
Ltac released Hfresh :=
  match goal with
  | Ha : ?a <> ?p |- _ !! ?a = _ =>
      let Ha' := fresh "Ha" in
      assert (Ha' : p <> a) by (intros E; apply Ha; symmetry; exact E);
      repeat match goal with
        | |- delete ?k _ !! a = _ =>
            let E := fresh "E" in
            destruct (Z.eq_dec k a) as [E|E];
            [ rewrite <- E; rewrite lookup_delete_eq; symmetry; apply Hfresh; klia
            | rewrite (lookup_delete_ne _ _ _ E) ]
        | |- <[?k := _]> _ !! a = _ => rewrite lookup_insert_ne by assumption
        end;
      reflexivity
  end.

Ltac start_finish :=
  unfold ret; kset;
  rewrite ?delete_insert_id by assumption;
  repeat split;
  [ match goal with
    | |- (if ?p =? 0 then _ else _) _ = _ =>
        replace (p =? 0) with false by (symmetry; apply Z.eqb_neq; assumption)
    end; kcall; reflexivity
  | intros a Ha;
    match goal with H : forall a, _ <= a -> _ !! a = None |- _ => released H end ].

(** The name has been unlinked: shm_open finds no object. *)
Lemma start_without_object w st s tp t nm sobj perms :
  start_attempt w st s tp t nm sobj perms ->
  shm_names w !! nm = None ->
  no_fault 2 (faults w) ->
  exists w',
    kstate_start_transaction tp st perms w = Done (- ENOENT) w'
    /\ kstate_transaction_is_active tp w' = Done false w'
    /\ untouched_but w w' tp.
Proof.
  intros Ha Hnm (F1 & F2 & _).
  start_setup.
  destruct (has (if negb (has perms KSTATE_READ) then Z.lor perms KSTATE_READ else perms)
                KSTATE_WRITE) eqn:Hw.
  - pose proof (Hperm eq_refl) as Hsw.
    eexists. split; [kcall; reflexivity|]. start_finish.
  - eexists. split; [kcall; reflexivity|]. start_finish.
Qed.

(** What the script says about the first five fallible calls. *)
Ltac fault_facts Hf e :=
  match type of Hf with
  | ?fl = _ =>
      try assert (F1 : hd None fl = None) by (rewrite Hf; reflexivity);
      try assert (F1 : hd None fl = Some e) by (rewrite Hf; reflexivity);
      try assert (F2 : hd None (tl fl) = None) by (rewrite Hf; reflexivity);
      try assert (F2 : hd None (tl fl) = Some e) by (rewrite Hf; reflexivity);
      try assert (F3 : hd None (tl (tl fl)) = None) by (rewrite Hf; reflexivity);
      try assert (F3 : hd None (tl (tl fl)) = Some e) by (rewrite Hf; reflexivity);
      try assert (F4 : hd None (tl (tl (tl fl))) = None) by (rewrite Hf; reflexivity);
      try assert (F4 : hd None (tl (tl (tl fl))) = Some e) by (rewrite Hf; reflexivity);
      try assert (F5 : hd None (tl (tl (tl (tl fl)))) = None) by (rewrite Hf; reflexivity);
      try assert (F5 : hd None (tl (tl (tl (tl fl)))) = Some e) by (rewrite Hf; reflexivity)
  end.

Ltac start_fails r :=
  exists r; eexists; split; [kcall; reflexivity|];
  split; [solve [left; reflexivity | right; reflexivity]|]; start_finish.

(** X13.
    A start that fails part of the way cleans up after itself: whichever
    of its five fallible calls (malloc, shm_open, mmap, and then malloc
    and mmap for a writable transaction, mmap and mprotect for a
    read-only one) is the one that fails, kstate_start_transaction
    returns the negated errno, the transaction is not active, and every
    block, mapping and descriptor acquired on the way has been released
    again. *)
Theorem failed_start_releases_everything w st s tp t nm sobj perms obj c k e rest :
  start_attempt w st s tp t nm sobj perms ->
  shm_names w !! nm = Some obj ->
  shm_objs w !! obj = Some c ->
  st_map_length s <= blen c ->
  (k <= 4)%nat ->
  faults w = replicate k None ++ Some e :: rest ->
  exists r w',
    kstate_start_transaction tp st perms w = Done r w'
    /\ (r = - ENOMEM \/ r = - Z.pos e)
    /\ kstate_transaction_is_active tp w' = Done false w'
    /\ untouched_but w w' tp.
Proof.
  intros Ha Hnm Hobj Hc Hk Hf.
  assert (Hpos : 0 < st_map_length s) by apply Ha.
  assert (Hbl : blen (take (Z.to_nat (st_map_length s)) c) = st_map_length s)
    by (apply blen_live; lia).
  start_setup.
  assert (Hrw : has (Z.lor PROT_READ PROT_WRITE) PROT_WRITE = true) by reflexivity.
  destruct (has (if negb (has perms KSTATE_READ) then Z.lor perms KSTATE_READ else perms)
                KSTATE_WRITE) eqn:Hw;
    [pose proof (Hperm eq_refl) as Hsw|];
    (destruct k as [|[|[|[|[|k]]]]]; [| | | | |lia]);
    cbn [replicate app] in Hf; fault_facts Hf e; clear Hf.
  - start_fails (- ENOMEM).
  - start_fails (- Z.pos e).
  - destruct Htw as [Htw|Htw]; start_fails (- Z.pos e).
  - destruct Htw as [Htw|Htw]; start_fails (- ENOMEM).
  - start_fails (- Z.pos e).
  - start_fails (- ENOMEM).
  - start_fails (- Z.pos e).
  - destruct Htw as [Htw|Htw]; start_fails (- Z.pos e).
  - start_fails (- Z.pos e).
  - start_fails (- Z.pos e).
Qed.

Lemma failed_start_releases_everything_witness :
  exists w',
    kstate_start_transaction 50 1 KSTATE_WRITE demo_failing = Done (- ENOMEM) w'
    /\ kstate_transaction_is_active 50 w' = Done false w'
    /\ untouched_but demo_failing w' 50.
Proof.
  destruct (failed_start_releases_everything demo_failing 1 demo_state 50 demo_inactive
              "/kstate.Fred" 1 KSTATE_WRITE 1 (zeros 4) 2 12%positive [])
    as (r & w' & H1 & [Hr|Hr] & H3 & H4).
  - exact demo_failing_attempt.
  - vm_compute. reflexivity.
  - vm_compute. reflexivity.
  - vm_compute. discriminate.
  - lia.
  - reflexivity.
  - exists w'. rewrite <- Hr. repeat split; try assumption; apply H4.
  - exists w'. change (- ENOMEM) with (- Z.pos 12). rewrite <- Hr.
    repeat split; try assumption; apply H4.
Defined.

Lemma with_read_write perms :
  has (with_read perms) KSTATE_WRITE = has perms KSTATE_WRITE.
Proof.
  unfold with_read, has, KSTATE_WRITE, KSTATE_READ.
  destruct (negb (negb (Z.land perms 1 =? 0))); [|reflexivity].
  f_equal. f_equal.
  apply Z.bits_inj'. intros n Hn.
  rewrite !Z.land_spec, Z.lor_spec.
  destruct (Z.eq_dec n 1) as [->|Hn1].
  - change (Z.testbit 1 1) with false. rewrite orb_false_r. reflexivity.
  - replace (Z.testbit 2 n) with false; [rewrite !andb_false_r; reflexivity|].
    symmetry. destruct (Z.eq_dec n 0) as [->|Hn0]; [reflexivity|].
    change 2 with (2 ^ 1). rewrite Z.pow2_bits_eqb by lia. apply Z.eqb_neq. lia.
Qed.

(** X14.
    Arguments that kstate_start_transaction refuses before it does
    anything: a NULL transaction or state, a transaction that is still
    active, a state that is not subscribed, no permission bit or bits
    other than READ and WRITE, and a request to write to a state that was
    subscribed for reading alone. Each gives -EINVAL and changes
    nothing. *)
Theorem start_refuses_bad_arguments w tp t st s perms :
  tp = NULL
  \/ st = NULL
  \/ mem w !! tp = Some (RTrans t)
     /\ (tr_name t <> NULL
         \/ mem w !! st = Some (RState s)
            /\ (st_name s = NULL
                \/ perms = 0
                \/ Z.land perms (Z.lnot (Z.lor KSTATE_READ KSTATE_WRITE)) <> 0
                \/ has perms KSTATE_WRITE = true
                   /\ has (st_permissions s) KSTATE_WRITE = false)) ->
  kstate_start_transaction tp st perms w = Done (- EINVAL) w.
Proof.
  intros H.
  unfold kstate_start_transaction.
  destruct (Z.eqb_spec tp NULL) as [|Htp]; [reflexivity|].
  destruct (Z.eqb_spec st NULL) as [|Hst]; [reflexivity|].
  destruct H as [H|[H|(Ht & H)]]; [contradiction..|].
  unfold kstate_transaction_is_active, kstate_state_is_subscribed, NULL in *.
  destruct (Z.eqb_spec (tr_name t) 0) as [Hn|Hn].
  - destruct H as [H|(Hs & H)]; [contradiction|].
    destruct (Z.eqb_spec (st_name s) 0) as [Hsn|Hsn]; [kexec; reflexivity|].
    destruct H as [H|H]; [contradiction|].
    destruct (transaction_permissions_are_bad perms) eqn:Hbad; [kexec; reflexivity|].
    destruct H as [->|[H|(Hw & Hsw)]]; [discriminate Hbad| |].
    + exfalso. unfold transaction_permissions_are_bad in Hbad.
      destruct (perms =? 0); [discriminate|].
      apply Z.eqb_neq in H. rewrite H in Hbad. discriminate.
    + pose proof (with_read_write perms) as Hwr. unfold with_read in Hwr.
      rewrite Hw in Hwr.
      kexec. reflexivity.
  - kexec. reflexivity.
Qed.

Lemma start_refuses_bad_arguments_witness :
  kstate_start_transaction 50 1 KSTATE_READ demo_started = Done (- EINVAL) demo_started.
Proof.
  apply (start_refuses_bad_arguments demo_started 50 (mk_transaction 98 1 3 111 115 119 4)
           1 demo_state KSTATE_READ).
  right. right. split; [vm_compute; reflexivity|]. left. discriminate.
Defined.

(** * One subscriber unsubscribes *)

Lemma fresh_above_frame w w' :
  fresh_above w -> brk w' = brk w ->
  (forall a, brk w <= a -> mem w' !! a = mem w !! a) ->
  fresh_above w'.
Proof.
  intros [Hb Hf] Hbrk Hm. split; [lia|].
  intros a Ha. rewrite Hbrk in Ha. rewrite Hm by exact Ha. now apply Hf.
Qed.

Lemma subscribed_state_frame w w' st s nm obj :
  subscribed_state w st s nm obj ->
  mem w' !! st = mem w !! st ->
  mem w' !! st_name s = mem w !! st_name s ->
  mem w' !! st_map_addr s = mem w !! st_map_addr s ->
  subscribed_state w' st s nm obj.
Proof.
  intros (H1 & H2 & H3 & H4 & H5 & H6 & H7 & H8) E1 E2 E3.
  unfold subscribed_state. rewrite E1, E2, E3. repeat split; assumption.
Qed.

(** X15.
    When one of two subscribers of a name unsubscribes, the other can
    start no transaction any more: the name is unlinked, so the shm_open
    of the start finds nothing and the start returns -ENOENT, although the
    state it is started on is still subscribed. *)
Theorem peer_unsubscribe_stops_transactions w st1 s1 st2 s2 tp t nm obj sobj perms :
  subscribed_state w st1 s1 nm obj ->
  start_attempt w st2 s2 tp t nm sobj perms ->
  st_name s1 <> st_name s2 -> st_map_addr s1 <> st_map_addr s2 ->
  no_fault 2 (faults w) ->
  exists w',
    (kstate_unsubscribe_state st1 ;;; kstate_start_transaction tp st2 perms) w
    = Done (- ENOENT) w'
    /\ kstate_state_is_subscribed st2 w' = Done true w'
    /\ kstate_transaction_is_active tp w' = Done false w'.
Proof.
  intros Hsub1 Ha Hn Hm Hf.
  destruct (unsubscribe_done _ _ _ _ _ Hsub1)
    as (w1 & Hu & _ & _ & _ & Hframe & Hnames & Hobjs & _ & Hfds & Hbrk & Hfl & Hnfd & _).
  pose proof Hsub1 as (_ & L1 & L1n & L2 & _ & _ & L3 & _).
  destruct Ha as (Hsub2 & (Ht0 & Ht & Hidle) & Hbad & Hperm & Hfd & Hnf & Hfr).
  pose proof Hsub2 as (_ & K1 & K1n & K2 & _ & _ & K3 & _).
  pose proof (fresh_lt _ _ _ Hfr L1). pose proof (fresh_lt _ _ _ Hfr L2).
  pose proof (fresh_lt _ _ _ Hfr L3).
  assert (Ha1 : start_attempt w1 st2 s2 tp t nm sobj perms).
  { split; [|split; [|split; [|split; [|split; [|split]]]]]; try assumption.
    - apply (subscribed_state_frame w); [assumption | | |]; apply Hframe; congruence.
    - split; [assumption|]. split; [|assumption].
      rewrite Hframe by congruence. assumption.
    - now rewrite Hnfd.
    - now rewrite Hfds, Hnfd.
    - apply (fresh_above_frame w); [assumption | assumption |].
      intros a Hge. apply Hframe; lia. }
  destruct (start_without_object _ _ _ _ _ _ _ _ Ha1) as (w' & Hs & Hact & Hun).
  { rewrite Hnames. apply lookup_delete_eq. }
  { now rewrite Hfl. }
  exists w'. split; [|split].
  - unfold bind. rewrite Hu. exact Hs.
  - destruct Hun as (Hmem & _).
    assert (Hsub' : subscribed_state w' st2 s2 nm sobj).
    { destruct Ha1 as (Hsub21 & _).
      apply (subscribed_state_frame w1); [assumption | | |]; apply Hmem; congruence. }
    apply (subscribed_observers _ _ _ _ _ Hsub').
  - exact Hact.
Qed.

Lemma peer_unsubscribe_stops_transactions_witness :
  exists w',
    (kstate_unsubscribe_state 1 ;;; kstate_start_transaction 131 50 KSTATE_WRITE) demo_peers
    = Done (- ENOENT) w'
    /\ kstate_state_is_subscribed 50 w' = Done true w'.
Proof.
  destruct (peer_unsubscribe_stops_transactions demo_peers 1 (mk_state 33 3 1 46 4)
              50 (mk_state 82 3 2 95 4) 131 demo_inactive "/kstate.Fred" 1 1 KSTATE_WRITE)
    as (w' & H1 & H2 & _).
  - exact demo_peers_first.
  - exact demo_peers_attempt.
  - discriminate.
  - discriminate.
  - repeat split.
  - exists w'. split; assumption.
Defined.


(** X16.
    After one of two subscribers of a name has unsubscribed, a new
    subscription to that name for writing makes a new object: the
    remaining subscriber keeps the old object mapped and reads its
    contents, the new subscriber maps a new object filled with zeros, and
    the name is bound to the new one.  The two handles are subscribed to
    the same name and to different objects. *)
Theorem resubscription_splits_state w st1 s1 st2 s2 st3 s3 name obj c perms :
  subscribed_state w st1 s1 (canonical name) obj ->
  subscribed_state w st2 s2 (canonical name) obj ->
  st1 <> st2 -> st_name s1 <> st_name s2 -> st_map_addr s1 <> st_map_addr s2 ->
  shm_objs w !! obj = Some c -> st_map_length s2 <= blen c ->
  obj < next_obj w ->
  ready_to_subscribe w st3 s3 name perms ->
  has (with_read perms) KSTATE_WRITE = true ->
  no_fault 3 (tl (faults w)) ->
  exists w',
    (kstate_unsubscribe_state st1 ;;; kstate_subscribe_state st3 (Some name) perms) w
    = Done 0 w'
    /\ read_state st2 (st_map_length s2) w' = Done (live_bytes c (st_map_length s2)) w'
    /\ read_state st3 (page_size w) w' = Done (zeros (page_size w)) w'
    /\ shm_names w' !! canonical name = Some (next_obj w)
    /\ (exists s3', subscribed_state w' st3 s3' (canonical name) (next_obj w))
    /\ subscribed_state w' st2 s2 (canonical name) obj
    /\ next_obj w <> obj.
Proof.
  intros Hsub1 Hsub2 Hne Hn Hm Hobj Hlen Hlt Hr Hw Hf.
  destruct (unsubscribe_done _ _ _ _ _ Hsub1)
    as (w1 & Hu & _ & _ & _ & Hframe & Hnames & Hobjs & _ & Hfds & Hbrk & Hfl & Hnfd
        & Hps & Hno).
  pose proof Hsub1 as (_ & L1 & L1n & L2 & _ & _ & L3 & _).
  pose proof Hsub2 as (_ & K1 & K1n & K2 & _ & _ & K3 & _).
  destruct Hr as ((H30 & H3 & H3n) & Hck & Hbad & F1 & Hfd & Hpage & Hfr).
  pose proof (fresh_lt _ _ _ Hfr L1). pose proof (fresh_lt _ _ _ Hfr L2).
  pose proof (fresh_lt _ _ _ Hfr L3). pose proof (fresh_lt _ _ _ Hfr K1).
  pose proof (fresh_lt _ _ _ Hfr K2). pose proof (fresh_lt _ _ _ Hfr K3).
  assert (Hr1 : ready_to_subscribe w1 st3 s3 name perms).
  { split; [|split; [|split; [|split; [|split; [|split]]]]]; try assumption.
    - split; [assumption|]. split; [|assumption].
      rewrite Hframe by congruence. assumption.
    - now rewrite Hfl.
    - now rewrite Hnfd.
    - now rewrite Hps.
    - apply (fresh_above_frame w); [assumption | assumption |].
      intros a Hge. apply Hframe; lia. }
  destruct (subscribe_creates_lemma _ _ _ _ _ Hr1 Hw) as (w' & Hs & Hsub3 & Hn' & Ho' & _ & Hmem).
  { rewrite Hnames. apply lookup_delete_eq. }
  { now rewrite Hfl. }
  rewrite Hno, Hps, Hobjs in *. rewrite Hbrk in Hmem.
  assert (Hsub2' : subscribed_state w' st2 s2 (canonical name) obj).
  { apply (subscribed_state_frame w); [assumption | | |];
      (rewrite Hmem by congruence); apply Hframe; congruence. }
  assert (Hobj' : shm_objs w' !! obj = Some c).
  { rewrite Ho', lookup_insert_ne by lia. exact Hobj. }
  assert (Hobj3 : shm_objs w' !! next_obj w = Some (zeros (page_size w)))
    by (rewrite Ho'; apply lookup_insert_eq).
  pose proof (read_subscribed _ _ _ _ _ _ Hsub3 Hobj3) as Hread3.
  cbn [subscribed st_map_length] in Hread3. rewrite Hps in Hread3.
  rewrite take_zeros, blen_zeros in Hread3 by lia.
  exists w'. split; [unfold bind; rewrite Hu; exact Hs|].
  split; [now apply (read_subscribed _ _ _ _ _ _ Hsub2' Hobj')|].
  split; [apply Hread3; lia|].
  split; [rewrite Hn'; apply lookup_insert_eq|].
  split; [eexists; exact Hsub3|]. split; [exact Hsub2' | lia].
Qed.

Lemma resubscription_splits_state_witness :
  exists w',
    (kstate_unsubscribe_state 1 ;;;
     kstate_subscribe_state 99 (Some "Fred"%string) KSTATE_WRITE) demo_peers = Done 0 w'
    /\ shm_names w' !! "/kstate.Fred"%string = Some 2
    /\ subscribed_state w' 50 (mk_state 82 3 2 95 4) "/kstate.Fred" 1.
Proof.
  destruct (resubscription_splits_state demo_peers 1 (mk_state 33 3 1 46 4)
              50 (mk_state 82 3 2 95 4) 99 (mk_state 0 0 3 0 0) "Fred" 1 (zeros 4)
              KSTATE_WRITE)
    as (w' & H1 & _ & _ & H4 & _ & H6 & _).
  - exact demo_peers_first.
  - exact demo_peers_second.
  - discriminate.
  - discriminate.
  - discriminate.
  - vm_compute. reflexivity.
  - vm_compute. discriminate.
  - vm_compute. reflexivity.
  - apply demo_peers_third. reflexivity.
  - reflexivity.
  - repeat split.
  - exists w'. repeat split; try assumption; apply H6.
Defined.

(** * Transactions and the shared region *)

Lemma commit_current w p t nm obj c work :
  writable_transaction w p t nm obj c (live_bytes c (tr_map_length t)) work ->
  exists w',
    kstate_commit_transaction p w = Done 0 w'
    /\ shm_objs w' = <[obj := overwrite work c]> (shm_objs w)
    /\ torn_down (mem w) (mem w') p (RTrans (cleared t)) (resources t)
    /\ fds w' = fds w /\ shm_names w' = shm_names w.
Proof.
  intros Hw.
  destruct (List.list_eq_dec Byte.byte_eq_dec work (live_bytes c (tr_map_length t)))
    as [E|E].
  - destruct (commit_nothing_to_write _ _ _ _ _ _ _ _ Hw eq_refl E) as (m' & Hc & Htd).
    eexists. split; [exact Hc|]. cbn [shm_objs set_mem mem fds shm_names].
    split; [|auto].
    rewrite E, overwrite_live. symmetry. apply insert_id. apply Hw.
  - destruct (commit_publishes _ _ _ _ _ _ _ _ Hw eq_refl E) as (m' & Hc & Htd).
    eexists. split; [exact Hc|]. split; [reflexivity|]. auto.
Qed.

Lemma commit_stale w p t nm obj c snap work :
  writable_transaction w p t nm obj c snap work ->
  live_bytes c (tr_map_length t) <> snap ->
  exists w',
    kstate_commit_transaction p w = Done (- EPERM) w'
    /\ shm_objs w' = shm_objs w
    /\ torn_down (mem w) (mem w') p (RTrans (cleared t)) (resources t)
    /\ fds w' = fds w /\ shm_names w' = shm_names w.
Proof.
  intros Hw Hne.
  destruct (commit_conflict _ _ _ _ _ _ _ _ Hw Hne) as (m' & Hc & Htd).
  eexists. split; [exact Hc|]. repeat split; apply Htd.
Qed.

Lemma abort_writable_frame w p t nm obj c snap work :
  writable_transaction w p t nm obj c snap work ->
  exists w',
    kstate_abort_transaction p w = Done 0 w'
    /\ shm_objs w' = shm_objs w /\ shm_writes w' = shm_writes w
    /\ torn_down (mem w) (mem w') p (RTrans (cleared t))
         ([tr_name t; tr_state_map_addr t; tr_map_addr t] ++ [tr_state_map_copy t])
    /\ fds w' = fds w /\ shm_names w' = shm_names w.
Proof.
  intros Hw.
  destruct (abort_done _ _ _ _ _ _ _ _ _ _ (proj1 Hw) (writable_copy _ _ _ _ _ _ _ _ Hw))
    as (m' & Ha & Htd).
  eexists. split; [exact Ha|]. repeat split; apply Htd.
Qed.

(** Reading through the pointer of a state, from what the memory holds. *)
Lemma read_state_value w st s obj c l n :
  st <> NULL -> mem w !! st = Some (RState s) -> st_name s <> NULL ->
  mem w !! st_map_addr s = Some (RShared obj PROT_READ l) ->
  shm_objs w !! obj = Some c ->
  n <= l -> n <= blen c ->
  read_state st n w = Done (live_bytes c n) w.
Proof.
  intros Hs0 Hs Hn Hm Hobj Hl Hc.
  unfold read_state, kstate_get_state_ptr, kstate_state_is_subscribed, NULL in *.
  kexec. unfold mem_read. rewrite Hm, Hobj, has_r_read.
  replace (n <=? l) with true by (symmetry; apply Z.leb_le; lia).
  replace (n <=? blen c) with true by (symmetry; apply Z.leb_le; lia).
  reflexivity.
Qed.

Lemma read_transaction_value w tp t prot work n :
  tp <> NULL -> mem w !! tp = Some (RTrans t) -> tr_name t <> NULL ->
  mem w !! tr_map_addr t = Some (RAnon prot work) ->
  has prot PROT_READ = true -> n <= blen work ->
  read_transaction tp n w = Done (live_bytes work n) w.
Proof.
  intros Ht0 Ht Hn Hm Hp Hl.
  unfold read_transaction, kstate_get_transaction_ptr, kstate_transaction_is_active, NULL in *.
  kexec. unfold mem_read. rewrite Hm, Hp.
  replace (n <=? blen work) with true by (symmetry; apply Z.leb_le; lia).
  reflexivity.
Qed.

Lemma live_overwrite (work c : list byte) (n : Z) :
  blen work = n -> live_bytes (overwrite work c) n = work.
Proof.
  unfold blen, live_bytes, overwrite. intros <-. rewrite Nat2Z.id.
  rewrite take_app_length. reflexivity.
Qed.

Lemma prot_read_not_rw : PROT_READ <> PROT_RW.
Proof. discriminate. Qed.

(** X17.
    What a transaction has written is seen through the pointer of a state
    on the same object once it is committed, and not before; after an
    abort it is never seen. *)
Theorem commit_makes_writes_visible w st s tp t nm obj c work :
  subscribed_state w st s nm obj ->
  writable_transaction w tp t nm obj c (live_bytes c (tr_map_length t)) work ->
  st_map_length s = tr_map_length t ->
  let n := tr_map_length t in
  read_state st n w = Done (live_bytes c n) w
  /\ (exists w', kstate_commit_transaction tp w = Done 0 w'
                 /\ read_state st n w' = Done work w')
  /\ (exists w', kstate_abort_transaction tp w = Done 0 w'
                 /\ read_state st n w' = Done (live_bytes c n) w').
Proof.
  intros Hsub Hw Hlen n.
  pose proof Hsub as (Hs0 & Hs & Hsn0 & Hsn & Hsm0 & Hsm1 & Hsm & Hpos).
  pose proof Hw as ((Hp0 & Hp & Hn0 & Hn & Hl0 & Hl1 & Hl & Ho & Hle & Hw0 & Hw1 & Hwk
                     & Hwl & Hpos') & Hperm & Hc0 & Hc & Hcl).
  assert (Nst : ~ In st (resources t) /\ st <> tp).
  { unfold resources. cbn [In]. split; [|congruence].
    intros [E|[E|[E|[E|[]]]]]; congruence. }
  assert (Nmap : ~ In (st_map_addr s) (resources t) /\ st_map_addr s <> tp).
  { unfold resources. cbn [In]. split; [|congruence].
    intros [E|[E|[E|[E|[]]]]]; try congruence.
    rewrite E, Hsm in Hl. injection Hl as E'. now apply prot_read_not_rw. }
  rewrite Hlen in Hsm. fold n in Hsm, Hle, Hwl.
  split; [|split].
  - apply (read_state_value w st s obj c n); try assumption; lia.
  - destruct (commit_current _ _ _ _ _ _ _ Hw) as (w' & Hcm & Hobjs & (_ & _ & Hfr) & _).
    exists w'. split; [exact Hcm|].
    rewrite <- (live_overwrite work c n Hwl).
    apply (read_state_value w' st s obj _ n); try assumption; try lia.
    + rewrite Hfr; [exact Hs | apply Nst | apply Nst].
    + rewrite Hfr; [exact Hsm | apply Nmap | apply Nmap].
    + rewrite Hobjs. apply lookup_insert_eq.
    + rewrite blen_overwrite; lia.
  - destruct (abort_writable_frame _ _ _ _ _ _ _ _ Hw)
      as (w' & Hab & Hobjs & _ & (_ & _ & Hfr) & _).
    exists w'. split; [exact Hab|].
    apply (read_state_value w' st s obj c n); try assumption; try lia.
    + rewrite Hfr; [exact Hs | apply Nst | ].
      cbn [app]. apply Nst.
    + rewrite Hfr; [exact Hsm | apply Nmap | ]. cbn [app]. apply Nmap.
    + rewrite Hobjs. exact Ho.
Qed.

Lemma commit_makes_writes_visible_witness :
  read_state 1 4 demo_writable = Done (zeros 4) demo_writable
  /\ exists w', kstate_commit_transaction 50 demo_writable = Done 0 w'
                /\ read_state 1 4 w' = Done [x12; x34; x56; x78] w'.
Proof.
  destruct (commit_makes_writes_visible demo_writable 1 demo_state 50
              (demo_transaction 3 115) "/kstate.Fred" 1 (zeros 4) [x12; x34; x56; x78])
    as (H1 & H2 & _).
  - exact demo_writable_state.
  - exact demo_writable_ok.
  - reflexivity.
  - split; [exact H1 | exact H2].
Defined.

(** A writable transaction in a world that differs in other regions and in
    the contents of the object. *)
Lemma writable_transaction_moved w w' tp t nm obj c c' snap work :
  writable_transaction w tp t nm obj c snap work ->
  (forall a, In a (tp :: resources t) -> mem w' !! a = mem w !! a) ->
  shm_objs w' !! obj = Some c' -> blen c' = blen c ->
  writable_transaction w' tp t nm obj c' snap work.
Proof.
  intros ((Hp0 & Hp & Hn0 & Hn & Hl0 & Hl1 & Hl & Ho & Hlen & Hw0 & Hw1 & Hw & Hwl & Hpos)
          & Hperm & Hc0 & Hc & Hcl) Hm Hobj Hb.
  unfold writable_transaction, active_transaction.
  rewrite !Hm by (unfold resources; cbn [In]; tauto).
  rewrite Hb. repeat split; assumption.
Qed.

Lemma not_in_resources w p1 t1 nm1 obj1 c1 snap1 work1 p2 t2 nm2 obj2 c2 snap2 work2 :
  writable_transaction w p1 t1 nm1 obj1 c1 snap1 work1 ->
  writable_transaction w p2 t2 nm2 obj2 c2 snap2 work2 ->
  separate_transactions p1 t1 p2 t2 ->
  forall a, In a (p2 :: resources t2) -> a <> p1 /\ ~ In a (resources t1).
Proof.
  intros ((_ & Hp & _ & Hn & _ & _ & Hl & _ & _ & _ & _ & Hw & _) & _ & _ & Hc & _)
         ((_ & Hp' & _ & Hn' & _ & _ & Hl' & _ & _ & _ & _ & Hw' & _) & _ & _ & Hc' & _)
         (S1 & S2 & S3 & S4 & S5) a Ha.
  unfold resources in *. cbn [In] in *.
  destruct Ha as [<-|[<-|[<-|[<-|[<-|[]]]]]];
    (split; [congruence | intros [E|[E|[E|[E|[]]]]]; congruence]).
Qed.

(** X18.
    Of two transactions that start from the same contents of a state, the
    first to commit a change wins: its commit returns 0, and the commit of
    the other then returns -EPERM and leaves the object as the first wrote
    it.  A first commit that changes nothing is no obstacle: the second
    commit then returns 0 and publishes its own buffer.  Either way both
    transactions end up inactive, and until its own commit the second
    transaction reads its own buffer. *)
Theorem first_committer_wins w p1 t1 p2 t2 nm obj c work1 work2 :
  let n := tr_map_length t1 in
  writable_transaction w p1 t1 nm obj c (live_bytes c n) work1 ->
  writable_transaction w p2 t2 nm obj c (live_bytes c n) work2 ->
  tr_map_length t2 = n ->
  separate_transactions p1 t1 p2 t2 ->
  exists w1,
    kstate_commit_transaction p1 w = Done 0 w1
    /\ shm_objs w1 !! obj = Some (overwrite work1 c)
    /\ read_transaction p2 n w1 = Done work2 w1
    /\ (work1 <> live_bytes c n ->
        exists w2,
          kstate_commit_transaction p2 w1 = Done (- EPERM) w2
          /\ shm_objs w2 !! obj = Some (overwrite work1 c)
          /\ kstate_transaction_is_active p1 w2 = Done false w2
          /\ kstate_transaction_is_active p2 w2 = Done false w2)
    /\ (work1 = live_bytes c n ->
        exists w2,
          kstate_commit_transaction p2 w1 = Done 0 w2
          /\ shm_objs w2 !! obj = Some (overwrite work2 c)
          /\ kstate_transaction_is_active p1 w2 = Done false w2
          /\ kstate_transaction_is_active p2 w2 = Done false w2).
Proof.
  intros n H1 H2 Hn Hsep.
  pose proof (not_in_resources _ _ _ _ _ _ _ _ _ _ _ _ _ _ _ H1 H2 Hsep) as Hout.
  destruct (commit_current _ _ _ _ _ _ _ H1) as (w1 & Hc1 & Hobjs & Htd & _).
  pose proof H1 as ((P0 & _ & _ & _ & _ & _ & _ & _ & Hle1 & _ & _ & _ & Hwl1 & _) & _).
  pose proof H2 as ((Q0 & Q1 & Q2 & _ & _ & _ & _ & _ & _ & _ & _ & Q3 & Hwl2 & _) & _).
  fold n in Hle1, Hwl1.
  assert (Hobj1 : shm_objs w1 !! obj = Some (overwrite work1 c))
    by (rewrite Hobjs; apply lookup_insert_eq).
  assert (Hsame : forall a, In a (p2 :: resources t2) -> mem w1 !! a = mem w !! a).
  { intros a Ha. destruct (Hout a Ha) as [Hne Hnot].
    destruct Htd as (_ & _ & Hfr). now apply Hfr. }
  assert (H2' : writable_transaction w1 p2 t2 nm obj (overwrite work1 c)
                  (live_bytes c n) work2).
  { apply (writable_transaction_moved w w1 p2 t2 nm obj c); try assumption.
    apply blen_overwrite. lia. }
  assert (Hoff1 : forall w2, mem w2 !! p1 = mem w1 !! p1 ->
                             kstate_transaction_is_active p1 w2 = Done false w2).
  { intros w2 E. destruct Htd as (Hl & _).
    unfold kstate_transaction_is_active, NULL in *. rewrite Hl in E.
    kexec. reflexivity. }
  assert (Hp1 : p1 <> p2 /\ ~ In p1 (resources t2)).
  { destruct H1 as ((_ & Hp & _) & _).
    destruct H2 as ((_ & Hp' & _ & Hn' & _ & _ & Hl' & _ & _ & _ & _ & Hw' & _) & _ & _ & Hc' & _).
    split; [apply Hsep|]. unfold resources. cbn [In].
    intros [E|[E|[E|[E|[]]]]]; congruence. }
  exists w1. split; [exact Hc1|]. split; [exact Hobj1|]. split.
  { assert (Hr : read_transaction p2 n w1 = Done (live_bytes work2 n) w1).
    { apply (read_transaction_value w1 p2 t2 PROT_RW); try assumption.
      - rewrite Hsame by (left; reflexivity). exact Q1.
      - rewrite Hsame by (unfold resources; cbn [In]; tauto). exact Q3.
      - reflexivity.
      - rewrite Hwl2, Hn. lia. }
    unfold live_bytes in Hr. rewrite take_all in Hr by (rewrite <- Hn; exact Hwl2).
    exact Hr. }
  split.
  - intros Hdiff.
    destruct (commit_stale _ _ _ _ _ _ _ _ H2') as (w2 & Hc2 & Hobjs2 & Htd2 & _).
    { rewrite Hn, (live_overwrite work1 c n Hwl1). exact Hdiff. }
    exists w2. split; [exact Hc2|]. split; [rewrite Hobjs2; exact Hobj1|].
    split.
    + apply Hoff1. destruct Htd2 as (_ & _ & Hfr). apply Hfr; apply Hp1.
    + apply (inactive_after_tear_down (mem w1) (mem w2) w2 p2 t2 (resources t2) Q0) in Htd2.
      destruct w2; exact Htd2.
  - intros Hsame1.
    assert (Hc' : overwrite work1 c = c) by (rewrite Hsame1; apply overwrite_live).
    rewrite Hc' in *.
    assert (H2'' : writable_transaction w1 p2 t2 nm obj c
                     (live_bytes c (tr_map_length t2)) work2) by (rewrite Hn; exact H2').
    destruct (commit_current _ _ _ _ _ _ _ H2'') as (w2 & Hc2 & Hobjs2 & Htd2 & _).
    exists w2. split; [exact Hc2|].
    split; [rewrite Hobjs2; apply lookup_insert_eq|].
    split.
    + apply Hoff1. destruct Htd2 as (_ & _ & Hfr). apply Hfr; apply Hp1.
    + apply (inactive_after_tear_down (mem w1) (mem w2) w2 p2 t2 (resources t2) Q0) in Htd2.
      destruct w2; exact Htd2.
Qed.

Lemma first_committer_wins_witness :
  exists w1 w2,
    kstate_commit_transaction 50 demo_two_writers = Done 0 w1
    /\ kstate_commit_transaction 123 w1 = Done (- EPERM) w2
    /\ shm_objs w2 !! 1 = Some [x12; x34; x56; x78].
Proof.
  destruct (first_committer_wins demo_two_writers 50 (mk_transaction 98 1 3 111 115 119 4)
              123 (mk_transaction 171 2 3 184 188 192 4) "/kstate.Fred" 1 (zeros 4)
              [x12; x34; x56; x78] [x9a; xbc; xde; xf0])
    as (w1 & H1 & _ & _ & H4 & _).
  - exact demo_first_writer.
  - exact demo_second_writer.
  - reflexivity.
  - repeat split; discriminate.
  - destruct H4 as (w2 & H5 & H6 & _); [vm_compute; discriminate|].
    exists w1, w2. repeat split; assumption.
Defined.

(** * Releasing *)

(** X19.
    An abort gives everything back and touches nothing shared, whether or
    not the state has changed since the start: it returns 0, the name
    block, the snapshot and both mappings are gone, the struct is left
    cleared with its id, every other region is as it was, and no byte of
    the shm object is written. *)
Theorem abort_releases_transaction w tp t nm obj c snap work :
  writable_transaction w tp t nm obj c snap work ->
  exists w',
    kstate_abort_transaction tp w = Done 0 w'
    /\ kstate_transaction_is_active tp w' = Done false w'
    /\ mem w' !! tp = Some (RTrans (cleared t))
    /\ (forall a, In a (resources t) -> mem w' !! a = None)
    /\ (forall a, a <> tp -> ~ In a (resources t) -> mem w' !! a = mem w !! a)
    /\ shm_objs w' = shm_objs w /\ shm_writes w' = shm_writes w
    /\ fds w' = fds w.
Proof.
  intros Hw.
  destruct (abort_done _ _ _ _ _ _ _ _ _ _ (proj1 Hw) (writable_copy _ _ _ _ _ _ _ _ Hw))
    as (m' & Ha & Htd).
  pose proof (inactive_after_tear_down _ _ w _ _ _ (proj1 (proj1 Hw)) Htd) as Hoff.
  exists (set_mem m' w). split; [exact Ha|]. split; [exact Hoff|].
  destruct Htd as (H1 & H2 & H3). cbn [mem set_mem shm_objs shm_writes fds].
  split; [exact H1|].
  split; [intros a Hin; apply H2; unfold resources in Hin; cbn [app In] in *; tauto|].
  split; [intros a Hp Hin; apply H3; [exact Hp|];
          unfold resources in Hin; cbn [app In] in *; tauto|].
  auto.
Qed.

Lemma abort_releases_transaction_witness :
  exists w',
    kstate_abort_transaction 50 demo_writable = Done 0 w'
    /\ kstate_transaction_is_active 50 w' = Done false w'
    /\ shm_objs w' = shm_objs demo_writable.
Proof.
  destruct (abort_releases_transaction demo_writable 50 (demo_transaction 3 115)
              "/kstate.Fred" 1 (zeros 4) (zeros 4) [x12; x34; x56; x78] demo_writable_ok)
    as (w' & H1 & H2 & _ & _ & _ & H6 & _).
  exists w'. repeat split; assumption.
Defined.


(** X20.
    kstate_free_transaction aborts a transaction that is still active
    and frees the handle: of the transaction nothing is left in memory.
    A NULL argument and a variable that holds NULL are left alone. *)
Theorem free_transaction_releases_everything w tp t nm obj c snap work :
  kstate_free_transaction None w = Done None w
  /\ kstate_free_transaction (Some NULL) w = Done (Some NULL) w
  /\ (writable_transaction w tp t nm obj c snap work ->
      exists w',
        kstate_free_transaction (Some tp) w = Done (Some NULL) w'
        /\ (forall a, In a (tp :: resources t) -> mem w' !! a = None)
        /\ (forall a, a <> tp -> ~ In a (resources t) -> mem w' !! a = mem w !! a)
        /\ shm_objs w' = shm_objs w /\ fds w' = fds w).
Proof.
  split; [reflexivity|]. split; [reflexivity|].
  intros Hw.
  destruct (abort_done _ _ _ _ _ _ _ _ _ _ (proj1 Hw) (writable_copy _ _ _ _ _ _ _ _ Hw))
    as (m' & Ha & Htd).
  pose proof Hw as ((Hp0 & Hp & Hn0 & _) & _).
  destruct Htd as (H1 & H2 & H3).
  unfold kstate_free_transaction, kstate_transaction_is_active, NULL in *.
  exists (set_mem (delete tp m') w). split.
  - kexec. reflexivity.
  - cbn [mem set_mem shm_objs fds]. split; [|split; [|auto]].
    + intros a [<-|Hin]; [apply lookup_delete_eq|].
      destruct (Z.eq_dec tp a) as [<-|Hne]; [apply lookup_delete_eq|].
      rewrite lookup_delete_ne by exact Hne. apply H2.
      unfold resources in Hin. cbn [app In] in *. tauto.
    + intros a Hne Hin. rewrite lookup_delete_ne by congruence.
      apply H3; [exact Hne|]. unfold resources in Hin. cbn [app In] in *. tauto.
Qed.

Lemma free_transaction_releases_everything_witness :
  exists w',
    kstate_free_transaction (Some 50) demo_writable = Done (Some NULL) w'
    /\ mem w' !! 50 = None
    /\ shm_objs w' = shm_objs demo_writable.
Proof.
  destruct (free_transaction_releases_everything demo_writable 50 (demo_transaction 3 115)
              "/kstate.Fred" 1 (zeros 4) (zeros 4) [x12; x34; x56; x78])
    as (_ & _ & H).
  destruct (H demo_writable_ok) as (w' & H1 & H2 & _ & H4 & _).
  exists w'. repeat split; try assumption. apply H2. left. reflexivity.
Defined.


(** X21.
    kstate_free_state unsubscribes a state that is still subscribed and
    frees the handle: the struct, the name block and the mapping are
    gone, and the name is unlinked.  A NULL argument and a variable that
    holds NULL are left alone. *)
Theorem free_state_releases_everything w st s nm obj :
  kstate_free_state None w = Done None w
  /\ kstate_free_state (Some NULL) w = Done (Some NULL) w
  /\ (subscribed_state w st s nm obj ->
      exists w',
        kstate_free_state (Some st) w = Done (Some NULL) w'
        /\ mem w' !! st = None /\ mem w' !! st_name s = None
        /\ mem w' !! st_map_addr s = None
        /\ (forall a, a <> st -> a <> st_name s -> a <> st_map_addr s ->
                      mem w' !! a = mem w !! a)
        /\ shm_names w' !! nm = None
        /\ shm_objs w' = shm_objs w /\ fds w' = fds w).
Proof.
  split; [reflexivity|]. split; [reflexivity|].
  intros Hsub.
  destruct (unsubscribe_done _ _ _ _ _ Hsub)
    as (w1 & Hu & Hst & Hn & Hm & Hframe & Hnames & Hobjs & _ & Hfds & _).
  pose proof Hsub as (Hs0 & Hs & Hsn0 & Hsn & _ & _ & Hsm & _).
  assert (st <> st_name s) by congruence.
  assert (st <> st_map_addr s) by congruence.
  unfold kstate_free_state, kstate_state_is_subscribed, NULL in *.
  exists (set_mem (delete st (mem w1)) w1). split.
  - kexec. reflexivity.
  - cbn [mem set_mem shm_names shm_objs fds].
    split; [apply lookup_delete_eq|].
    split; [rewrite lookup_delete_ne by assumption; exact Hn|].
    split; [rewrite lookup_delete_ne by assumption; exact Hm|].
    split; [intros a H1 H2 H3; rewrite lookup_delete_ne by congruence; now apply Hframe|].
    split; [rewrite Hnames; apply lookup_delete_eq | auto].
Qed.

Lemma free_state_releases_everything_witness :
  exists w',
    kstate_free_state (Some 1) demo_subscribed = Done (Some NULL) w'
    /\ mem w' !! 1 = None
    /\ shm_names w' !! "/kstate.Fred"%string = None.
Proof.
  destruct (free_state_releases_everything demo_subscribed 1 demo_state "/kstate.Fred" 1)
    as (_ & _ & H).
  destruct (H demo_subscribed_state) as (w' & H1 & H2 & _ & _ & _ & H6 & _).
  exists w'. repeat split; assumption.
Defined.

(** * New handles and ids *)

(** X22.
    While memory lasts, kstate_new_state and kstate_new_transaction
    return a new block that holds a zeroed struct with the next id: the
    handle is not subscribed (not active), nothing else in memory
    changes, and the counter moves on to another value that is not 0
    (after 2^32 - 1 it is 1 again). *)
Theorem new_handles_are_fresh w :
  hd None (faults w) = None -> 0 < brk w ->
  0 < next_state_id w < UINT32_MOD ->
  0 < next_transaction_id w < UINT32_MOD ->
  (exists w',
      kstate_new_state w = Done (brk w) w'
      /\ mem w' = <[brk w := RState (mk_state NULL 0 (next_state_id w) NULL 0)]> (mem w)
      /\ kstate_state_is_subscribed (brk w) w' = Done false w'
      /\ next_state_id w' = bump (next_state_id w)
      /\ 0 < next_state_id w' < UINT32_MOD
      /\ next_state_id w' <> next_state_id w
      /\ (next_state_id w = UINT32_MOD - 1 -> next_state_id w' = 1)
      /\ shm_names w' = shm_names w /\ shm_objs w' = shm_objs w /\ fds w' = fds w)
  /\ (exists w',
      kstate_new_transaction w = Done (brk w) w'
      /\ mem w' = <[brk w := RTrans (mk_transaction NULL (next_transaction_id w)
                                                      0 NULL NULL NULL 0)]> (mem w)
      /\ kstate_transaction_is_active (brk w) w' = Done false w'
      /\ next_transaction_id w' = bump (next_transaction_id w)
      /\ 0 < next_transaction_id w' < UINT32_MOD
      /\ next_transaction_id w' <> next_transaction_id w
      /\ (next_transaction_id w = UINT32_MOD - 1 -> next_transaction_id w' = 1)
      /\ shm_names w' = shm_names w /\ shm_objs w' = shm_objs w /\ fds w' = fds w).
Proof.
  intros Hf Hb Hs Ht.
  destruct (bump_distinct _ Hs) as [Hs1 Hs2].
  destruct (bump_distinct _ Ht) as [Ht1 Ht2].
  assert (Hsz : (sizeof_state <=? sizeof_state) = true) by reflexivity.
  assert (Htz : (sizeof_transaction <=? sizeof_transaction) = true) by reflexivity.
  unfold kstate_new_state, kstate_new_transaction, kstate_state_is_subscribed,
    kstate_transaction_is_active, zero_state, zero_transaction, bump, NULL in *.
  destruct w as [m b f nf sn so no sw ps en fl nsi nti]. ksimpl.
  replace (b =? 0) with false by (symmetry; apply Z.eqb_neq; lia).
  split.
  - destruct (Z.eqb_spec ((nsi + 1) mod UINT32_MOD) 0) as [E|E];
      (eexists; split; [kcall; reflexivity|]); unfold ret, zero_state; kset;
      rewrite !insert_insert_eq;
      (split; [reflexivity|]); (split; [kcall; reflexivity|]);
      unfold UINT32_MOD in *; repeat split; try lia; try reflexivity.
    intros ->. exfalso. apply E. reflexivity.
  - destruct (Z.eqb_spec ((nti + 1) mod UINT32_MOD) 0) as [E|E];
      (eexists; split; [kcall; reflexivity|]); unfold ret, zero_transaction; kset;
      rewrite !insert_insert_eq;
      (split; [reflexivity|]); (split; [kcall; reflexivity|]);
      unfold UINT32_MOD in *; repeat split; try lia; try reflexivity.
    intros ->. exfalso. apply E. reflexivity.
Qed.

Lemma new_handles_are_fresh_witness :
  (exists w', kstate_new_state (init_world 4096 []) = Done 1 w'
              /\ kstate_state_is_subscribed 1 w' = Done false w')
  /\ (exists w', kstate_new_transaction (init_world 4096 []) = Done 1 w'
                 /\ kstate_transaction_is_active 1 w' = Done false w').
Proof.
  destruct (new_handles_are_fresh (init_world 4096 [])) as (Hs & Ht).
  - reflexivity.
  - reflexivity.
  - vm_compute. split; reflexivity.
  - vm_compute. split; reflexivity.
  - destruct Hs as (w1 & S1 & _ & S3 & _). destruct Ht as (w2 & T1 & _ & T3 & _).
    split; [exists w1 | exists w2]; split; assumption.
Defined.

(** * Read-only transactions *)

Lemma start_readonly w st s tp t nm sobj perms obj c :
  start_attempt w st s tp t nm sobj perms ->
  has (with_read perms) KSTATE_WRITE = false ->
  shm_names w !! nm = Some obj ->
  shm_objs w !! obj = Some c ->
  st_map_length s <= blen c ->
  no_fault 5 (faults w) ->
  exists w1 t1,
    kstate_start_transaction tp st perms w = Done 0 w1
    /\ readonly_transaction w1 tp t1 nm obj c (live_bytes c (st_map_length s))
    /\ tr_map_length t1 = st_map_length s
    /\ tr_permissions t1 = with_read perms
    /\ tr_id t1 = tr_id t
    /\ shm_objs w1 = shm_objs w.
Proof.
  intros Ha Hw Hnm Hobj Hc (F1 & F2 & F3 & F4 & F5 & _).
  assert (Hpos : 0 < st_map_length s) by apply Ha.
  assert (Hbl : blen (take (Z.to_nat (st_map_length s)) c) = st_map_length s)
    by (apply blen_live; lia).
  assert (Ho : overwrite (take (Z.to_nat (st_map_length s)) c) (zeros (st_map_length s))
               = take (Z.to_nat (st_map_length s)) c).
  { apply overwrite_all. rewrite Hbl. unfold blen, zeros. rewrite length_replicate. lia. }
  start_setup.
  assert (Hrw : has (Z.lor PROT_READ PROT_WRITE) PROT_WRITE = true) by reflexivity.
  eexists _, (mk_transaction b ti _ (b + Z.max 1 (strlen nm + 1)) tc
                (b + Z.max 1 (strlen nm + 1) + Z.max 1 slen) slen).
  split; [kcall; reflexivity|].
  unfold ret, readonly_transaction, active_transaction, live_bytes, NULL, MAP_FAILED.
  kset. rewrite Ho.
  repeat split; ksimplg; kmapg; try kside; try reflexivity.
Qed.

(** X23.
    A transaction started for reading alone gets its own copy of the
    state's contents, through a mapping that is then write-protected: the
    copy can be read through the transaction's pointer, a store through
    it is a fault, and a commit is refused with -EPERM and changes
    nothing.  The transaction reports the id its handle was given. *)
Theorem read_only_transaction_is_protected w st s tp t nm sobj perms obj c :
  start_attempt w st s tp t nm sobj perms ->
  has (with_read perms) KSTATE_WRITE = false ->
  shm_names w !! nm = Some obj ->
  shm_objs w !! obj = Some c ->
  st_map_length s <= blen c ->
  no_fault 5 (faults w) ->
  let n := st_map_length s in
  exists w1,
    kstate_start_transaction tp st perms w = Done 0 w1
    /\ kstate_transaction_is_active tp w1 = Done true w1
    /\ kstate_get_transaction_permissions tp w1 = Done (with_read perms) w1
    /\ read_transaction tp n w1 = Done (live_bytes c n) w1
    /\ kstate_get_transaction_id tp w1 = Done (tr_id t) w1
    /\ (forall bytes, bytes <> [] -> user_write tp bytes w1 = Crash)
    /\ kstate_commit_transaction tp w1 = Done (- EPERM) w1
    /\ shm_objs w1 = shm_objs w.
Proof.
  intros Ha Hw Hnm Hobj Hc Hf n.
  destruct (start_readonly _ _ _ _ _ _ _ _ _ _ Ha Hw Hnm Hobj Hc Hf)
    as (w1 & t1 & Hs & Hro & Hlen & Hperm & Hid & Hobjs).
  destruct Hro as ((Hp0 & Hp & Hn0 & Hn & Hl0 & Hl1 & Hl & Ho & Hle & Hw0 & Hw1 & Hwk
                    & Hwl & Hpos) & Hnw & Hcopy).
  exists w1. split; [exact Hs|].
  split.
  { unfold kstate_transaction_is_active, NULL in *. kexec. reflexivity. }
  split.
  { unfold kstate_get_transaction_permissions, kstate_transaction_is_active, NULL in *.
    kexec. rewrite Hperm. reflexivity. }
  split.
  { pose proof (read_transaction_value w1 tp t1 PROT_READ _ n Hp0 Hp Hn0 Hwk eq_refl) as Hr.
    unfold live_bytes in Hr at 2. rewrite take_all in Hr by (rewrite Hwl; exact Hlen).
    apply Hr. rewrite Hwl, Hlen. unfold n. lia. }
  split.
  { unfold kstate_get_transaction_id, kstate_transaction_is_active, NULL in *.
    kexec. rewrite Hid. reflexivity. }
  split.
  { intros bytes _.
    unfold user_write, kstate_get_transaction_ptr, kstate_transaction_is_active, NULL in *.
    kexec. unfold mem_write. rewrite Hwk. reflexivity. }
  split; [|exact Hobjs].
  unfold kstate_commit_transaction, kstate_transaction_is_active, NULL in *.
  kexec. reflexivity.
Qed.

Lemma read_only_transaction_is_protected_witness :
  exists w1,
    kstate_start_transaction 50 1 KSTATE_READ demo_subscribed = Done 0 w1
    /\ read_transaction 50 4 w1 = Done (zeros 4) w1
    /\ kstate_commit_transaction 50 w1 = Done (- EPERM) w1.
Proof.
  destruct (read_only_transaction_is_protected demo_subscribed 1 demo_state 50
              demo_inactive "/kstate.Fred" 1 KSTATE_READ 1 (zeros 4))
    as (w1 & H1 & _ & _ & H4 & _ & _ & H7 & _).
  - apply demo_subscribed_attempt. reflexivity.
  - reflexivity.
  - vm_compute. reflexivity.
  - vm_compute. reflexivity.
  - vm_compute. discriminate.
  - repeat split.
  - exists w1. repeat split; assumption.
Defined.
